(** * HelpCrunch chat exporter: a shallow embedding of [index.js]

    The development follows the class [HelpCrunchExporter] method by method.
    JavaScript values that the code reads from the remote payload are given
    the small dynamic type [JsVal]; arrays that the code mutates in place
    live in an explicit heap; the files the export writes (the cache file,
    the output file and the CSV summary) live in a finite map from file
    names to contents. *)

From Stdlib Require Import ZArith List String Ascii Bool Lia Permutation Sorted DecimalString.
From stdpp Require Import gmap strings.
Import ListNotations.

Local Open Scope string_scope.
Local Open Scope list_scope.
Local Open Scope nat_scope.

(** ** JavaScript scalars *)

(** Scalar payload values.  Numbers are the integers the remote API sends
    (identifiers, unix seconds), and [JNum z] stands for the Number [z]: it
    is one, and prints as its decimal digits, when [z] is a safe integer
    (at most 2^53 - 1 in magnitude).  Strings are sequences of code units
    below 256. *)
Inductive JsVal : Type :=
| JUndefined
| JNull
| JNum (z : Z)
| JStr (s : string).

(** ToBoolean on scalars: [undefined], [null], [0] and [''] are falsy. *)
Definition truthy (v : JsVal) : bool :=
  match v with
  | JUndefined | JNull => false
  | JNum z => negb (z =? 0)%Z
  | JStr s => negb (String.eqb s EmptyString)
  end.

(** [a || b] *)
Definition jsOr (a b : JsVal) : JsVal := if truthy a then a else b.

(** [s || d] for a field that is a string, [null] or absent. *)
Definition strOr (a b : option string) : option string :=
  match a with
  | Some s => if String.eqb s EmptyString then b else a
  | None => b
  end.

(** ** Strings *)

Definition codeOf (c : ascii) : nat := nat_of_ascii c.

(** WhiteSpace and LineTerminator code units below 256: TAB, LF, VT, FF, CR,
    SP and NBSP. *)
Definition isWhite (c : ascii) : bool :=
  let n := codeOf c in
  ((9 <=? n) && (n <=? 13)) || (n =? 32) || (n =? 160).

Fixpoint trimStart (s : string) : string :=
  match s with
  | EmptyString => EmptyString
  | String c s' => if isWhite c then trimStart s' else s
  end.

Fixpoint trimEnd (s : string) : string :=
  match s with
  | EmptyString => EmptyString
  | String c s' =>
      match trimEnd s' with
      | EmptyString => if isWhite c then EmptyString else String c EmptyString
      | t => String c t
      end
  end.

(** [String.prototype.trim] *)
Definition trim (s : string) : string := trimEnd (trimStart s).

(** [String.prototype.toLowerCase] on code units below 256: A-Z and the
    Latin-1 capitals U+00C0..U+00DE (without the multiplication sign). *)
Definition toLowerChar (c : ascii) : ascii :=
  let n := codeOf c in
  if ((65 <=? n) && (n <=? 90)) || ((192 <=? n) && (n <=? 222) && negb (n =? 215))
  then ascii_of_nat (n + 32) else c.

Fixpoint toLowerCase (s : string) : string :=
  match s with
  | EmptyString => EmptyString
  | String c s' => String (toLowerChar c) (toLowerCase s')
  end.

(** ** Categorizer *)

(** [(text.match(new RegExp(keyword, 'g')) || []).length] for a keyword
    without regular-expression metacharacters: the number of occurrences
    found scanning left to right, each search resuming after the previous
    match.  [skip] counts the code units of the last match still to pass. *)
Fixpoint countFrom (keyword : string) (skip : nat) (text : string) : nat :=
  match text with
  | EmptyString => 0
  | String _ rest =>
      match skip with
      | S k => countFrom keyword k rest
      | O =>
          if String.prefix keyword text
          then S (countFrom keyword (String.length keyword - 1) rest)
          else countFrom keyword 0 rest
      end
  end.

Definition countMatches (keyword text : string) : nat :=
  match keyword with
  | EmptyString => S (String.length text)
  | _ => countFrom keyword 0 text
  end.

(** The [categories] object literal, in property-definition order. *)
Definition categories : list (string * list string) :=
  [ ("bridge provider",
      ["bridge"; "axelar"; "wormhole"; "ibc"; "gravity bridge"; "stargate"; "cosmos hub"]);
    ("cache",
      ["cache"; "caching"; "refresh"; "reload"; "clear cache"; "browser cache"]);
    ("deposit/withdrawal",
      ["deposit"; "withdrawal"; "withdraw"; "deposit funds"; "withdraw funds";
       "binance"; "coinbase"; "kucoin"; "kraken"]);
    ("external team related",
      ["starname"; "stargaze"; "juno"; "akash"; "cosmos"; "terra"; "luna";
       "secret"; "kava"; "evmos"]);
    ("fe bug",
      ["bug"; "error"; "broken"; "not working"; "issue"; "problem"; "frontend";
       "ui bug"; "interface"]);
    ("general inquiry",
      ["how to"; "what is"; "explain"; "help"; "question"; "understand";
       "tutorial"; "guide"]);
    ("glitch/can't reproduce",
      ["glitch"; "weird"; "strange"; "can't reproduce"; "cannot reproduce";
       "intermittent"; "sometimes works"]);
    ("swaps",
      ["swap"; "swapping"; "trade"; "trading"; "exchange"; "convert"; "slippage"; "pool"]);
    ("ibc relayer",
      ["relayer"; "ibc"; "timeout"; "pending"; "stuck"; "failed transfer"; "cross chain"]);
    ("unclear ux",
      ["confusing"; "unclear"; "difficult"; "hard to"; "ux"; "user experience"; "design"]);
    ("spam/marketing",
      ["marketing"; "spam"; "promotion"; "advertisement"; "airdrop"; "free tokens"]) ].

Definition categoryLabels : list string := map fst categories.

(** The inner loop: [scores[category] += matches] over the keywords. *)
Definition scoreKeywords (text : string) (keywords : list string) : nat :=
  fold_left (fun acc keyword => acc + countMatches keyword text) keywords 0.

(** The [scores] object after the outer loop, in insertion order. *)
Definition scoresOf (text : string) : list (string * nat) :=
  map (fun entry => (fst entry, scoreKeywords text (snd entry))) categories.

(** [Math.max(...values)] on natural scores of a non-empty object. *)
Definition maxOf (values : list nat) : nat := fold_right Nat.max 0 values.

(** [Object.keys(scores).find(category => scores[category] === maxScore)];
    [None] is JavaScript's [undefined]. *)
Definition findKey (scores : list (string * nat)) (maxScore : nat) : option string :=
  option_map fst (List.find (fun entry => snd entry =? maxScore) scores).

Definition categorizeConversation
    (conversationText : string) (assignedAgent customerName : option string)
    : option string :=
  let text := toLowerCase conversationText in
  let scores := scoresOf text in
  let maxScore := maxOf (map snd scores) in
  if maxScore =? 0 then Some "general inquiry" else findKey scores maxScore.

(** ** Data model *)

(** A raw message of the remote API, with the fields the formatter reads. *)
Module Message.
Record t : Type := mk {
  created_at : JsVal;
  createdAt : JsVal;
  timestamp : JsVal;
  from : option string;
  type : option string;
  text : option string;
  body : option string;
  content : option string
}.
End Message.

(** [conversation.id]: a number or a string; both have [toString]. *)
Inductive JsId : Type :=
| IdNum (z : Z)
| IdStr (s : string).

(** [id.toString()].  A safe integer prints as its decimal digits; from
    2^53 on [Number.prototype.toString] prints the shortest digits that
    read back as the same Number, which the model does not follow. *)
Definition idToString (i : JsId) : string :=
  match i with
  | IdNum z => DecimalString.NilZero.string_of_int (Z.to_int z)
  | IdStr s => s
  end.

(** An object with a [name] property (assignee, department). *)
Record Named : Type := { name : option string }.

Record Customer : Type := { email : option string; customerName : option string }.

(** Arrays are heap objects; a location names one. *)
Definition loc : Type := nat.

(** A raw conversation.  [messages] is [Some r] when the property holds an
    array, stored at [r]. *)
Module Conversation.
Record t : Type := mk {
  id : JsId;
  created_at : JsVal;
  createdAt : JsVal;
  updated_at : JsVal;
  updatedAt : JsVal;
  status : JsVal;
  customer : option Customer;
  assignee : option Named;
  assigned_agent : option Named;
  department : option Named;
  messages : option loc
}.
End Conversation.

Module ExportedChat.
Record t : Type := mk {
  chatId : string;
  organizationId : string;
  createdAt : JsVal;
  updatedAt : JsVal;
  status : JsVal;
  customerEmail : option string;
  customerName : option string;
  assignedAgent : option string;
  department : option string;
  messageCount : nat;
  conversationText : string;
  hasMessages : bool
}.
End ExportedChat.

(** The fields of [this] that the methods read. *)
Record Config : Type := {
  organizationId : string;
  fromDate : string;
  outputFile : string;
  cacheFile : string;
  departmentFilter : option string
}.

(** The newline that ends a transcript line. *)
Definition nl : string := String (ascii_of_nat 10) EmptyString.

(** [x?.name] *)
Definition nameOf (o : option Named) : option string :=
  match o with
  | Some n => name n
  | None => None
  end.

(** ** Formatter *)

Section Formatter.

(** [Date.parse] on strings, in milliseconds; [None] is NaN. *)
Variable dateParse : string -> option Z.
Variable cfg : Config.

(** The time value of [new Date(v)]; [None] is an invalid date. *)
Definition newDate (v : JsVal) : option Z :=
  match v with
  | JUndefined => None
  | JNull => Some 0%Z
  | JNum z => if (Z.abs z <=? 8640000000000000)%Z then Some z else None
  | JStr s => dateParse s
  end.

(** [new Date(m.created_at || m.createdAt || m.timestamp)] *)
Definition messageTime (m : Message.t) : option Z :=
  newDate (jsOr (Message.created_at m) (jsOr (Message.createdAt m) (Message.timestamp m))).

(** The comparator [aTime - bTime]; [None] is NaN. *)
Definition compareMessages (a b : Message.t) : option Z :=
  match messageTime a, messageTime b with
  | Some ta, Some tb => Some (ta - tb)%Z
  | _, _ => None
  end.

(** [a] may stay before [b]: the comparator is not positive.  The sort
    reads NaN as +0. *)
Definition notAfter (a b : Message.t) : bool :=
  match compareMessages a b with
  | Some d => (d <=? 0)%Z
  | None => true
  end.

(** [m] goes before the first message it need not follow. *)
Fixpoint insertMessage (m : Message.t) (sorted : list Message.t) : list Message.t :=
  match sorted with
  | [] => [m]
  | x :: rest => if notAfter m x then m :: sorted else x :: insertMessage m rest
  end.

(** [Array.prototype.sort] with the comparator above.  The comparator is
    consistent when every message has a valid date, and when none has (it
    is then NaN, read as +0, throughout); for a consistent comparator the
    language fixes the result, the stable ascending order, which is what
    this insertion from the right computes.  On an array that mixes valid
    and invalid dates the comparator is not consistent and ECMAScript leaves
    the order to the engine: all that is known of the result is that it is a
    permutation of the array, and the insertion stands for one such order.
    The properties below name the sorted order only for arrays on which the
    language fixes it. *)
Definition sortMessages (messages : list Message.t) : list Message.t :=
  fold_right insertMessage [] messages.

(** [message.text || message.body || message.content || ''] *)
Definition messageContent (m : Message.t) : string :=
  match strOr (Message.text m) (strOr (Message.body m) (Message.content m)) with
  | Some s => s
  | None => EmptyString
  end.

Definition messageTag (m : Message.t) : string :=
  match Message.from m with
  | Some f => if String.eqb f "agent" then "AGENT" else "USER"
  | None => "USER"
  end.

Definition isTech (m : Message.t) : bool :=
  match Message.type m with
  | Some ty => String.eqb ty "tech"
  | None => false
  end.

(** One iteration of the [for (const message of messages)] loop.  The
    [timestamp] computed at its top is never read. *)
Definition appendMessage (conversationText : string) (message : Message.t) : string :=
  if isTech message then conversationText
  else
    let trimmed := trim (messageContent message) in
    if String.eqb trimmed EmptyString then conversationText
    else conversationText +:+ "[" +:+ messageTag message +:+ "] " +:+ trimmed +:+ nl.

Definition formatConversationMetadata (conversation : Conversation.t) : ExportedChat.t :=
  {| ExportedChat.chatId := idToString (Conversation.id conversation);
     ExportedChat.organizationId := organizationId cfg;
     ExportedChat.createdAt :=
       jsOr (Conversation.created_at conversation)
            (jsOr (Conversation.createdAt conversation) JNull);
     ExportedChat.updatedAt :=
       jsOr (Conversation.updated_at conversation)
            (jsOr (Conversation.updatedAt conversation) JNull);
     ExportedChat.status := Conversation.status conversation;
     ExportedChat.customerEmail :=
       strOr (match Conversation.customer conversation with
              | Some c => email c | None => None end) None;
     ExportedChat.customerName :=
       strOr (match Conversation.customer conversation with
              | Some c => customerName c | None => None end) None;
     ExportedChat.assignedAgent :=
       strOr (nameOf (Conversation.assigned_agent conversation))
             (strOr (nameOf (Conversation.assignee conversation)) None);
     ExportedChat.department :=
       strOr (nameOf (Conversation.department conversation)) None;
     ExportedChat.messageCount := 0;
     ExportedChat.conversationText := EmptyString;
     ExportedChat.hasMessages := false |}.

(** [formatConversationWithMessages(conversation, messages)], where
    [messages] is a reference to an array of the heap.  The result is the
    heap after the call and the exported chat; [None] when the reference
    does not name an array. *)
Definition formatConversationWithMessages
    (h : gmap loc (list Message.t)) (conversation : Conversation.t) (messages : loc)
    : option (gmap loc (list Message.t) * ExportedChat.t) :=
  match h !! messages with
  | None => None
  | Some arr =>
      if length arr =? 0 then Some (h, formatConversationMetadata conversation)
      else
        let sorted := sortMessages arr in
        let h' := <[messages := sorted]> h in
        let conversationText := fold_left appendMessage sorted EmptyString in
        Some (h',
          {| ExportedChat.chatId := idToString (Conversation.id conversation);
             ExportedChat.organizationId := organizationId cfg;
             ExportedChat.createdAt :=
               jsOr (Conversation.created_at conversation)
                    (jsOr (Conversation.createdAt conversation) JNull);
             ExportedChat.updatedAt :=
               jsOr (Conversation.updated_at conversation)
                    (jsOr (Conversation.updatedAt conversation) JNull);
             ExportedChat.status := Conversation.status conversation;
             ExportedChat.customerEmail :=
               strOr (match Conversation.customer conversation with
                      | Some c => email c | None => None end) None;
             ExportedChat.customerName :=
               strOr (match Conversation.customer conversation with
                      | Some c => customerName c | None => None end) None;
             ExportedChat.assignedAgent :=
               strOr (nameOf (Conversation.assigned_agent conversation))
                     (strOr (nameOf (Conversation.assignee conversation)) None);
             ExportedChat.department :=
               strOr (nameOf (Conversation.department conversation)) None;
             ExportedChat.messageCount := length arr;
             ExportedChat.conversationText := trim conversationText;
             ExportedChat.hasMessages := true |})
  end.

End Formatter.

(** ** Department filter *)

(** [conversation.department = { name: d }] *)
Definition withDepartment (conversation : Conversation.t) (d : string) : Conversation.t :=
  Conversation.mk
    (Conversation.id conversation)
    (Conversation.created_at conversation) (Conversation.createdAt conversation)
    (Conversation.updated_at conversation) (Conversation.updatedAt conversation)
    (Conversation.status conversation) (Conversation.customer conversation)
    (Conversation.assignee conversation) (Conversation.assigned_agent conversation)
    (Some {| name := Some d |})
    (Conversation.messages conversation).

(** The first statement of the filter callback: the department backfill. *)
Definition backfillDepartment (conversation : Conversation.t) : Conversation.t :=
  match Conversation.department conversation with
  | Some _ => conversation
  | None =>
      match Conversation.assignee conversation, Conversation.assigned_agent conversation with
      | None, None => conversation
      | _, _ =>
          let assigneeName :=
            strOr (nameOf (Conversation.assignee conversation))
                  (nameOf (Conversation.assigned_agent conversation)) in
          match assigneeName with
          | Some n => if String.eqb n "Squid Team" then withDepartment conversation "SQUID"
                      else withDepartment conversation "OSL"
          | None => withDepartment conversation "OSL"
          end
      end
  end.

(** The value the filter callback returns, on the conversation as
    backfilled. *)
Definition keepForDepartment (cfg : Config) (conversation : Conversation.t) : bool :=
  match departmentFilter cfg with
  | Some f =>
      if String.eqb f EmptyString then true
      else match nameOf (Conversation.department conversation) with
           | Some d => String.eqb d f
           | None => false
           end
  | None => true
  end.

(** [filterConversationsByDepartment(conversations)]: the conversations of
    the caller's array after the call (the callback mutates them), and the
    array returned. *)
Definition filterConversationsByDepartment (cfg : Config) (conversations : list Conversation.t)
    : list Conversation.t * list Conversation.t :=
  let mutated := map backfillDepartment conversations in
  (mutated, List.filter (keepForDepartment cfg) mutated).

(** ** Message fetcher *)

(** A property of a response body: absent or falsy, an array, or some other
    truthy value. *)
Inductive JsField : Type :=
| FAbsent
| FArray (items : list Message.t)
| FOther.

(** The body of a response ([response.data]); a [lastMessageText] property
    only changes what is logged. *)
Record Body : Type := { data : JsField; messages : JsField }.

(** The outcome of [this.api.get(endpoint)]: the call throws, or returns a
    response whose body may be empty. *)
Inductive Response : Type :=
| Failed
| Ok (body : option Body).

Definition possibleEndpoints (chatId : string) : list string :=
  [ "/v1/chats/" +:+ chatId +:+ "/messages";
    "/chats/" +:+ chatId +:+ "/messages";
    "/v1/conversations/" +:+ chatId +:+ "/messages";
    "/conversations/" +:+ chatId +:+ "/messages";
    "/v1/chats/" +:+ chatId ].

(** The [for (const endpoint of possibleEndpoints)] loop. *)
Fixpoint tryEndpoints (api : string -> Response) (endpoints : list string) : list Message.t :=
  match endpoints with
  | [] => []
  | endpoint :: rest =>
      match api endpoint with
      | Failed => tryEndpoints api rest
      | Ok None => tryEndpoints api rest
      | Ok (Some b) =>
          match data b with
          | FArray items => firstn 100 items
          | _ =>
              match messages b with
              | FArray items => firstn 100 items
              | _ => tryEndpoints api rest
              end
          end
      end
  end.

Definition getChatMessages (api : string -> Response) (chatId : JsId) : list Message.t :=
  tryEndpoints api (possibleEndpoints (idToString chatId)).

(** ** parseInt *)

Definition digitValue (c : ascii) : option Z :=
  let n := codeOf c in
  if (48 <=? n) && (n <=? 57) then Some (Z.of_nat (n - 48))
  else if (97 <=? n) && (n <=? 122) then Some (Z.of_nat (n - 87))
  else if (65 <=? n) && (n <=? 90) then Some (Z.of_nat (n - 55))
  else None.

(** The longest prefix of digits of the radix; [None] when it is empty. *)
Fixpoint parseDigits (radix : Z) (acc : option Z) (s : string) : option Z :=
  match s with
  | EmptyString => acc
  | String c rest =>
      match digitValue c with
      | Some d =>
          if (d <? radix)%Z
          then parseDigits radix
                 (Some (match acc with Some a => a * radix + d | None => d end)%Z) rest
          else acc
      | None => acc
      end
  end.

Definition stripHexPrefix (s : string) : option string :=
  match s with
  | String "0" (String x rest) =>
      if Ascii.eqb x "x" || Ascii.eqb x "X" then Some rest else None
  | _ => None
  end.

Definition parseUnsigned (s : string) : option Z :=
  match stripHexPrefix s with
  | Some rest => parseDigits 16 None rest
  | None => parseDigits 10 None s
  end.

(** [parseInt(s)] on a string, without a radix argument; [None] is NaN. *)
Definition parseIntString (s : string) : option Z :=
  match trimStart s with
  | String "-" rest => option_map Z.opp (parseUnsigned rest)
  | String "+" rest => parseUnsigned rest
  | t => parseUnsigned t
  end.

(** [parseInt(v)]: the argument is converted to a string first.  A safe
    integer prints in plain decimal, so it parses to itself; a Number of
    10^21 or more prints in exponent form and [parseInt] reads its leading
    digit only, which the model does not follow. *)
Definition parseInt (v : JsVal) : option Z :=
  match v with
  | JUndefined | JNull => None
  | JNum z => Some z
  | JStr s => parseIntString s
  end.

(** ** String.prototype.replace with a string pattern *)

Fixpoint dropChars (n : nat) (s : string) : string :=
  match n, s with
  | S k, String _ rest => dropChars k rest
  | _, _ => s
  end.

(** [s.replace(pattern, replacement)]: the first occurrence only. *)
Fixpoint replaceFirst (pattern replacement s : string) : string :=
  if String.prefix pattern s
  then replacement +:+ dropChars (String.length pattern) s
  else match s with
       | EmptyString => EmptyString
       | String c rest => String c (replaceFirst pattern replacement rest)
       end.

(** [s.includes(pattern)] *)
Fixpoint includes (pattern s : string) : bool :=
  String.prefix pattern s ||
  match s with
  | EmptyString => false
  | String _ rest => includes pattern rest
  end.

(** ** Cache and output documents *)

(** The cache document; its two wall-clock fields are left out. *)
Record Cache : Type := {
  chats : list ExportedChat.t;
  lastProcessedBatch : nat;
  totalBatches : nat
}.

(** The [output] object, without [exportedAt] and the three fields copied
    from [this]. *)
Record Output : Type := {
  totalConversationsFound : nat;
  totalConversationsAfterFiltering : nat;
  newChatsProcessed : nat;
  totalExportedChats : nat;
  outputChats : list ExportedChat.t
}.

(** ** CSV summary *)

(** The double quote and the comma, as strings. *)
Definition dq : string := String (ascii_of_nat 34) EmptyString.
Definition comma : string := String (ascii_of_nat 44) EmptyString.

(** The global [replace] of the escaping: every double quote becomes two. *)
Fixpoint doubleQuotes (s : string) : string :=
  match s with
  | EmptyString => EmptyString
  | String c rest =>
      if Ascii.eqb c (ascii_of_nat 34)
      then String c (String c (doubleQuotes rest))
      else String c (doubleQuotes rest)
  end.

(** The template that wraps an escaped value in quotes. *)
Definition quoteField (s : string) : string := dq +:+ doubleQuotes s +:+ dq.

(** [s.substring(0, n)] *)
Fixpoint takeChars (n : nat) (s : string) : string :=
  match n, s with
  | S k, String c rest => String c (takeChars k rest)
  | _, _ => EmptyString
  end.

(** [s.split('\n')] *)
Fixpoint splitLines (s : string) : list string :=
  match s with
  | EmptyString => [EmptyString]
  | String c rest =>
      if Ascii.eqb c (ascii_of_nat 10) then EmptyString :: splitLines rest
      else match splitLines rest with
           | line :: lines => String c line :: lines
           | [] => [String c EmptyString]
           end
  end.

(** [s.replace(/\[USER\]|\[AGENT\]/g, '')]: scanning from the left, every
    occurrence of one of the two tags is dropped.  [skip] counts the code
    units of the tag being dropped that are still to pass. *)
Fixpoint stripTags (skip : nat) (s : string) : string :=
  match s with
  | EmptyString => EmptyString
  | String c rest =>
      match skip with
      | S k => stripTags k rest
      | O =>
          if String.prefix "[USER]" s then stripTags 5 rest
          else if String.prefix "[AGENT]" s then stripTags 6 rest
          else String c (stripTags 0 rest)
      end
  end.

(** The decimal text of a number and of a count. *)
Definition numberToString (z : Z) : string := NilZero.string_of_int (Z.to_int z).
Definition countToString (n : nat) : string := NilZero.string_of_uint (Nat.to_uint n).

(** [s.padStart(width, '0')] *)
Definition padZeros (width : nat) (s : string) : string :=
  String.concat EmptyString (repeat "0" (width - String.length s)) +:+ s.

(** The calendar of ECMAScript: [DayFromYear], [YearFromTime] on a day
    number (the largest year that starts on or before the day),
    [InLeapYear], and [MonthFromTime] with [DateFromTime] on the day within
    the year. *)
Definition dayFromYear (y : Z) : Z :=
  (365 * (y - 1970) + (y - 1969) / 4 - (y - 1901) / 100 + (y - 1601) / 400)%Z.

Definition yearFromDay (day : Z) : Z :=
  let y := (1970 + day * 400 / 146097)%Z in
  if (dayFromYear (y + 1) <=? day)%Z then (y + 1)%Z
  else if (dayFromYear y <=? day)%Z then y
  else (y - 1)%Z.

Definition leapDays (y : Z) : Z := (dayFromYear (y + 1) - dayFromYear y - 365)%Z.

Definition monthAndDate (d leap : Z) : Z * Z :=
  if (d <? 31)%Z then (1, d + 1)%Z
  else if (d <? 59 + leap)%Z then (2, d - 30)%Z
  else if (d <? 90 + leap)%Z then (3, d - 58 - leap)%Z
  else if (d <? 120 + leap)%Z then (4, d - 89 - leap)%Z
  else if (d <? 151 + leap)%Z then (5, d - 119 - leap)%Z
  else if (d <? 181 + leap)%Z then (6, d - 150 - leap)%Z
  else if (d <? 212 + leap)%Z then (7, d - 180 - leap)%Z
  else if (d <? 243 + leap)%Z then (8, d - 211 - leap)%Z
  else if (d <? 273 + leap)%Z then (9, d - 242 - leap)%Z
  else if (d <? 304 + leap)%Z then (10, d - 272 - leap)%Z
  else if (d <? 334 + leap)%Z then (11, d - 303 - leap)%Z
  else (12, d - 333 - leap)%Z.

(** [new Date(ms).toISOString().split('T')[0]] for a valid time value: the
    year on four digits, or signed on six outside 0..9999, then month and
    day on two. *)
Definition isoDate (ms : Z) : string :=
  let day := (ms / 86400000)%Z in
  let y := yearFromDay day in
  let (month, date) := monthAndDate (day - dayFromYear y) (leapDays y) in
  let yearText :=
    if ((0 <=? y) && (y <=? 9999))%Z then padZeros 4 (numberToString y)
    else (if (y <? 0)%Z then "-" else "+") +:+ padZeros 6 (numberToString (Z.abs y)) in
  yearText +:+ "-" +:+ padZeros 2 (numberToString month)
           +:+ "-" +:+ padZeros 2 (numberToString date).

(** [x || ''] for a value that is a string or [null], which is also how
    [join] prints it. *)
Definition orEmpty (o : option string) : string :=
  match o with
  | Some s => s
  | None => EmptyString
  end.

(** How [Array.prototype.join] prints a scalar: nothing for [undefined]
    and [null]. *)
Definition joinText (v : JsVal) : string :=
  match v with
  | JUndefined | JNull => EmptyString
  | JNum z => numberToString z
  | JStr s => s
  end.

(** The Created Date column; [None] when [toISOString] throws a RangeError
    on an invalid date. *)
Definition csvDate (chat : ExportedChat.t) : option string :=
  match parseInt (ExportedChat.createdAt chat) with
  | Some seconds =>
      if (Z.abs (seconds * 1000) <=? 8640000000000000)%Z
      then Some (isoDate (seconds * 1000))
      else None
  | None => None
  end.

(** The non-blank lines of the transcript. *)
Definition csvMessages (chat : ExportedChat.t) : list string :=
  List.filter (fun line => negb (String.eqb (trim line) EmptyString))
              (splitLines (ExportedChat.conversationText chat)).

Definition firstUserMessage (chat : ExportedChat.t) : string :=
  match List.find (String.prefix "[USER]") (csvMessages chat) with
  | Some line => trim (replaceFirst "[USER]" EmptyString line)
  | None => EmptyString
  end.

Definition lastAgentResponse (chat : ExportedChat.t) : string :=
  match List.filter (String.prefix "[AGENT]") (csvMessages chat) with
  | [] => EmptyString
  | line :: lines => trim (replaceFirst "[AGENT]" EmptyString (List.last lines line))
  end.

(** The summary column before escaping. *)
Definition csvSummary (chat : ExportedChat.t) : string :=
  takeChars 200 (trim (stripTags 0 (ExportedChat.conversationText chat))).

(** The twelve values of a row as [join] sees them, given the date. *)
Definition csvFields (date : string) (chat : ExportedChat.t) : list string :=
  [ ExportedChat.chatId chat;
    date;
    joinText (ExportedChat.status chat);
    quoteField (orEmpty (ExportedChat.customerName chat));
    quoteField (orEmpty (ExportedChat.customerEmail chat));
    quoteField (orEmpty (ExportedChat.assignedAgent chat));
    orEmpty (ExportedChat.department chat);
    countToString (ExportedChat.messageCount chat);
    orEmpty (categorizeConversation (ExportedChat.conversationText chat)
               (ExportedChat.assignedAgent chat) (ExportedChat.customerName chat));
    quoteField (takeChars 100 (firstUserMessage chat));
    quoteField (takeChars 100 (lastAgentResponse chat));
    quoteField (csvSummary chat) ].

(** One row of the summary; [None] when building it throws. *)
Definition csvRow (chat : ExportedChat.t) : option string :=
  match csvDate chat with
  | Some date => Some (String.concat comma (csvFields date chat))
  | None => None
  end.

Definition csvHeader : string :=
  String.concat comma
    [ "Chat ID"; "Created Date"; "Status"; "Customer Name"; "Customer Email";
      "Assigned Agent"; "Department"; "Message Count"; "Category";
      "First User Message"; "Last Agent Response"; "Conversation Summary" ].

(** The loop over [exportData.chats]: the rows so far, or [None] once a row
    has thrown. *)
Fixpoint csvRows (chatList : list ExportedChat.t) : option (list string) :=
  match chatList with
  | [] => Some []
  | chat :: rest =>
      match csvRow chat with
      | Some row =>
          match csvRows rest with
          | Some rows => Some (row :: rows)
          | None => None
          end
      | None => None
      end
  end.

(** [generateCSVSummary(exportData)]; [None] when it throws. *)
Definition generateCSVSummary (exportData : Output) : option string :=
  match csvRows (outputChats exportData) with
  | Some rows => Some (String.concat nl (csvHeader :: rows))
  | None => None
  end.

(** ** The run of an export *)

(** What a file holds after [fs.writeFile]: the JSON text of an output
    object, the JSON text of the cache document, or the text of the CSV
    summary. *)
Inductive FileContent : Type :=
| JsonOf (o : Output)
| CacheOf (c : Cache)
| CsvText (s : string).

(** The state a run leaves behind: the heap, the cache in memory, the
    caches passed to [saveCache] in order, the files, the output object
    written to the output file if one was, and whether the run ended in the
    [catch] block, which exits with status 1. *)
Record Run : Type := {
  runHeap : gmap loc (list Message.t);
  runCache : Cache;
  runSaved : list Cache;
  runFiles : gmap string FileContent;
  runOutput : option Output;
  runFailed : bool
}.

(** [cache.chats.some(chat => chat.chatId === conversationId.toString())] *)
Definition isConversationCached (cache : Cache) (conversationId : JsId) : bool :=
  existsb (fun chat => String.eqb (ExportedChat.chatId chat) (idToString conversationId))
          (chats cache).

(** The conversations of [filteredConversations] that are not in the cache. *)
Definition uncachedOf (cache : Cache) (filteredConversations : list Conversation.t)
    : list Conversation.t :=
  List.filter (fun conversation =>
                 negb (isConversationCached cache (Conversation.id conversation)))
              filteredConversations.

Section Exporter.

Variable dateParse : string -> option Z.
Variable cfg : Config.
Variable api : string -> Response.

(** [processConversation(conversation)]: the heap afterwards and the
    exported chat, or [None] for [null].  A conversation always has its
    [id] key, so [Object.keys(conversation).length > 0] holds; the [catch]
    branch is the one where formatting fails.  The array [getChatMessages]
    returns is a new one ([slice]), stored at a fresh location. *)
Definition processConversation
    (h : gmap loc (list Message.t)) (conversation : Conversation.t)
    : gmap loc (list Message.t) * option ExportedChat.t :=
  match Conversation.messages conversation with
  | Some r =>
      match formatConversationWithMessages dateParse cfg h conversation r with
      | Some (h', chat) => (h', Some chat)
      | None => (h, None)
      end
  | None =>
      let fetched := getChatMessages api (Conversation.id conversation) in
      if 0 <? length fetched then
        let r := fresh (dom h) in
        let h1 := <[r := fetched]> h in
        match formatConversationWithMessages dateParse cfg h1 conversation r with
        | Some (h', chat) => (h', Some chat)
        | None => (h1, None)
        end
      else (h, Some (formatConversationMetadata cfg conversation))
  end.

(** The inner loop over one batch: heap and [batchResults]. *)
Definition processBatch (h : gmap loc (list Message.t)) (batch : list Conversation.t)
    : gmap loc (list Message.t) * list ExportedChat.t :=
  fold_left
    (fun st conversation =>
       match processConversation (fst st) conversation with
       | (h', Some chat) => (h', snd st ++ [chat])
       | (h', None) => (h', snd st)
       end)
    batch (h, []).

(** Conversations processed before the cache is saved. *)
Definition batchSize : nat := 10.

(** [Math.ceil(n / batchSize)] *)
Definition batchCount (n : nat) : nat := (n + (batchSize - 1)) / batchSize.

(** The state of the batch loop. *)
Record Loop : Type := {
  loopHeap : gmap loc (list Message.t);
  loopCache : Cache;
  loopSaved : list Cache;
  loopFiles : gmap string FileContent;
  newChatsCount : nat
}.

(** [saveCache(cache)]: the cache file is rewritten with the document.  A
    write that fails is caught and logged there, and the run goes on; the
    model has the write succeed. *)
Definition saveCache (files : gmap string FileContent) (cache : Cache)
    : gmap string FileContent :=
  <[cacheFile cfg := CacheOf cache]> files.

(** One iteration of [for (let i = 0; i < n; i += batchSize)], at
    [i = batchSize * k]. *)
Definition batchStep (uncached : list Conversation.t) (st : Loop) (k : nat) : Loop :=
  let i := batchSize * k in
  let batch := firstn batchSize (skipn i uncached) in
  let (h', batchResults) := processBatch (loopHeap st) batch in
  if 0 <? length batchResults then
    let cache' := {| chats := chats (loopCache st) ++ batchResults;
                     lastProcessedBatch := i / batchSize + 1;
                     totalBatches := batchCount (length uncached) |} in
    {| loopHeap := h'; loopCache := cache';
       loopSaved := loopSaved st ++ [cache'];
       loopFiles := saveCache (loopFiles st) cache';
       newChatsCount := newChatsCount st + length batchResults |}
  else
    {| loopHeap := h'; loopCache := loopCache st;
       loopSaved := loopSaved st;
       loopFiles := loopFiles st;
       newChatsCount := newChatsCount st |}.

(** The whole loop: [i] takes the multiples of [batchSize] below the
    number of uncached conversations. *)
Definition batchLoop (uncached : list Conversation.t) (st : Loop) : Loop :=
  fold_left (batchStep uncached) (seq 0 (batchCount (length uncached))) st.

(** The predicate of the final date filter:
    [parseInt(chat.createdAt) >= new Date(this.fromDate).getTime() / 1000]. *)
Definition onOrAfterFromDate (chat : ExportedChat.t) : bool :=
  match parseInt (ExportedChat.createdAt chat), dateParse (fromDate cfg) with
  | Some seconds, Some ms => (ms <=? seconds * 1000)%Z
  | _, _ => false
  end.

(** [export()], from the cache [loadCache] returned and the list
    [getConversations] returned.  After the output file is written,
    [generateCSVSummary] may throw; the run then ends in the [catch] block
    with the output file in place and no CSV summary written. *)
Definition export
    (h : gmap loc (list Message.t)) (files : gmap string FileContent)
    (cache : Cache) (conversations : list Conversation.t) : Run :=
  let untouched :=
    {| runHeap := h; runCache := cache; runSaved := []; runFiles := files;
       runOutput := None; runFailed := false |} in
  if length conversations =? 0 then untouched
  else
    let filteredConversations := snd (filterConversationsByDepartment cfg conversations) in
    if length filteredConversations =? 0 then untouched
    else
      let uncachedConversations := uncachedOf cache filteredConversations in
      if length uncachedConversations =? 0 then
        let output :=
          {| totalConversationsFound := length conversations;
             totalConversationsAfterFiltering := length filteredConversations;
             newChatsProcessed := 0;
             totalExportedChats := length (chats cache);
             outputChats := chats cache |} in
        {| runHeap := h; runCache := cache; runSaved := [];
           runFiles := <[outputFile cfg := JsonOf output]> files;
           runOutput := Some output; runFailed := false |}
      else
        let st := batchLoop uncachedConversations
                    {| loopHeap := h; loopCache := cache; loopSaved := [];
                       loopFiles := files; newChatsCount := 0 |} in
        let filteredCachedChats := List.filter onOrAfterFromDate (chats (loopCache st)) in
        let output :=
          {| totalConversationsFound := length conversations;
             totalConversationsAfterFiltering := length filteredConversations;
             newChatsProcessed := newChatsCount st;
             totalExportedChats := length filteredCachedChats;
             outputChats := filteredCachedChats |} in
        let written := <[outputFile cfg := JsonOf output]> (loopFiles st) in
        match generateCSVSummary output with
        | Some csvContent =>
            let csvFileName := replaceFirst ".json" "_summary.csv" (outputFile cfg) in
            {| runHeap := loopHeap st; runCache := loopCache st; runSaved := loopSaved st;
               runFiles := <[csvFileName := CsvText csvContent]> written;
               runOutput := Some output; runFailed := false |}
        | None =>
            {| runHeap := loopHeap st; runCache := loopCache st; runSaved := loopSaved st;
               runFiles := written;
               runOutput := Some output; runFailed := true |}
        end.

(** The call in [generateCSVSummary] that fills the Category column. *)
Definition csvCategory (chat : ExportedChat.t) : option string :=
  categorizeConversation
    (ExportedChat.conversationText chat)
    (ExportedChat.assignedAgent chat)
    (ExportedChat.customerName chat).

End Exporter.

(** ** Cache merge *)

(** [mergeWithCache(cachedChats, newChats)]; [existingIds] is the [Set] of
    the cached chat ids. *)
Definition mergeWithCache (cachedChats newChats : list ExportedChat.t)
    : list ExportedChat.t :=
  let existingIds : gset string :=
    list_to_set (map ExportedChat.chatId cachedChats) in
  let uniqueNewChats :=
    List.filter (fun chat => negb (bool_decide (ExportedChat.chatId chat ∈ existingIds)))
                newChats in
  cachedChats ++ uniqueNewChats.

(** ** Conversation fetcher *)

(** The body of a list response: [data] when it holds an array, and
    [meta.total] when it holds a number. *)
Record ListBody : Type := {
  listData : option (list Conversation.t);
  listTotal : option Z
}.

(** The outcome of the GET on the list endpoint at one offset. *)
Inductive ListResponse : Type :=
| ListFailed
| ListOk (body : option ListBody).

(** What [getConversations] ends with: it rethrows an error, it returns the
    conversations, or the model has no steps left. *)
Inductive FetchResult : Type :=
| FetchThrew
| FetchOutOfFuel
| Fetched (conversations : list Conversation.t).

Section Fetcher.

(** [Date.parse] on strings, in milliseconds; [None] is NaN. *)
Variable dateParse : string -> option Z.
(** The time value of [new Date(s * 1000)] for a string [s]; [None] is an
    invalid date. *)
Variable dateOfSeconds : string -> option Z.
Variable cfg : Config.
(** The list endpoint, by the [offset] of the request ([limit] is 100). *)
Variable listApi : nat -> ListResponse.

(** The time value of [new Date(v * 1000)]. *)
Definition dateOfUnix (v : JsVal) : option Z :=
  match v with
  | JUndefined => None
  | JNull => Some 0%Z
  | JNum z => if (Z.abs (z * 1000) <=? 8640000000000000)%Z then Some (z * 1000)%Z else None
  | JStr s => dateOfSeconds s
  end.

(** The callback of the date filter:
    [new Date(conversation.createdAt * 1000) >= new Date(this.fromDate)]. *)
Definition createdOnOrAfter (conversation : Conversation.t) : bool :=
  match dateOfUnix (Conversation.createdAt conversation), dateParse (fromDate cfg) with
  | Some created, Some from => (from <=? created)%Z
  | _, _ => false
  end.

(** The two log lines at the top of a page call [toISOString] on the dates
    of [data.data[0]?.createdAt] and of the last element; it throws a
    RangeError on an invalid date, as it does for the [undefined] an empty
    page yields. *)
Definition pageDatesPrintable (items : list Conversation.t) : bool :=
  match items with
  | [] => false
  | first :: _ =>
      match dateOfUnix (Conversation.createdAt first),
            dateOfUnix (Conversation.createdAt (List.last items first)) with
      | Some _, Some _ => true
      | _, _ => false
      end
  end.

Definition pageLimit : nat := 100.

(** The [while (hasMore)] loop, with the number of requests bounded by
    [fuel]. *)
Fixpoint fetchPages (fuel : nat) (offset : nat) (conversations : list Conversation.t)
    : FetchResult :=
  match fuel with
  | O => FetchOutOfFuel
  | S fuel' =>
      match listApi offset with
      | ListFailed => FetchThrew
      | ListOk None => Fetched conversations
      | ListOk (Some body) =>
          match listData body with
          | None => Fetched conversations
          | Some items =>
              if pageDatesPrintable items then
                let conversations' :=
                  conversations ++ List.filter createdOnOrAfter items in
                match listTotal body with
                | Some total =>
                    if (Z.of_nat (offset + pageLimit) <? total)%Z
                    then fetchPages fuel' (offset + pageLimit) conversations'
                    else Fetched conversations'
                | None => Fetched conversations'
                end
              else FetchThrew
          end
      end
  end.

Definition getConversations (fuel : nat) : FetchResult := fetchPages fuel 0 [].

End Fetcher.

(** ** Constructor *)

(** The fields the constructor sets: those of [Config], and the API key
    that goes into the headers of the requests. *)
Record Exporter : Type := {
  exporterConfig : Config;
  apiKey : string
}.

(** [process.env.NAME || fallback]: an unset or empty variable gives the
    fallback. *)
Definition envOr (env : gmap string string) (variable fallback : string) : string :=
  match env !! variable with
  | Some value => if String.eqb value EmptyString then fallback else value
  | None => fallback
  end.

(** [new HelpCrunchExporter()], from the environment; [None] when it
    throws for a missing variable. *)
Definition newExporter (env : gmap string string) : option Exporter :=
  let key := envOr env "HELPCRUNCH_API_KEY" EmptyString in
  let organization := envOr env "HELPCRUNCH_ORGANIZATION_ID" EmptyString in
  if String.eqb key EmptyString || String.eqb organization EmptyString then None
  else
    Some {| exporterConfig :=
              {| organizationId := organization;
                 fromDate := envOr env "FROM_DATE" "2024-01-01";
                 outputFile := envOr env "OUTPUT_FILE" "exported_chats.json";
                 cacheFile := envOr env "CACHE_FILE" "chat_cache.json";
                 departmentFilter := env !! "HELPCRUNCH_ORGANIZATION_ID" |};
            apiKey := key |}.

(** * Vocabulary of the properties *)

(** The characters a regular expression does not read literally. *)
Definition isMetaChar (c : ascii) : bool :=
  existsb (Ascii.eqb c) (list_ascii_of_string "\^$.|?*+()[]{}/").

(** The array a response is accepted for: the one under [data] when that
    property holds an array, otherwise the one under [messages]. *)
Definition arrayOf (r : Response) : option (list Message.t) :=
  match r with
  | Ok (Some b) =>
      match data b, messages b with
      | FArray items, _ => Some items
      | _, FArray items => Some items
      | _, _ => None
      end
  | _ => None
  end.

(** The fetcher as the specification words it: a candidate is accepted only
    for a non-empty array, and an empty one sends the probe on. *)
Definition nonEmptyArrayOf (r : Response) : option (list Message.t) :=
  match r with
  | Ok (Some b) =>
      match data b, messages b with
      | FArray (m :: items), _ => Some (m :: items)
      | _, FArray (m :: items) => Some (m :: items)
      | _, _ => None
      end
  | _ => None
  end.

(** The probe over the candidates with that acceptance test. *)
Fixpoint getChatMessagesAsSpecified (api : string -> Response) (endpoints : list string)
    : list Message.t :=
  match endpoints with
  | [] => []
  | endpoint :: rest =>
      match nonEmptyArrayOf (api endpoint) with
      | Some items => firstn 100 items
      | None => getChatMessagesAsSpecified api rest
      end
  end.

(** The filter is unset: [this.departmentFilter] is falsy. *)
Definition filterUnset (cfg : Config) : Prop :=
  departmentFilter cfg = None \/ departmentFilter cfg = Some EmptyString.

(** The conversations the filter is meant to keep. *)
Definition inDepartment (cfg : Config) (conversation : Conversation.t) : Prop :=
  filterUnset cfg \/
  nameOf (Conversation.department conversation) = departmentFilter cfg.

(** The assignee name the backfill inspects:
    [conversation.assignee?.name || conversation.assigned_agent?.name]. *)
Definition assigneeNameOf (conversation : Conversation.t) : option string :=
  strOr (nameOf (Conversation.assignee conversation))
        (nameOf (Conversation.assigned_agent conversation)).

(** The guard of the backfill: [conversation.assignee ||
    conversation.assigned_agent]. *)
Definition hasAssignee (conversation : Conversation.t) : Prop :=
  Conversation.assignee conversation <> None \/
  Conversation.assigned_agent conversation <> None.

(** The tag as the specification words it. *)
Definition tagOf (m : Message.t) : string :=
  if decide (Message.from m = Some "agent") then "AGENT" else "USER".

(** ['[TAG] trimmed-body\n'] *)
Definition taggedLine (m : Message.t) : string :=
  "[" +:+ tagOf m +:+ "] " +:+ trim (messageContent m) +:+ nl.

(** A message that contributes a line: not of type 'tech', and with a
    body that is not empty once trimmed. *)
Definition hasContent (m : Message.t) : bool :=
  negb (isTech m) && negb (String.eqb (trim (messageContent m)) EmptyString).

(** The lines of the contributing messages, one after the other. *)
Definition transcriptOf (messages : list Message.t) : string :=
  fold_right (fun m rest => taggedLine m +:+ rest) EmptyString (List.filter hasContent messages).

(** [a] is not later than [b], for messages with valid dates. *)
Definition timeLe (dateParse : string -> option Z) (a b : Message.t) : Prop :=
  exists ta tb,
    messageTime dateParse a = Some ta /\ messageTime dateParse b = Some tb /\ (ta <= tb)%Z.

(** The message has a valid date. *)
Definition hasTime (dateParse : string -> option Z) (m : Message.t) : Prop :=
  messageTime dateParse m <> None.

(** The chat ids of [cache.chats], in order. *)
Definition chatIds (cache : Cache) : list string :=
  map ExportedChat.chatId (chats cache).

(** [conversation.id.toString()], the chat id a conversation is cached
    under. *)
Definition idOf (conversation : Conversation.t) : string :=
  idToString (Conversation.id conversation).

(** The cache is the loaded one, [cache0], followed by chats of the first
    [i] uncached conversations. *)
Definition extends (cache0 : Cache) (uncached : list Conversation.t)
    (i : nat) (cache : Cache) : Prop :=
  exists added,
    chats cache = chats cache0 ++ added /\
    map ExportedChat.chatId added `sublist_of` map idOf (firstn i uncached).

(** The invariant of the batch loop before the iteration at index [i]. *)
Definition loopInvariant (cache0 : Cache) (uncached : list Conversation.t)
    (i : nat) (st : Loop) : Prop :=
  extends cache0 uncached i (loopCache st) /\
  Forall (fun saved => NoDup (chatIds saved)) (loopSaved st).

(** [chat.chatId === i] *)
Definition hasChatId (i : string) (chat : ExportedChat.t) : bool :=
  String.eqb (ExportedChat.chatId chat) i.

(** The array under [data] of the page at [offset], empty when there is
    none. *)
Definition pageItems (listApi : nat -> ListResponse) (offset : nat) : list Conversation.t :=
  match listApi offset with
  | ListOk (Some body) =>
      match listData body with
      | Some items => items
      | None => []
      end
  | _ => []
  end.

(** The conversations of the first [pages] pages that pass the date filter,
    in the order of the API. *)
Definition keptOfPages (dateParse dateOfSeconds : string -> option Z) (cfg : Config)
    (listApi : nat -> ListResponse) (first pages : nat) : list Conversation.t :=
  flat_map (fun page =>
              List.filter (createdOnOrAfter dateParse dateOfSeconds cfg)
                          (pageItems listApi (pageLimit * page)))
           (seq first pages).

(** No page reports a total above [bound]. *)
Definition totalsBelow (listApi : nat -> ListResponse) (bound : Z) : Prop :=
  forall offset body total,
    listApi offset = ListOk (Some body) -> listTotal body = Some total ->
    (total <= bound)%Z.

(** The page at index [page] is a printable array and tells the loop to go
    on: its total exceeds the offset of the next page. *)
Definition pageContinues (dateOfSeconds : string -> option Z)
    (listApi : nat -> ListResponse) (page : nat) : Prop :=
  exists body items total,
    listApi (pageLimit * page) = ListOk (Some body) /\
    listData body = Some items /\
    pageDatesPrintable dateOfSeconds items = true /\
    listTotal body = Some total /\
    (Z.of_nat (pageLimit * page + pageLimit) < total)%Z.

(** The page at index [page] ends the loop without an error: the response
    holds no array under [data], or it holds a printable array and no total
    that exceeds the offset of the next page. *)
Definition pageEnds (dateOfSeconds : string -> option Z)
    (listApi : nat -> ListResponse) (page : nat) : Prop :=
  exists body,
    listApi (pageLimit * page) = ListOk body /\
    match body with
    | None => True
    | Some b =>
        match listData b with
        | None => True
        | Some items =>
            pageDatesPrintable dateOfSeconds items = true /\
            match listTotal b with
            | Some total => (total <= Z.of_nat (pageLimit * page + pageLimit))%Z
            | None => True
            end
        end
    end.

(** The request for the page at index [page] fails, or the page is an array
    whose first or last date cannot be printed, as for an empty array. *)
Definition pageBreaks (dateOfSeconds : string -> option Z)
    (listApi : nat -> ListResponse) (page : nat) : Prop :=
  listApi (pageLimit * page) = ListFailed \/
  exists body items,
    listApi (pageLimit * page) = ListOk (Some body) /\
    listData body = Some items /\
    pageDatesPrintable dateOfSeconds items = false.

(** Every array of [h] is still stored in [h'], with the same messages in
    some order. *)
Definition heapPreserved (h h' : gmap loc (list Message.t)) : Prop :=
  forall r l, h !! r = Some l -> exists l', h' !! r = Some l' /\ Permutation l l'.

(** The inline [messages] of the conversations are arrays of the heap. *)
Definition refsValid (h : gmap loc (list Message.t)) (conversations : list Conversation.t)
    : Prop :=
  forall conversation r,
    In conversation conversations ->
    Conversation.messages conversation = Some r -> is_Some (h !! r).

(** [saved] is a checkpoint of a run that has added [added] to the loaded
    cache [cache0]: it holds the loaded chats followed by a non-empty start
    of [added], and a batch number between 1 and the number of batches. *)
Definition checkpointOf (cache0 : Cache) (added : list ExportedChat.t) (batches : nat)
    (saved : Cache) : Prop :=
  (exists before after,
      added = before ++ after /\ before <> [] /\
      chats saved = chats cache0 ++ before) /\
  1 <= lastProcessedBatch saved <= totalBatches saved /\
  totalBatches saved = batches.

(** What the batch loop has done before the iteration at index [i]. *)
Definition loopFacts (h0 : gmap loc (list Message.t)) (cache0 : Cache)
    (uncached : list Conversation.t) (i : nat) (st : Loop) : Prop :=
  heapPreserved h0 (loopHeap st) /\
  exists added,
    chats (loopCache st) = chats cache0 ++ added /\
    newChatsCount st = length added /\
    length added <= length (firstn i uncached) /\
    (refsValid h0 uncached ->
     map ExportedChat.chatId added = map idOf (firstn i uncached)) /\
    Forall (checkpointOf cache0 added (batchCount (length uncached))) (loopSaved st) /\
    loopCache st = List.last (loopSaved st) cache0.

(** The comparator of the sort is consistent on the array, so that the
    language fixes the sorted order: every message has a valid date, or
    none has. *)
Definition datesComparable (dateParse : string -> option Z) (messages : list Message.t)
    : Prop :=
  Forall (hasTime dateParse) messages \/
  Forall (fun m => messageTime dateParse m = None) messages.

(** The message is not of type 'tech'. *)
Definition notTech (m : Message.t) : bool := negb (isTech m).

(** [Number.isSafeInteger]: an integer of at most 2^53 - 1 in magnitude. *)
Definition safeInteger (z : Z) : Prop := (Z.abs z <= 9007199254740991)%Z.

(** A scalar that is not a Number, or is a safe integer. *)
Definition safeNumber (v : JsVal) : Prop :=
  match v with
  | JNum z => safeInteger z
  | _ => True
  end.

(** An id that is a string, or a safe integer. *)
Definition safeId (i : JsId) : Prop :=
  match i with
  | IdNum z => safeInteger z
  | IdStr _ => True
  end.

(** The message has the sort key [key]: the time value of its date, or
    [None] for an invalid date. *)
Definition hasSortKey (dateParse : string -> option Z) (key : option Z) (m : Message.t)
    : bool :=
  bool_decide (messageTime dateParse m = key).

(** A reader of one CSV record, as RFC 4180 has it: fields are separated by
    commas; a field that starts with a double quote runs to the closing
    quote, two quotes inside standing for one; a field that does not start
    with a quote holds no quote and no line break. *)
Inductive CsvMode : Type :=
| AtStart
| InPlain
| InQuoted
| AfterQuote.

Definition isQuote (c : ascii) : bool := Ascii.eqb c (ascii_of_nat 34).
Definition isComma (c : ascii) : bool := Ascii.eqb c (ascii_of_nat 44).
Definition isBreak (c : ascii) : bool :=
  Ascii.eqb c (ascii_of_nat 10) || Ascii.eqb c (ascii_of_nat 13).

(** The fields of the record [s], read in mode [mode] with [current] the
    part of the field read so far; [None] for a malformed record. *)
Fixpoint parseCsv (mode : CsvMode) (current : string) (s : string) : option (list string) :=
  match s with
  | EmptyString =>
      match mode with
      | InQuoted => None
      | _ => Some [current]
      end
  | String c rest =>
      match mode with
      | AtStart =>
          if isQuote c then parseCsv InQuoted EmptyString rest
          else if isComma c then option_map (cons EmptyString) (parseCsv AtStart EmptyString rest)
          else if isBreak c then None
          else parseCsv InPlain (String c EmptyString) rest
      | InPlain =>
          if isComma c then option_map (cons current) (parseCsv AtStart EmptyString rest)
          else if isQuote c || isBreak c then None
          else parseCsv InPlain (current +:+ String c EmptyString) rest
      | InQuoted =>
          if isQuote c then parseCsv AfterQuote current rest
          else parseCsv InQuoted (current +:+ String c EmptyString) rest
      | AfterQuote =>
          if isQuote c then parseCsv InQuoted (current +:+ dq) rest
          else if isComma c then option_map (cons current) (parseCsv AtStart EmptyString rest)
          else None
      end
  end.

Definition parseCsvRow (s : string) : option (list string) :=
  parseCsv AtStart EmptyString s.

(** A text that can stand in a record without quotes: no comma, no double
    quote, no line break. *)
Fixpoint plainText (s : string) : bool :=
  match s with
  | EmptyString => true
  | String c rest => negb (isComma c || isQuote c || isBreak c) && plainText rest
  end.

(** The message is tagged AGENT. *)
Definition isAgentMessage (m : Message.t) : bool :=
  bool_decide (Message.from m = Some "agent").

(** The text holds no line feed. *)
Fixpoint noLineFeed (s : string) : bool :=
  match s with
  | EmptyString => true
  | String c rest => negb (Ascii.eqb c (ascii_of_nat 10)) && noLineFeed rest
  end.

(** The line of a message without the newline that ends it. *)
Definition lineText (m : Message.t) : string :=
  "[" +:+ tagOf m +:+ "] " +:+ trim (messageContent m).

(** * Concrete data *)

(** The two messages of the tagging example. *)
Definition hiHello : list Message.t :=
  [ Message.mk JUndefined JUndefined JUndefined (Some "customer") None (Some "hi") None None;
    Message.mk JUndefined JUndefined JUndefined (Some "agent") None (Some "hello") None None ].

(** [Date.parse] on the one date string of the runs below. *)
Definition exampleDates (s : string) : option Z :=
  if String.eqb s "2024-01-01" then Some 1704067200000%Z else None.

Definition exampleConfig : Config :=
  {| organizationId := "OSL"; fromDate := "2024-01-01";
     outputFile := "exported_chats.json"; cacheFile := "chat_cache.json";
     departmentFilter := Some "OSL" |}.

(** A remote API whose message endpoints all fail. *)
Definition apiDown (endpoint : string) : Response := Failed.

Definition emptyCache : Cache :=
  {| chats := []; lastProcessedBatch := 0; totalBatches := 0 |}.

Definition conversationWith (i : Z) (created : Z) (inline : option loc) : Conversation.t :=
  Conversation.mk (IdNum i) JUndefined (JNum created) JUndefined (JNum created)
    (JNum 2) None (Some {| name := Some "Ana" |}) None
    (Some {| name := Some "OSL" |}) inline.

Definition chatWith (i : string) (created : Z) : ExportedChat.t :=
  ExportedChat.mk i "OSL" (JNum created) (JNum created) (JNum 2)
    None None (Some "Ana") (Some "OSL") 0 EmptyString false.

(** A cache written by an earlier run with an earlier [FROM_DATE]: chat 1
    was created in 2020, chat 7 in March 2024. *)
Definition staleCache : Cache :=
  {| chats := [chatWith "1" 1600000000; chatWith "7" 1710000000];
     lastProcessedBatch := 1; totalBatches := 1 |}.

Definition textMessage (sender body : string) (time : JsVal) : Message.t :=
  Message.mk JUndefined time JUndefined (Some sender) (Some "message") (Some body) None None.

Definition techMessage (body : string) (time : JsVal) : Message.t :=
  Message.mk JUndefined time JUndefined None (Some "tech") (Some body) None None.

(** The first candidate answers with an empty [data] array, the second with
    one message; the others fail. *)
Definition apiEmptyThenOne (endpoint : string) : Response :=
  if String.eqb endpoint "/v1/chats/7/messages"
  then Ok (Some {| data := FArray []; messages := FAbsent |})
  else if String.eqb endpoint "/chats/7/messages"
  then Ok (Some {| data := FArray [textMessage "customer" "hi" (JNum 10)];
                   messages := FAbsent |})
  else Failed.

(** The first candidate fails, the second holds a non-array under [data] and
    an array under [messages]. *)
Definition apiSecondAnswers (endpoint : string) : Response :=
  if String.eqb endpoint "/chats/7/messages"
  then Ok (Some {| data := FOther;
                   messages := FArray [textMessage "customer" "hi" (JNum 10)] |})
  else Failed.

(** A conversation with neither a department nor an assignee. *)
Definition unassigned : Conversation.t :=
  Conversation.mk (IdNum 9) JUndefined (JNum 1710000000) JUndefined JUndefined
    (JNum 1) None None None None None.

(** A conversation without a department, assigned to the Squid team. *)
Definition squidAssigned : Conversation.t :=
  Conversation.mk (IdNum 10) JUndefined (JNum 1710000000) JUndefined JUndefined
    (JNum 1) None (Some {| name := Some "Squid Team" |}) None None None.

(** An array stored out of order, with one technical message. *)
Definition unsortedMessages : list Message.t :=
  [ textMessage "agent" " hello " (JNum 20);
    techMessage "request_rating" (JNum 15);
    textMessage "customer" "hi" (JNum 10) ].

Definition exampleHeap : gmap loc (list Message.t) :=
  {[ 0 := unsortedMessages; 1 := hiHello ]}.

(** An export configured with an output name that has no '.json'. *)
Definition textConfig : Config :=
  {| organizationId := "OSL"; fromDate := "2024-01-01";
     outputFile := "export.txt"; cacheFile := "chat_cache.json";
     departmentFilter := Some "OSL" |}.

(** Two pages of a list endpoint that reports 150 conversations: the first
    page holds one conversation of 2020 and one of 2024, the second one of
    2024; every later request fails. *)
Definition twoPages (offset : nat) : ListResponse :=
  if offset =? 0 then
    ListOk (Some {| listData := Some [conversationWith 1 1600000000 None;
                                      conversationWith 7 1710000000 None];
                    listTotal := Some 150%Z |})
  else if offset =? 100 then
    ListOk (Some {| listData := Some [conversationWith 8 1710000100 None];
                    listTotal := Some 150%Z |})
  else ListFailed.

(** A list endpoint that answers with an empty array. *)
Definition emptyList (offset : nat) : ListResponse :=
  ListOk (Some {| listData := Some []; listTotal := Some 0%Z |}).

(** No string is read as a number of seconds in the runs below. *)
Definition noSeconds (s : string) : option Z := None.

(** A list endpoint whose first page announces 150 conversations and whose
    later requests fail. *)
Definition secondPageFails (offset : nat) : ListResponse :=
  if offset =? 0 then
    ListOk (Some {| listData := Some [conversationWith 7 1710000000 None];
                    listTotal := Some 150%Z |})
  else ListFailed.

(** A heap whose one array holds a technical message only. *)
Definition techOnlyHeap : gmap loc (list Message.t) :=
  {[ 0 := [techMessage "resolution_time" (JNum 5)] ]}.

(** An environment with the two required variables. *)
Definition exampleEnv : gmap string string :=
  {[ "HELPCRUNCH_API_KEY" := "secret"; "HELPCRUNCH_ORGANIZATION_ID" := "OSL" ]}.

(** A chat whose customer name holds quotes and a comma. *)
Definition quotedChat : ExportedChat.t :=
  ExportedChat.mk "7" "OSL" (JNum 1710000000) JNull (JNum 2)
    (Some "bo@example.org") (Some ("Bo " +:+ dq +:+ "B" +:+ dq +:+ ", Jr")) None
    (Some "OSL") 2 ("[USER] hi, my swap" +:+ nl +:+ "[AGENT] hello") true.

(** * Properties *)

(** ** Categorizer *)

(** [countMatches] reads a keyword literally, as [RegExp] does for one free
    of metacharacters; every keyword of [categories] is such, and none is
    empty. *)
Lemma keywords_are_literal :
  forallb (fun entry =>
             forallb (fun keyword =>
                        negb (String.eqb keyword EmptyString) &&
                        forallb (fun c => negb (isMetaChar c)) (list_ascii_of_string keyword))
                     (snd entry))
          categories = true.
Proof. vm_compute. reflexivity. Qed.

Lemma maxOf_upper (values : list nat) (v : nat) :
  In v values -> v <= maxOf values.
Proof.
  induction values as [|x values IH]; simpl; [tauto|].
  intros [->|Hin]; [lia|]. specialize (IH Hin). lia.
Qed.

Lemma maxOf_attained (values : list nat) :
  0 < maxOf values -> In (maxOf values) values.
Proof.
  induction values as [|x values IH]; simpl; [lia|].
  intros Hpos. destruct (Nat.max_spec x (maxOf values)) as [[Hlt ->]|[Hle ->]].
  - right. apply IH. lia.
  - now left.
Qed.

Lemma maxOf_zero (values : list nat) :
  (forall v, In v values -> v = 0) -> maxOf values = 0.
Proof.
  induction values as [|x values IH]; simpl; [reflexivity|].
  intros Hall. rewrite (Hall x), IH by auto. reflexivity.
Qed.

(** [find] stops at the first entry whose score is the wanted one. *)
Lemma findKey_first (scores : list (string * nat)) (wanted : nat) :
  In wanted (map snd scores) ->
  exists before label after,
    scores = before ++ (label, wanted) :: after /\
    findKey scores wanted = Some label /\
    forall entry, In entry before -> snd entry <> wanted.
Proof.
  unfold findKey. induction scores as [|[l v] scores IH]; simpl; [tauto|].
  intros Hin. destruct (Nat.eqb_spec v wanted) as [->|Hne].
  - exists [], l, scores. simpl. repeat split; auto; tauto.
  - destruct Hin as [Heq|Hin]; [congruence|].
    destruct (IH Hin) as (before & label & after & -> & Hfind & Hbefore).
    exists ((l, v) :: before), label, after. simpl. repeat split; auto.
    intros entry [<-|Hin']; simpl; auto.
Qed.

Lemma scoresOf_labels (text : string) : map fst (scoresOf text) = categoryLabels.
Proof. unfold scoresOf, categoryLabels. rewrite map_map. reflexivity. Qed.


(** C10. The category depends on the transcript alone: two calls with the
    same text and any agent and customer names return the same label, and
    so two exported chats with the same transcript get the same Category
    column in the CSV summary. *)
Theorem categorize_ignores_agent_and_customer
    (conversationText : string) (agent1 customer1 agent2 customer2 : option string)
    (chat1 chat2 : ExportedChat.t) :
  categorizeConversation conversationText agent1 customer1 =
  categorizeConversation conversationText agent2 customer2 /\
  (ExportedChat.conversationText chat1 = ExportedChat.conversationText chat2 ->
   csvCategory chat1 = csvCategory chat2).
Proof.
  split; [reflexivity|].
  unfold csvCategory. intros ->. reflexivity.
Qed.

(** ** CSV summary file name *)

Lemma prefix_append (pattern rest : string) : String.prefix pattern (pattern +:+ rest) = true.
Proof.
  induction pattern as [|c pattern IH]; simpl; [now destruct rest|].
  destruct (ascii_dec c c) as [_|Hne]; [exact IH|congruence].
Qed.

Lemma dropChars_append (pattern rest : string) :
  dropChars (String.length pattern) (pattern +:+ rest) = rest.
Proof. induction pattern as [|c pattern IH]; simpl; [now destruct rest|exact IH]. Qed.

Lemma replaceFirst_unfold (pattern replacement s : string) :
  replaceFirst pattern replacement s =
  if String.prefix pattern s
  then replacement +:+ dropChars (String.length pattern) s
  else match s with
       | EmptyString => EmptyString
       | String c rest => String c (replaceFirst pattern replacement rest)
       end.
Proof. destruct s; reflexivity. Qed.

Lemma includes_unfold (pattern s : string) :
  includes pattern s =
  String.prefix pattern s ||
  match s with
  | EmptyString => false
  | String _ rest => includes pattern rest
  end.
Proof. destruct s; reflexivity. Qed.

(** Without an occurrence of the pattern the string is returned as it is. *)
Lemma replaceFirst_absent (pattern replacement s : string) :
  includes pattern s = false -> replaceFirst pattern replacement s = s.
Proof.
  induction s as [|c s IH]; rewrite includes_unfold, replaceFirst_unfold;
    intros [Hprefix Hrest]%orb_false_elim; rewrite Hprefix; [reflexivity|].
  rewrite IH by exact Hrest. reflexivity.
Qed.

(** The occurrence that no other one precedes is the one replaced. *)
Lemma replaceFirst_at (pattern replacement before after : string) :
  (forall k, k < String.length before ->
             String.prefix pattern (dropChars k (before +:+ pattern +:+ after)) = false) ->
  replaceFirst pattern replacement (before +:+ pattern +:+ after) =
  before +:+ replacement +:+ after.
Proof.
  induction before as [|c before IH]; intros Hfirst.
  - change (EmptyString +:+ pattern +:+ after) with (pattern +:+ after).
    rewrite replaceFirst_unfold, prefix_append, dropChars_append. reflexivity.
  - rewrite replaceFirst_unfold.
    pose proof (Hfirst 0 ltac:(simpl; lia)) as Hhere.
    cbn [dropChars] in Hhere. rewrite Hhere.
    change (String c before +:+ pattern +:+ after)
      with (String c (before +:+ pattern +:+ after)).
    change (String c before +:+ replacement +:+ after)
      with (String c (before +:+ replacement +:+ after)).
    f_equal. apply IH.
    intros k Hk. apply (Hfirst (S k)). simpl. lia.
Qed.

(** ** The paths of [export] *)

Section ExportPaths.

Variable dateParse : string -> option Z.
Variable cfg : Config.
Variable api : string -> Response.
Variable h : gmap loc (list Message.t).
Variable files : gmap string FileContent.
Variable cache : Cache.
Variable conversations : list Conversation.t.

Let filtered := snd (filterConversationsByDepartment cfg conversations).
Let uncached := uncachedOf cache filtered.

(** [l.length === 0] holds for the empty array only. *)
Lemma length_zero_nil {A : Type} (l : list A) : (length l =? 0) = true -> l = [].
Proof. destruct l; simpl; [reflexivity|discriminate]. Qed.

(** NothingNew: the output file is written with the whole cache. *)
Lemma export_nothing_new :
  filtered <> [] -> uncached = [] ->
  export dateParse cfg api h files cache conversations =
  let output :=
    {| totalConversationsFound := length conversations;
       totalConversationsAfterFiltering := length filtered;
       newChatsProcessed := 0;
       totalExportedChats := length (chats cache);
       outputChats := chats cache |} in
  {| runHeap := h; runCache := cache; runSaved := [];
     runFiles := <[outputFile cfg := JsonOf output]> files;
     runOutput := Some output; runFailed := false |}.
Proof.
  intros Hfiltered Huncached. unfold export.
  destruct (length conversations =? 0) eqn:Hconv.
  { apply length_zero_nil in Hconv. exfalso. apply Hfiltered.
    subst filtered. rewrite Hconv. reflexivity. }
  fold filtered.
  destruct (length filtered =? 0) eqn:Hf.
  { apply length_zero_nil in Hf. contradiction. }
  fold uncached. rewrite Huncached. reflexivity.
Qed.

(** BatchProcess and WriteOutputs: the batch loop, the output file, and the
    CSV summary unless generating it throws. *)
Lemma export_batches :
  uncached <> [] ->
  export dateParse cfg api h files cache conversations =
  let st := batchLoop dateParse cfg api uncached
              {| loopHeap := h; loopCache := cache; loopSaved := [];
                 loopFiles := files; newChatsCount := 0 |} in
  let kept := List.filter (onOrAfterFromDate dateParse cfg) (chats (loopCache st)) in
  let output :=
    {| totalConversationsFound := length conversations;
       totalConversationsAfterFiltering := length filtered;
       newChatsProcessed := newChatsCount st;
       totalExportedChats := length kept;
       outputChats := kept |} in
  let written := <[outputFile cfg := JsonOf output]> (loopFiles st) in
  {| runHeap := loopHeap st; runCache := loopCache st; runSaved := loopSaved st;
     runFiles :=
       match generateCSVSummary output with
       | Some csvContent =>
           <[replaceFirst ".json" "_summary.csv" (outputFile cfg) := CsvText csvContent]>
             written
       | None => written
       end;
     runOutput := Some output;
     runFailed :=
       match generateCSVSummary output with
       | Some _ => false
       | None => true
       end |}.
Proof.
  intros Huncached. unfold export.
  destruct (length conversations =? 0) eqn:Hconv.
  { apply length_zero_nil in Hconv. exfalso. apply Huncached.
    subst uncached filtered. rewrite Hconv. reflexivity. }
  fold filtered.
  destruct (length filtered =? 0) eqn:Hf.
  { apply length_zero_nil in Hf. exfalso. apply Huncached.
    subst uncached. rewrite Hf. reflexivity. }
  fold uncached.
  destruct (length uncached =? 0) eqn:Hu.
  { apply length_zero_nil in Hu. contradiction. }
  cbv zeta. destruct (generateCSVSummary _); reflexivity.
Qed.

(** The batch loop writes the caches it saves, one after the other, to the
    cache file, and no other file. *)
Lemma batchLoop_files (pending : list Conversation.t) (st : Loop) :
  loopFiles st = fold_left (saveCache cfg) (loopSaved st) files ->
  let st' := batchLoop dateParse cfg api pending st in
  loopFiles st' = fold_left (saveCache cfg) (loopSaved st') files.
Proof.
  unfold batchLoop. generalize (seq 0 (batchCount (length pending))). intros indices.
  revert st. induction indices as [|k indices IH]; intros st Hst; [exact Hst|].
  cbn [fold_left]. apply IH. unfold batchStep.
  destruct (processBatch dateParse cfg api (loopHeap st) _) as [h' results].
  destruct (0 <? length results); cbn [loopFiles loopSaved]; [|exact Hst].
  rewrite fold_left_app, <- Hst. reflexivity.
Qed.

(** The last element of an array that has a first one. *)
Lemma last_cons {A : Type} (l : list A) (a d : A) : List.last (a :: l) d = List.last l a.
Proof.
  revert a d. induction l as [|b l IH]; intros a d; [reflexivity|].
  change (List.last (a :: b :: l) d) with (List.last (b :: l) d).
  now rewrite !IH.
Qed.

(** After the saves the cache file holds the last cache saved, and every
    other file is as it was. *)
Lemma saveCache_files (saved : list Cache) (file : string) :
  fold_left (saveCache cfg) saved files !! file =
  if decide (file = cacheFile cfg)
  then match saved with
       | [] => files !! file
       | first :: rest => Some (CacheOf (List.last rest first))
       end
  else files !! file.
Proof.
  revert files. induction saved as [|c saved IH]; intros files0; cbn [fold_left].
  - now case_decide.
  - rewrite IH. unfold saveCache. case_decide as Hfile.
    + subst file. destruct saved as [|c' saved]; [apply lookup_insert_eq|].
      now rewrite last_cons.
    + apply lookup_insert_ne. congruence.
Qed.

End ExportPaths.

(** C8. The CSV summary name is the output name with its first '.json'
    replaced by '_summary.csv', and it is the output name itself when that
    name has no '.json'.  A run that processes new conversations writes the
    CSV summary under this name after the JSON export: with a name of its
    own the summary leaves the export in the output file, and without
    '.json' in the output name the summary takes the place of the export in
    that file.  When generating the summary throws, the run fails with the
    export written and no summary. *)
Theorem csv_summary_name_and_overwrite
    (dateParse : string -> option Z) (cfg : Config) (api : string -> Response)
    (h : gmap loc (list Message.t)) (files : gmap string FileContent)
    (cache : Cache) (conversations : list Conversation.t) :
  let csvFileName := replaceFirst ".json" "_summary.csv" (outputFile cfg) in
  let run := export dateParse cfg api h files cache conversations in
  (forall before after,
      outputFile cfg = before +:+ ".json" +:+ after ->
      (forall k, k < String.length before ->
                 String.prefix ".json" (dropChars k (outputFile cfg)) = false) ->
      csvFileName = before +:+ "_summary.csv" +:+ after) /\
  (includes ".json" (outputFile cfg) = false -> csvFileName = outputFile cfg) /\
  (uncachedOf cache (snd (filterConversationsByDepartment cfg conversations)) <> [] ->
   exists output,
     runOutput run = Some output /\
     (forall csvContent,
         generateCSVSummary output = Some csvContent ->
         runFailed run = false /\
         runFiles run !! csvFileName = Some (CsvText csvContent) /\
         (csvFileName <> outputFile cfg ->
          runFiles run !! outputFile cfg = Some (JsonOf output)) /\
         (includes ".json" (outputFile cfg) = false ->
          runFiles run !! outputFile cfg = Some (CsvText csvContent))) /\
     (generateCSVSummary output = None ->
      runFailed run = true /\
      runFiles run !! outputFile cfg = Some (JsonOf output) /\
      (csvFileName <> outputFile cfg -> csvFileName <> cacheFile cfg ->
       runFiles run !! csvFileName = files !! csvFileName))).
Proof.
  intros csvFileName run.
  assert (Habsent : includes ".json" (outputFile cfg) = false -> csvFileName = outputFile cfg)
    by (intros Hnone; apply replaceFirst_absent; exact Hnone).
  split; [|split; [exact Habsent|]].
  - intros before after Hname Hfirst. subst csvFileName.
    rewrite Hname in *. apply replaceFirst_at. exact Hfirst.
  - intros Hnew. subst run. rewrite export_batches by exact Hnew.
    cbv zeta. cbn [runOutput runFiles runFailed]. fold csvFileName.
    eexists. split; [reflexivity|]. split.
    + intros csvContent ->. split; [reflexivity|].
      split; [apply lookup_insert_eq|]. split.
      * intros Hother. rewrite lookup_insert_ne by congruence. apply lookup_insert_eq.
      * intros Hnone. rewrite <- (Habsent Hnone). apply lookup_insert_eq.
    + intros ->. split; [reflexivity|]. split; [apply lookup_insert_eq|].
      intros Hother Hcache. rewrite lookup_insert_ne by congruence.
      rewrite (batchLoop_files dateParse cfg api files) by reflexivity.
      rewrite saveCache_files. case_decide; [contradiction|reflexivity].
Qed.

(** ** Message fetcher *)

(** A candidate without an array sends the probe on. *)
Lemma tryEndpoints_skip (api : string -> Response) (endpoint : string) (rest : list string) :
  arrayOf (api endpoint) = None ->
  tryEndpoints api (endpoint :: rest) = tryEndpoints api rest.
Proof.
  simpl. unfold arrayOf. destruct (api endpoint) as [|[b|]]; auto.
  destruct (data b), (messages b); auto; discriminate.
Qed.

(** A candidate with an array ends the probe. *)
Lemma tryEndpoints_accept (api : string -> Response) (endpoint : string) (rest : list string)
    (items : list Message.t) :
  arrayOf (api endpoint) = Some items ->
  tryEndpoints api (endpoint :: rest) = firstn 100 items.
Proof.
  simpl. unfold arrayOf. destruct (api endpoint) as [|[b|]]; try discriminate.
  destruct (data b), (messages b); intros [=]; subst; reflexivity.
Qed.

(** [slice(0, 100)] bounds the result. *)
Lemma tryEndpoints_length (api : string -> Response) (endpoints : list string) :
  length (tryEndpoints api endpoints) <= 100.
Proof.
  induction endpoints as [|endpoint rest IH]; simpl; [lia|].
  destruct (api endpoint) as [|[b|]]; auto.
  destruct (data b); [destruct (messages b); auto| |destruct (messages b); auto];
    rewrite length_firstn; lia.
Qed.

(** C3, as the code has it. [getChatMessages] probes the five candidate
    endpoints in their fixed order and stops at the first whose response
    holds an array under [data] or, failing that, under [messages]; it
    returns the first 100 entries of that array in order, also when the
    array is empty.  A candidate that throws or holds no array sends the
    probe to the next one, and when none is accepted the result is the
    empty sequence; the call always returns. *)
Theorem getChatMessages_first_array (api : string -> Response) (chatId : JsId) :
  let endpoints := possibleEndpoints (idToString chatId) in
  length endpoints = 5 /\
  length (getChatMessages api chatId) <= 100 /\
  (forall before endpoint after items,
      endpoints = before ++ endpoint :: after ->
      (forall e, In e before -> arrayOf (api e) = None) ->
      arrayOf (api endpoint) = Some items ->
      getChatMessages api chatId = firstn 100 items) /\
  ((forall e, In e endpoints -> arrayOf (api e) = None) ->
   getChatMessages api chatId = []).
Proof.
  intros endpoints. unfold getChatMessages. fold endpoints.
  split; [reflexivity|]. split; [apply tryEndpoints_length|].
  split.
  - generalize endpoints. clear endpoints.
    intros candidates before. revert candidates.
    induction before as [|e before IH]; intros candidates endpoint after items -> Hskip Hhit.
    + apply tryEndpoints_accept. exact Hhit.
    + change ((e :: before) ++ endpoint :: after) with (e :: (before ++ endpoint :: after)).
      rewrite tryEndpoints_skip by (apply Hskip; now left).
      apply (IH _ endpoint after items eq_refl); auto.
      intros e' He'. apply Hskip. now right.
  - generalize endpoints. clear endpoints.
    intros candidates. induction candidates as [|e candidates IH]; intros Hnone; [reflexivity|].
    rewrite tryEndpoints_skip by (apply Hnone; now left).
    apply IH. intros e' He'. apply Hnone. now right.
Qed.

(** ** Department filter *)

(** The callback keeps the conversations of the department. *)
Lemma keepForDepartment_spec (cfg : Config) (conversation : Conversation.t) :
  keepForDepartment cfg conversation = true <-> inDepartment cfg conversation.
Proof.
  unfold keepForDepartment, inDepartment, filterUnset.
  destruct (departmentFilter cfg) as [f|]; [|tauto].
  destruct (String.eqb_spec f EmptyString) as [->|Hne]; [tauto|].
  destruct (nameOf (Conversation.department conversation)) as [d|].
  - destruct (String.eqb_spec d f) as [->|Hdf]; intuition congruence.
  - intuition congruence.
Qed.

(** C5, as the code has it. The filter returns, in their order, exactly the
    conversations whose department name after the backfill equals
    [departmentFilter], and all of them when the filter is unset.  The
    backfill changes the caller's conversations before the test: one with a
    department is left as it is; one without a department that has an
    assignee gets the department [{ name: 'SQUID' }] when the assignee name
    is exactly 'Squid Team' and [{ name: 'OSL' }] otherwise, its other
    properties staying as they are; one with neither a department nor an
    assignee stays without a department. *)
Theorem department_filter_backfill (cfg : Config) (conversations : list Conversation.t) :
  let mutated := fst (filterConversationsByDepartment cfg conversations) in
  let kept := snd (filterConversationsByDepartment cfg conversations) in
  mutated = map backfillDepartment conversations /\
  (exists keep : Conversation.t -> bool,
      kept = List.filter keep mutated /\
      forall conversation, keep conversation = true <-> inDepartment cfg conversation) /\
  (forall conversation,
      (Conversation.department conversation <> None ->
       backfillDepartment conversation = conversation) /\
      (Conversation.department conversation = None -> hasAssignee conversation ->
       backfillDepartment conversation =
       Conversation.mk
         (Conversation.id conversation)
         (Conversation.created_at conversation) (Conversation.createdAt conversation)
         (Conversation.updated_at conversation) (Conversation.updatedAt conversation)
         (Conversation.status conversation) (Conversation.customer conversation)
         (Conversation.assignee conversation) (Conversation.assigned_agent conversation)
         (Some {| name := Some (if decide (assigneeNameOf conversation = Some "Squid Team")
                                then "SQUID" else "OSL") |})
         (Conversation.messages conversation)) /\
      (Conversation.department conversation = None -> ~ hasAssignee conversation ->
       backfillDepartment conversation = conversation)).
Proof.
  intros mutated kept. split; [reflexivity|]. split.
  - exists (keepForDepartment cfg). split; [reflexivity|].
    apply keepForDepartment_spec.
  - intros [i created_at createdAt updated_at updatedAt status customer
             assignee assigned_agent department inline].
    unfold backfillDepartment, hasAssignee, assigneeNameOf, withDepartment.
    cbn [Conversation.id Conversation.created_at Conversation.createdAt
         Conversation.updated_at Conversation.updatedAt Conversation.status
         Conversation.customer Conversation.assignee Conversation.assigned_agent
         Conversation.department Conversation.messages].
    destruct department as [d|]; [repeat split; congruence|].
    split; [congruence|]. split.
    + intros _ Hassignee.
      assert (Hbody : forall assigneeName : option string,
        (match assigneeName with
         | Some n =>
             if String.eqb n "Squid Team"
             then Conversation.mk i created_at createdAt updated_at updatedAt status
                    customer assignee assigned_agent (Some {| name := Some "SQUID" |}) inline
             else Conversation.mk i created_at createdAt updated_at updatedAt status
                    customer assignee assigned_agent (Some {| name := Some "OSL" |}) inline
         | None =>
             Conversation.mk i created_at createdAt updated_at updatedAt status
               customer assignee assigned_agent (Some {| name := Some "OSL" |}) inline
         end) =
        Conversation.mk i created_at createdAt updated_at updatedAt status
          customer assignee assigned_agent
          (Some {| name := Some (if decide (assigneeName = Some "Squid Team")
                                 then "SQUID" else "OSL") |})
          inline).
      { intros [n|].
        - destruct (String.eqb_spec n "Squid Team") as [->|Hn]; case_decide;
            congruence.
        - case_decide; congruence. }
      destruct assignee, assigned_agent; try apply Hbody.
      destruct Hassignee; congruence.
    + intros _ Hnone.
      destruct assignee, assigned_agent;
        try reflexivity; exfalso; apply Hnone; (left; congruence) || (right; congruence).
Qed.

(** ** Formatter *)

Lemma append_cons (x : ascii) (a b : string) : String x a +:+ b = String x (a +:+ b).
Proof. reflexivity. Qed.

Lemma append_assoc (a b c : string) : (a +:+ b) +:+ c = a +:+ b +:+ c.
Proof.
  induction a as [|x a IH]; [reflexivity|].
  rewrite !append_cons. f_equal. exact IH.
Qed.

Lemma append_empty_r (a : string) : a +:+ EmptyString = a.
Proof.
  induction a as [|x a IH]; [reflexivity|].
  rewrite append_cons. f_equal. exact IH.
Qed.

(** A string that does not begin with white space loses nothing at its
    start. *)
Lemma trim_no_leading_space (s : string) :
  match s with
  | EmptyString => True
  | String c _ => isWhite c = false
  end ->
  trim s = trimEnd s.
Proof.
  unfold trim. destruct s as [|c s]; [reflexivity|].
  intros Hc. cbn [trimStart]. now rewrite Hc.
Qed.

Section FormatterFacts.

Variable dateParse : string -> option Z.

Lemma messageTag_tagOf (m : Message.t) : messageTag m = tagOf m.
Proof.
  unfold messageTag, tagOf. destruct (Message.from m) as [f|].
  - destruct (String.eqb_spec f "agent") as [->|Hf]; case_decide; congruence.
  - case_decide; congruence.
Qed.

Lemma appendMessage_line (text : string) (m : Message.t) :
  appendMessage text m = if hasContent m then text +:+ taggedLine m else text.
Proof.
  unfold appendMessage, hasContent, taggedLine.
  destruct (isTech m); cbn [negb andb]; [reflexivity|].
  destruct (String.eqb (trim (messageContent m)) EmptyString); cbn [negb]; [reflexivity|].
  rewrite messageTag_tagOf. reflexivity.
Qed.

(** The loop of the formatter builds the transcript. *)
Lemma fold_appendMessage (messages : list Message.t) (text : string) :
  fold_left appendMessage messages text = text +:+ transcriptOf messages.
Proof.
  revert text. unfold transcriptOf.
  induction messages as [|m messages IH]; intros text; simpl.
  - now rewrite append_empty_r.
  - rewrite IH, appendMessage_line. destruct (hasContent m); simpl; [|reflexivity].
    now rewrite append_assoc.
Qed.

(** Messages of type 'tech' add nothing to the text. *)
Lemma fold_appendMessage_skips_tech (messages : list Message.t) (text : string) :
  fold_left appendMessage messages text =
  fold_left appendMessage (List.filter (fun m => negb (isTech m)) messages) text.
Proof.
  revert text. induction messages as [|m messages IH]; intros text; simpl; [reflexivity|].
  destruct (isTech m) eqn:Htech; simpl.
  - rewrite <- IH. unfold appendMessage at 2. now rewrite Htech.
  - apply IH.
Qed.

Lemma transcriptOf_start (messages : list Message.t) :
  match transcriptOf messages with
  | EmptyString => True
  | String c _ => isWhite c = false
  end.
Proof.
  unfold transcriptOf. destruct (List.filter hasContent messages); simpl; auto.
Qed.

(** *** The sort *)

Lemma insertMessage_perm (m : Message.t) (sorted : list Message.t) :
  Permutation (m :: sorted) (insertMessage dateParse m sorted).
Proof.
  induction sorted as [|x sorted IH]; simpl; [reflexivity|].
  destruct (notAfter dateParse m x); [reflexivity|].
  rewrite perm_swap. now constructor.
Qed.

Lemma sortMessages_perm (messages : list Message.t) :
  Permutation messages (sortMessages dateParse messages).
Proof.
  induction messages as [|m messages IH]; simpl; [reflexivity|].
  rewrite <- insertMessage_perm. now constructor.
Qed.

Lemma sortMessages_length (messages : list Message.t) :
  length (sortMessages dateParse messages) = length messages.
Proof. symmetry. apply Permutation_length, sortMessages_perm. Qed.

Lemma notAfter_timeLe (a b : Message.t) :
  hasTime dateParse a -> hasTime dateParse b ->
  notAfter dateParse a b = true -> timeLe dateParse a b.
Proof.
  unfold hasTime, notAfter, compareMessages, timeLe.
  destruct (messageTime dateParse a) as [ta|], (messageTime dateParse b) as [tb|];
    try congruence.
  intros _ _ Hle. exists ta, tb. repeat split. lia.
Qed.

Lemma after_timeLe (a b : Message.t) :
  hasTime dateParse a -> hasTime dateParse b ->
  notAfter dateParse a b = false -> timeLe dateParse b a.
Proof.
  unfold hasTime, notAfter, compareMessages, timeLe.
  destruct (messageTime dateParse a) as [ta|], (messageTime dateParse b) as [tb|];
    try congruence.
  intros _ _ Hgt. exists tb, ta. repeat split. lia.
Qed.

Lemma timeLe_trans (a b c : Message.t) :
  timeLe dateParse a b -> timeLe dateParse b c -> timeLe dateParse a c.
Proof.
  intros (ta & tb & Ha & Hb & Hab) (tb' & tc & Hb' & Hc & Hbc).
  exists ta, tc. repeat split; auto. rewrite Hb in Hb'. injection Hb' as <-. lia.
Qed.

Lemma insertMessage_sorted (m : Message.t) (sorted : list Message.t) :
  hasTime dateParse m -> Forall (hasTime dateParse) sorted ->
  StronglySorted (timeLe dateParse) sorted ->
  StronglySorted (timeLe dateParse) (insertMessage dateParse m sorted).
Proof.
  intros Hm Hall Hsorted.
  induction Hsorted as [|x sorted Hsorted IH Hx]; simpl.
  - repeat constructor.
  - apply Forall_cons_iff in Hall as [Hxt Hall].
    destruct (notAfter dateParse m x) eqn:Hcmp.
    + assert (Hmx : timeLe dateParse m x) by (apply notAfter_timeLe; auto).
      constructor; [now constructor|]. constructor; [exact Hmx|].
      eapply Forall_impl; [exact Hx|]. intros y Hxy. eapply timeLe_trans; eauto.
    + constructor; [now apply IH|].
      eapply Permutation_Forall; [apply insertMessage_perm|].
      constructor; [|exact Hx]. apply after_timeLe; auto.
Qed.

(** With valid dates throughout, the sort leaves the messages in
    ascending order of time. *)
Lemma sortMessages_sorted (messages : list Message.t) :
  Forall (hasTime dateParse) messages ->
  StronglySorted (timeLe dateParse) (sortMessages dateParse messages).
Proof.
  induction messages as [|m messages IH]; simpl; intros Hall; [constructor|].
  apply Forall_cons_iff in Hall as [Hm Hall].
  apply insertMessage_sorted; auto.
  eapply Permutation_Forall; [apply sortMessages_perm|exact Hall].
Qed.

End FormatterFacts.

Section FormatterTheorems.

Variable dateParse : string -> option Z.
Variable cfg : Config.

(** On a non-empty array the formatter sorts it where it is stored and
    builds the chat from the sorted messages. *)
Lemma format_nonempty (h : gmap loc (list Message.t)) (conversation : Conversation.t)
    (r : loc) (messages : list Message.t) :
  h !! r = Some messages -> length messages <> 0 ->
  exists chat,
    formatConversationWithMessages dateParse cfg h conversation r =
      Some (<[r := sortMessages dateParse messages]> h, chat) /\
    ExportedChat.chatId chat = idToString (Conversation.id conversation) /\
    ExportedChat.messageCount chat = length messages /\
    ExportedChat.conversationText chat =
      trim (fold_left appendMessage (sortMessages dateParse messages) EmptyString).
Proof.
  intros Hr Hne. unfold formatConversationWithMessages. rewrite Hr.
  destruct messages as [|m messages]; [simpl in Hne; congruence|].
  cbn [length Nat.eqb]. eexists. split; [reflexivity|]. repeat split.
Qed.

(** A filter that rejects an element returns fewer elements. *)
Lemma filter_length_lt {A : Type} (p : A -> bool) (l : list A) :
  Exists (fun x => p x = false) l -> length (List.filter p l) < length l.
Proof.
  induction 1 as [x l Hx|x l _ IH]; simpl.
  - rewrite Hx. pose proof (filter_length_le p l). lia.
  - destruct (p x); simpl; lia.
Qed.

(** C6. For a non-empty message list, [messageCount] is the length of the
    whole list, messages of type 'tech' included, while [conversationText]
    is built from the messages that are not of type 'tech', in the order
    the sort has left the array in; so with a 'tech' message present the
    count exceeds the number of messages the text is built from. *)
Theorem message_count_includes_tech
    (h : gmap loc (list Message.t)) (conversation : Conversation.t)
    (r : loc) (messages : list Message.t) :
  h !! r = Some messages -> length messages <> 0 ->
  exists h' chat sorted,
    formatConversationWithMessages dateParse cfg h conversation r = Some (h', chat) /\
    h' !! r = Some sorted /\
    Permutation messages sorted /\
    ExportedChat.messageCount chat = length messages /\
    ExportedChat.conversationText chat =
      trim (fold_left appendMessage (List.filter notTech sorted) EmptyString) /\
    (Exists (fun m => isTech m = true) messages ->
     length (List.filter notTech sorted) < ExportedChat.messageCount chat).
Proof.
  intros Hr Hne.
  destruct (format_nonempty h conversation r messages Hr Hne)
    as (chat & Hformat & _ & Hcount & Htext).
  exists (<[r := sortMessages dateParse messages]> h), chat, (sortMessages dateParse messages).
  split; [exact Hformat|]. split; [apply lookup_insert_eq|].
  split; [apply sortMessages_perm|]. split; [exact Hcount|]. split.
  - rewrite Htext, fold_appendMessage_skips_tech. reflexivity.
  - intros Htech. rewrite Hcount, <- (sortMessages_length dateParse messages).
    apply filter_length_lt.
    apply Exists_exists in Htech as (m & Hm & Htech).
    apply Exists_exists. exists m. split.
    + rewrite <- (sortMessages_perm dateParse messages). exact Hm.
    + unfold notTech. now rewrite Htech.
Qed.

(** C7. The transcript is the sequence of lines '[TAG] trimmed-body'
    followed by a newline, one for every message that is not of type
    'tech' and has a non-empty trimmed body, taken in the order the sort
    has left the array in (the stable ascending order when the dates are
    all valid or all invalid), with tag AGENT exactly when [from] is
    'agent' and USER otherwise, and with the white space at the end of the
    whole removed.  For the messages
    [{from:'customer',text:'hi'},{from:'agent',text:'hello'}] it is
    "[USER] hi\n[AGENT] hello". *)
Theorem transcript_tags_and_trims
    (h : gmap loc (list Message.t)) (conversation : Conversation.t)
    (r : loc) (messages : list Message.t) :
  h !! r = Some messages -> length messages <> 0 ->
  exists h' chat sorted,
    formatConversationWithMessages dateParse cfg h conversation r = Some (h', chat) /\
    h' !! r = Some sorted /\
    Permutation messages sorted /\
    (datesComparable dateParse messages -> sorted = sortMessages dateParse messages) /\
    ExportedChat.conversationText chat = trimEnd (transcriptOf sorted) /\
    (messages = hiHello ->
     ExportedChat.conversationText chat = "[USER] hi" +:+ nl +:+ "[AGENT] hello").
Proof.
  intros Hr Hne.
  destruct (format_nonempty h conversation r messages Hr Hne)
    as (chat & Hformat & _ & _ & Htext).
  exists (<[r := sortMessages dateParse messages]> h), chat, (sortMessages dateParse messages).
  split; [exact Hformat|]. split; [apply lookup_insert_eq|].
  split; [apply sortMessages_perm|]. split; [reflexivity|].
  rewrite fold_appendMessage in Htext.
  change (EmptyString +:+ transcriptOf (sortMessages dateParse messages))
    with (transcriptOf (sortMessages dateParse messages)) in Htext.
  rewrite trim_no_leading_space in Htext by apply transcriptOf_start.
  split; [exact Htext|].
  intros ->. rewrite Htext. reflexivity.
Qed.

End FormatterTheorems.

(** C9. [formatConversationWithMessages] sorts the array it is handed where
    it is stored: after the call the caller's array holds the same messages
    in the order of the sort (ascending time when all dates are valid, and
    the stable ascending order whenever the dates are all valid or all
    invalid), and no other array has changed.  A conversation's inline
    [messages] array, which [processConversation] passes by reference, is
    left reordered in this way. *)
Theorem format_sorts_callers_array
    (dateParse : string -> option Z) (cfg : Config) (api : string -> Response)
    (h : gmap loc (list Message.t)) (conversation : Conversation.t)
    (r : loc) (messages : list Message.t) :
  h !! r = Some messages ->
  exists h' chat sorted,
    formatConversationWithMessages dateParse cfg h conversation r = Some (h', chat) /\
    h' !! r = Some sorted /\
    Permutation messages sorted /\
    (Forall (hasTime dateParse) messages -> StronglySorted (timeLe dateParse) sorted) /\
    (datesComparable dateParse messages -> sorted = sortMessages dateParse messages) /\
    (forall other, other <> r -> h' !! other = h !! other) /\
    (Conversation.messages conversation = Some r ->
     processConversation dateParse cfg api h conversation = (h', Some chat)).
Proof.
  intros Hr.
  assert (Hformat : exists h' chat,
    formatConversationWithMessages dateParse cfg h conversation r = Some (h', chat) /\
    h' !! r = Some (sortMessages dateParse messages) /\
    forall other, other <> r -> h' !! other = h !! other).
  { destruct messages as [|m messages].
    - exists h, (formatConversationMetadata cfg conversation).
      unfold formatConversationWithMessages. rewrite Hr. repeat split; auto.
    - destruct (format_nonempty dateParse cfg h conversation r (m :: messages) Hr)
        as (chat & Hformat & _); [simpl; lia|].
      exists (<[r := sortMessages dateParse (m :: messages)]> h), chat.
      split; [exact Hformat|]. split; [apply lookup_insert_eq|].
      intros other Hother. apply lookup_insert_ne. congruence. }
  destruct Hformat as (h' & chat & Hformat & Hsorted & Hframe).
  exists h', chat, (sortMessages dateParse messages).
  split; [exact Hformat|]. split; [exact Hsorted|].
  split; [apply sortMessages_perm|]. split; [apply sortMessages_sorted|].
  split; [reflexivity|]. split; [exact Hframe|].
  intros Hinline. unfold processConversation. rewrite Hinline, Hformat. reflexivity.
Qed.

(** ** The cache across a run *)

(** The backfill leaves the id alone. *)
Lemma backfillDepartment_id (conversation : Conversation.t) :
  idOf (backfillDepartment conversation) = idOf conversation.
Proof.
  unfold backfillDepartment.
  destruct (Conversation.department conversation); [reflexivity|].
  destruct (Conversation.assignee conversation), (Conversation.assigned_agent conversation);
    try reflexivity;
    destruct (strOr _ _) as [assigneeName|]; try reflexivity;
    destruct (String.eqb assigneeName "Squid Team"); reflexivity.
Qed.

(** Filtering keeps keys distinct. *)
Lemma NoDup_map_filter {A B : Type} (f : A -> B) (p : A -> bool) (l : list A) :
  NoDup (map f l) -> NoDup (map f (List.filter p l)).
Proof.
  induction l as [|x l IH]; simpl; [auto|].
  intros [Hx Hl]%NoDup_cons. destruct (p x); simpl; [|auto].
  apply NoDup_cons. split; [|auto].
  rewrite list_elem_of_In, in_map_iff in *.
  intros (y & Hy & Hin). apply Hx. exists y. split; [exact Hy|].
  apply filter_In in Hin. tauto.
Qed.

(** An uncached conversation has an id that is not among the cached ones. *)
Lemma isConversationCached_false (cache : Cache) (conversation : Conversation.t) :
  isConversationCached cache (Conversation.id conversation) = false ->
  ~ In (idOf conversation) (chatIds cache).
Proof.
  unfold isConversationCached, chatIds, idOf. intros Hnone Hin.
  apply in_map_iff in Hin as (chat & Hid & Hin).
  assert (Hsome : existsb
            (fun c => String.eqb (ExportedChat.chatId c)
                        (idToString (Conversation.id conversation)))
            (chats cache) = true).
  { apply existsb_exists. exists chat. split; [exact Hin|]. now apply String.eqb_eq. }
  congruence.
Qed.

Section BatchInvariant.

Variable dateParse : string -> option Z.
Variable cfg : Config.
Variable api : string -> Response.

(** Every exported chat carries the id of its conversation. *)
Lemma format_chatId (h h' : gmap loc (list Message.t)) (conversation : Conversation.t)
    (r : loc) (chat : ExportedChat.t) :
  formatConversationWithMessages dateParse cfg h conversation r = Some (h', chat) ->
  ExportedChat.chatId chat = idOf conversation.
Proof.
  unfold formatConversationWithMessages.
  destruct (h !! r) as [arr|]; [|discriminate].
  destruct (length arr =? 0); intros [= _ <-]; reflexivity.
Qed.

Lemma processConversation_chatId (h h' : gmap loc (list Message.t))
    (conversation : Conversation.t) (chat : ExportedChat.t) :
  processConversation dateParse cfg api h conversation = (h', Some chat) ->
  ExportedChat.chatId chat = idOf conversation.
Proof.
  unfold processConversation.
  destruct (Conversation.messages conversation) as [r|].
  - destruct (formatConversationWithMessages _ _ h conversation r) as [[h1 c]|] eqn:Hf;
      intros [= _ <-]. eapply format_chatId; eauto.
  - destruct (0 <? length _).
    + destruct (formatConversationWithMessages _ _ _ conversation _) as [[h1 c]|] eqn:Hf;
        intros [= _ <-]. eapply format_chatId; eauto.
    + intros [= _ <-]. reflexivity.
Qed.

(** A batch adds at most one chat per conversation, in order, under the
    conversation's id. *)
Lemma processBatch_ids (batch : list Conversation.t) (h : gmap loc (list Message.t)) :
  map ExportedChat.chatId (snd (processBatch dateParse cfg api h batch))
    `sublist_of` map idOf batch.
Proof.
  unfold processBatch.
  assert (Hgen : forall (acc : list ExportedChat.t) (h0 : gmap loc (list Message.t)),
    exists added,
      snd (fold_left
             (fun st conversation =>
                match processConversation dateParse cfg api (fst st) conversation with
                | (h', Some chat) => (h', snd st ++ [chat])
                | (h', None) => (h', snd st)
                end) batch (h0, acc)) = acc ++ added /\
      map ExportedChat.chatId added `sublist_of` map idOf batch).
  { induction batch as [|conversation batch IH]; intros acc h0; simpl.
    - exists []. split; [now rewrite app_nil_r|constructor].
    - destruct (processConversation dateParse cfg api h0 conversation)
        as [h1 [chat|]] eqn:Hp.
      + destruct (IH (acc ++ [chat]) h1) as (added & -> & Hsub).
        exists (chat :: added). split; [now rewrite <- app_assoc|].
        simpl. rewrite (processConversation_chatId _ _ _ _ Hp).
        now apply sublist_skip.
      + destruct (IH acc h1) as (added & -> & Hsub).
        exists added. split; [reflexivity|]. now apply sublist_cons. }
  destruct (Hgen [] h) as (added & -> & Hsub). exact Hsub.
Qed.

Variable cache0 : Cache.
Variable uncached : list Conversation.t.

Hypothesis cache0_distinct : NoDup (chatIds cache0).
Hypothesis uncached_distinct : NoDup (map idOf uncached).
Hypothesis uncached_new :
  forall conversation, In conversation uncached -> ~ In (idOf conversation) (chatIds cache0).

(** A cache that extends the loaded one holds distinct ids. *)
Lemma extends_distinct (i : nat) (cache : Cache) :
  extends cache0 uncached i cache -> NoDup (chatIds cache).
Proof.
  intros (added & Hchats & Hsub). unfold chatIds. rewrite Hchats, map_app.
  assert (Hall : map ExportedChat.chatId added `sublist_of` map idOf uncached).
  { etrans; [exact Hsub|]. rewrite <- firstn_map. apply sublist_take. }
  apply NoDup_app. split; [exact cache0_distinct|]. split.
  - intros x Hold Hnew.
    pose proof (elem_of_sublist _ _ _ Hnew Hall) as Hin.
    apply list_elem_of_In, in_map_iff in Hin as (conversation & <- & Hin).
    apply (uncached_new conversation Hin). now apply list_elem_of_In.
  - eapply sublist_NoDup; [exact uncached_distinct|exact Hall].
Qed.

(** One batch keeps the invariant. *)
Lemma batchStep_invariant (k : nat) (st : Loop) :
  loopInvariant cache0 uncached (batchSize * k) st ->
  loopInvariant cache0 uncached (batchSize * k + batchSize)
    (batchStep dateParse cfg api uncached st k).
Proof.
  intros [(added & Hchats & Hsub) Hsaved]. unfold batchStep.
  pose proof (processBatch_ids (firstn batchSize (skipn (batchSize * k) uncached))
                (loopHeap st)) as Hbatch.
  destruct (processBatch dateParse cfg api (loopHeap st) _) as [h' results].
  cbn [snd] in Hbatch.
  assert (Hext : extends cache0 uncached (batchSize * k + batchSize)
                   {| chats := chats (loopCache st) ++ results;
                      lastProcessedBatch := batchSize * k / batchSize + 1;
                      totalBatches := batchCount (length uncached) |}).
  { exists (added ++ results). cbn [chats]. split; [now rewrite Hchats, app_assoc|].
    rewrite <- take_take_drop, !map_app. now apply sublist_app. }
  destruct (0 <? length results); split; cbn [loopCache loopSaved].
  - exact Hext.
  - apply Forall_app. split; [exact Hsaved|].
    constructor; [|constructor]. eapply extends_distinct, Hext.
  - exists added. split; [exact Hchats|].
    rewrite <- take_take_drop, map_app. now apply sublist_inserts_r.
  - exact Hsaved.
Qed.

(** So does every run of consecutive batches. *)
Lemma batchLoop_invariant_from (len start : nat) (st : Loop) :
  loopInvariant cache0 uncached (batchSize * start) st ->
  loopInvariant cache0 uncached (batchSize * (start + len))
    (fold_left (batchStep dateParse cfg api uncached) (seq start len) st).
Proof.
  revert start st. induction len as [|len IH]; intros start st Hinv; simpl.
  - now rewrite Nat.add_0_r.
  - replace (start + S len) with (S start + len) by lia.
    apply IH. replace (batchSize * S start) with (batchSize * start + batchSize) by lia.
    now apply batchStep_invariant.
Qed.

(** After the batch loop every cache that was saved, and the one in
    memory, hold pairwise distinct chat ids. *)
Lemma batchLoop_distinct (h : gmap loc (list Message.t)) (files : gmap string FileContent) :
  let st := batchLoop dateParse cfg api uncached
              {| loopHeap := h; loopCache := cache0; loopSaved := [];
                 loopFiles := files; newChatsCount := 0 |} in
  NoDup (chatIds (loopCache st)) /\
  Forall (fun saved => NoDup (chatIds saved)) (loopSaved st).
Proof.
  intros st. subst st. unfold batchLoop.
  pose proof (batchLoop_invariant_from (batchCount (length uncached)) 0
                {| loopHeap := h; loopCache := cache0; loopSaved := [];
                   loopFiles := files; newChatsCount := 0 |}) as Hloop.
  destruct Hloop as [Hext Hsaved].
  - split; [|constructor]. exists []. cbn [loopCache]. split; [now rewrite app_nil_r|].
    constructor.
  - split; [eapply extends_distinct; exact Hext|exact Hsaved].
Qed.

End BatchInvariant.


(** ** The final date filter *)

(** The chats a run through BatchProcess writes all pass the date filter. *)
Lemma export_batches_date_filtered
    (dateParse : string -> option Z) (cfg : Config) (api : string -> Response)
    (h : gmap loc (list Message.t)) (files : gmap string FileContent)
    (cache : Cache) (conversations : list Conversation.t) (output : Output) :
  uncachedOf cache (snd (filterConversationsByDepartment cfg conversations)) <> [] ->
  runOutput (export dateParse cfg api h files cache conversations) = Some output ->
  Forall (fun chat => onOrAfterFromDate dateParse cfg chat = true) (outputChats output).
Proof.
  intros Hnew. rewrite export_batches by exact Hnew. cbv zeta. cbn [runOutput].
  intros [= <-]. cbn [outputChats].
  apply Forall_forall. intros chat Hin.
  apply list_elem_of_In, filter_In in Hin. tauto.
Qed.

(** * Concrete runs *)

(** C1 at a run that finds nothing new. With [fromDate] 2024-01-01, a cache
    that holds a chat of 2020 next to chat 7, and a fetch that returns
    conversation 7 alone, the output file is written with the whole cache:
    it lists the chat of 2020, which the date filter rejects. *)
Theorem nothing_new_output_is_not_date_filtered :
  let run := export exampleDates exampleConfig apiDown ∅ ∅ staleCache
               [conversationWith 7 1710000000 None] in
  exists output,
    runOutput run = Some output /\
    runFiles run !! outputFile exampleConfig = Some (JsonOf output) /\
    In (chatWith "1" 1600000000) (outputChats output) /\
    onOrAfterFromDate exampleDates exampleConfig (chatWith "1" 1600000000) = false.
Proof.
  eexists. split; [vm_compute; reflexivity|].
  split; [vm_compute; reflexivity|].
  split; [now left|reflexivity].
Qed.


(** *** Message fetcher *)

(** C3 as stated fails on an empty array: the specification has the probe go
    on to the second candidate and return its message, the code accepts the
    empty array of the first candidate and returns it. *)
Lemma empty_array_ends_the_probe :
  getChatMessages apiEmptyThenOne (IdNum 7) = [] /\
  getChatMessagesAsSpecified apiEmptyThenOne (possibleEndpoints (idToString (IdNum 7))) =
    [textMessage "customer" "hi" (JNum 10)] /\
  getChatMessages apiEmptyThenOne (IdNum 7) <>
    getChatMessagesAsSpecified apiEmptyThenOne (possibleEndpoints (idToString (IdNum 7))).
Proof.
  split; [vm_compute; reflexivity|]. split; [vm_compute; reflexivity|].
  vm_compute. discriminate.
Qed.

(** The probe passes the failing first candidate and returns the array the
    second holds under [messages]; with every candidate failing it returns
    the empty sequence. *)
Lemma getChatMessages_first_array_witness :
  getChatMessages apiSecondAnswers (IdNum 7) = [textMessage "customer" "hi" (JNum 10)] /\
  getChatMessages apiDown (IdNum 7) = [].
Proof.
  pose proof (getChatMessages_first_array apiSecondAnswers (IdNum 7)) as (_ & _ & Hfirst & _).
  pose proof (getChatMessages_first_array apiDown (IdNum 7)) as (_ & _ & _ & Hnone).
  split.
  - apply (Hfirst ["/v1/chats/7/messages"] "/chats/7/messages"
             ["/v1/conversations/7/messages"; "/conversations/7/messages"; "/v1/chats/7"]
             [textMessage "customer" "hi" (JNum 10)]).
    + reflexivity.
    + intros e [<-|[]]. reflexivity.
    + reflexivity.
  - apply Hnone. intros e _. reflexivity.
Defined.

(** *** Department filter *)

(** C5 as stated fails for a conversation without an assignee: it is not
    given the department 'OSL', and the filter for 'OSL' drops it. *)
Lemma unassigned_gets_no_department :
  Conversation.department (backfillDepartment unassigned) = None /\
  nameOf (Conversation.department (backfillDepartment unassigned)) <> Some "OSL" /\
  snd (filterConversationsByDepartment exampleConfig [unassigned]) = [].
Proof. split; [reflexivity|]. split; [discriminate|reflexivity]. Qed.

(** The backfill on a conversation assigned to the Squid team and on one
    without an assignee: the first gets the department 'SQUID', which the
    filter for 'OSL' drops. *)
Lemma department_filter_backfill_witness :
  nameOf (Conversation.department (backfillDepartment squidAssigned)) = Some "SQUID" /\
  Conversation.assignee (backfillDepartment squidAssigned) =
    Some {| name := Some "Squid Team" |} /\
  backfillDepartment unassigned = unassigned /\
  map (fun conversation => nameOf (Conversation.department conversation))
      (fst (filterConversationsByDepartment exampleConfig [squidAssigned; unassigned])) =
    [Some "SQUID"; None].
Proof.
  pose proof (department_filter_backfill exampleConfig [squidAssigned; unassigned])
    as (Hmutated & _ & Hbackfill).
  destruct (Hbackfill squidAssigned) as (_ & Hassigned & _).
  destruct (Hbackfill unassigned) as (_ & _ & Hnone).
  assert (Hsquid : backfillDepartment squidAssigned =
                   Conversation.mk (IdNum 10) JUndefined (JNum 1710000000) JUndefined JUndefined
                     (JNum 1) None (Some {| name := Some "Squid Team" |}) None
                     (Some {| name := Some "SQUID" |}) None).
  { rewrite Hassigned; [reflexivity|reflexivity|]. left. discriminate. }
  assert (Hun : backfillDepartment unassigned = unassigned).
  { apply Hnone; [reflexivity|]. intros [H|H]; apply H; reflexivity. }
  rewrite Hmutated. cbn [map]. rewrite Hsquid, Hun.
  split; [reflexivity|]. split; [reflexivity|]. split; reflexivity.
Defined.

(** *** Formatter *)

(** Three messages, one of them technical: the count is 3 and the text has
    the two other messages. *)
Lemma message_count_includes_tech_witness :
  exists h' chat,
    formatConversationWithMessages exampleDates exampleConfig exampleHeap
      (conversationWith 7 1710000000 (Some 0)) 0 = Some (h', chat) /\
    ExportedChat.messageCount chat = 3 /\
    ExportedChat.conversationText chat = "[USER] hi" +:+ nl +:+ "[AGENT] hello" /\
    2 < ExportedChat.messageCount chat.
Proof.
  destruct (message_count_includes_tech exampleDates exampleConfig exampleHeap
              (conversationWith 7 1710000000 (Some 0)) 0 unsortedMessages)
    as (h' & chat & sorted & Hformat & _ & Hperm & Hcount & _ & Hmore).
  - reflexivity.
  - simpl. lia.
  - exists h', chat. split; [exact Hformat|]. split; [exact Hcount|].
    split.
    + vm_compute in Hformat. injection Hformat as _ <-. reflexivity.
    + rewrite Hcount. cbn [unsortedMessages length]. lia.
Defined.

(** The tagging example, formatted from the heap. *)
Lemma transcript_tags_and_trims_witness :
  exists h' chat,
    formatConversationWithMessages exampleDates exampleConfig exampleHeap
      (conversationWith 7 1710000000 (Some 1)) 1 = Some (h', chat) /\
    ExportedChat.conversationText chat = "[USER] hi" +:+ nl +:+ "[AGENT] hello".
Proof.
  destruct (transcript_tags_and_trims exampleDates exampleConfig exampleHeap
              (conversationWith 7 1710000000 (Some 1)) 1 hiHello)
    as (h' & chat & sorted & Hformat & _ & _ & _ & _ & Hexample).
  - reflexivity.
  - simpl. lia.
  - exists h', chat. split; [exact Hformat|]. apply Hexample. reflexivity.
Defined.

(** An inline array stored newest first is left oldest first; the other
    array of the heap is untouched. *)
Lemma format_sorts_callers_array_witness :
  exists h' chat,
    processConversation exampleDates exampleConfig apiDown exampleHeap
      (conversationWith 7 1710000000 (Some 0)) = (h', Some chat) /\
    h' !! 0 = Some [ textMessage "customer" "hi" (JNum 10);
                     techMessage "request_rating" (JNum 15);
                     textMessage "agent" " hello " (JNum 20) ] /\
    h' !! (0 : loc) <> exampleHeap !! (0 : loc) /\
    h' !! (1 : loc) = exampleHeap !! (1 : loc).
Proof.
  destruct (format_sorts_callers_array exampleDates exampleConfig apiDown exampleHeap
              (conversationWith 7 1710000000 (Some 0)) 0 unsortedMessages)
    as (h' & chat & sorted & _ & Hstored & _ & _ & Horder & Hframe & Hprocess).
  - reflexivity.
  - assert (Hsorted : sorted = [ textMessage "customer" "hi" (JNum 10);
                                 techMessage "request_rating" (JNum 15);
                                 textMessage "agent" " hello " (JNum 20) ]).
    { rewrite Horder; [reflexivity|]. left. repeat constructor; discriminate. }
    rewrite Hsorted in Hstored.
    exists h', chat. split; [apply Hprocess; reflexivity|].
    split; [exact Hstored|]. split.
    + intros Hsame. rewrite Hstored in Hsame. discriminate Hsame.
    + apply Hframe. lia.
Defined.

(** *** Cache and output files *)


(** The default output name gets its CSV name and both files are written;
    with the output name [export.txt] the CSV summary replaces the JSON
    export; and for a conversation whose [createdAt] is out of the range of
    dates the run fails with the export in place and no summary. *)
Lemma csv_summary_name_and_overwrite_witness :
  let run := export exampleDates exampleConfig apiDown ∅ ∅ emptyCache
               [conversationWith 7 1710000000 None] in
  let runText := export exampleDates textConfig apiDown ∅ ∅ emptyCache
                   [conversationWith 7 1710000000 None] in
  let runLate := export exampleDates exampleConfig apiDown ∅ ∅ emptyCache
                   [conversationWith 7 1710000000000000 None] in
  replaceFirst ".json" "_summary.csv" "exported_chats.json" = "exported_chats_summary.csv" /\
  replaceFirst ".json" "_summary.csv" "export.txt" = "export.txt" /\
  (exists output csvContent,
      generateCSVSummary output = Some csvContent /\
      runFiles run !! "exported_chats.json" = Some (JsonOf output) /\
      runFiles run !! "exported_chats_summary.csv" = Some (CsvText csvContent)) /\
  (exists output csvContent,
      generateCSVSummary output = Some csvContent /\
      runOutput runText = Some output /\
      runFiles runText !! "export.txt" = Some (CsvText csvContent)) /\
  (exists output,
      runFailed runLate = true /\
      runFiles runLate !! "exported_chats.json" = Some (JsonOf output) /\
      runFiles runLate !! "exported_chats_summary.csv" = None).
Proof.
  intros run runText runLate.
  pose proof (csv_summary_name_and_overwrite exampleDates exampleConfig apiDown ∅ ∅
                emptyCache [conversationWith 7 1710000000 None]) as (Hfirst & _ & Hrun).
  pose proof (csv_summary_name_and_overwrite exampleDates textConfig apiDown ∅ ∅
                emptyCache [conversationWith 7 1710000000 None]) as (_ & Habsent & HrunText).
  pose proof (csv_summary_name_and_overwrite exampleDates exampleConfig apiDown ∅ ∅
                emptyCache [conversationWith 7 1710000000000000 None]) as (_ & _ & HrunLate).
  assert (Hname : replaceFirst ".json" "_summary.csv" "exported_chats.json"
                  = "exported_chats_summary.csv").
  { apply (Hfirst "exported_chats" EmptyString); [reflexivity|].
    intros k Hk. simpl in Hk.
    do 14 (destruct k as [|k]; [reflexivity|]). lia. }
  cbn [outputFile exampleConfig textConfig cacheFile] in Hrun, HrunText, HrunLate.
  rewrite Hname in Hrun, HrunLate.
  split; [exact Hname|]. split; [apply Habsent; reflexivity|]. split; [|split].
  - destruct Hrun as (output & Houtput & Hcsv & _); [discriminate|].
    destruct (generateCSVSummary output) as [csvContent|] eqn:Hcontent.
    + destruct (Hcsv csvContent eq_refl) as (_ & Hsummary & Hjson & _).
      exists output, csvContent. split; [exact Hcontent|].
      split; [apply Hjson; discriminate|exact Hsummary].
    + vm_compute in Houtput. injection Houtput as <-.
      vm_compute in Hcontent. discriminate.
  - destruct HrunText as (output & Houtput & Hcsv & _); [discriminate|].
    destruct (generateCSVSummary output) as [csvContent|] eqn:Hcontent.
    + destruct (Hcsv csvContent eq_refl) as (_ & _ & _ & Hover).
      exists output, csvContent. split; [exact Hcontent|].
      split; [exact Houtput|apply Hover; reflexivity].
    + vm_compute in Houtput. injection Houtput as <-.
      vm_compute in Hcontent. discriminate.
  - destruct HrunLate as (output & Houtput & _ & Hthrows); [discriminate|].
    assert (Hnone : generateCSVSummary output = None).
    { vm_compute in Houtput. injection Houtput as <-. vm_compute. reflexivity. }
    destruct (Hthrows Hnone) as (Hfailed & Hjson & Hsummary).
    exists output. split; [exact Hfailed|]. split; [exact Hjson|].
    unfold runLate. rewrite Hsummary; [reflexivity|discriminate|discriminate].
Defined.

(** *** Categorizer *)


(** Two chats with the same transcript and different agents and customers. *)
Lemma categorize_ignores_agent_and_customer_witness :
  categorizeConversation "the swap failed" (Some "Ana") (Some "Bo") =
  categorizeConversation "the swap failed" None (Some "Cy") /\
  csvCategory (ExportedChat.mk "1" "OSL" JNull JNull JNull None (Some "Bo") (Some "Ana")
                 None 1 "[USER] the swap failed" true) =
  csvCategory (ExportedChat.mk "2" "OSL" JNull JNull JNull None (Some "Cy") None
                 None 1 "[USER] the swap failed" true).
Proof.
  destruct (categorize_ignores_agent_and_customer "the swap failed"
              (Some "Ana") (Some "Bo") None (Some "Cy")
              (ExportedChat.mk "1" "OSL" JNull JNull JNull None (Some "Bo") (Some "Ana")
                 None 1 "[USER] the swap failed" true)
              (ExportedChat.mk "2" "OSL" JNull JNull JNull None (Some "Cy") None
                 None 1 "[USER] the swap failed" true)) as [Hcall Hcsv].
  split; [exact Hcall|]. apply Hcsv. reflexivity.
Defined.

(** * Further properties *)

(** ** Cache merge *)

Lemma filter_none {A : Type} (p : A -> bool) (l : list A) :
  (forall x, In x l -> p x = false) -> List.filter p l = [].
Proof.
  induction l as [|x l IH]; simpl; intros Hall; [reflexivity|].
  rewrite (Hall x) by now left. apply IH. intros y Hy. apply Hall. now right.
Qed.

(** The test of the merge filter rejects exactly the cached ids. *)
Lemma merge_test_spec (cachedChats : list ExportedChat.t) (chat : ExportedChat.t) :
  negb (bool_decide
          (ExportedChat.chatId chat ∈
             (list_to_set (map ExportedChat.chatId cachedChats) : gset string))) = true <->
  ~ In (ExportedChat.chatId chat) (map ExportedChat.chatId cachedChats).
Proof.
  rewrite negb_true_iff, bool_decide_eq_false, elem_of_list_to_set, list_elem_of_In.
  reflexivity.
Qed.

(** X1. Merging keeps chat ids distinct: when the cached chats have pairwise
    distinct ids and so have the new chats, the merged list has pairwise
    distinct ids. *)
Theorem mergeWithCache_distinct (cachedChats newChats : list ExportedChat.t) :
  NoDup (map ExportedChat.chatId cachedChats) ->
  NoDup (map ExportedChat.chatId newChats) ->
  NoDup (map ExportedChat.chatId (mergeWithCache cachedChats newChats)).
Proof.
  intros Hcached Hnew. unfold mergeWithCache. rewrite map_app.
  apply NoDup_app. split; [exact Hcached|]. split.
  - intros i Hold Hin.
    apply list_elem_of_In, in_map_iff in Hin as (chat & <- & Hin).
    apply filter_In in Hin as [_ Htest]. apply merge_test_spec in Htest.
    apply Htest. now apply list_elem_of_In.
  - now apply NoDup_map_filter.
Qed.

(** X2. Merging the same new chats a second time adds nothing. *)
Theorem mergeWithCache_again (cachedChats newChats : list ExportedChat.t) :
  mergeWithCache (mergeWithCache cachedChats newChats) newChats =
  mergeWithCache cachedChats newChats.
Proof.
  unfold mergeWithCache at 1.
  rewrite filter_none; [apply app_nil_r|].
  intros chat Hin. apply not_true_iff_false. intros Htest.
  apply merge_test_spec in Htest. apply Htest.
  unfold mergeWithCache. rewrite map_app. apply in_or_app.
  destruct (in_dec string_dec (ExportedChat.chatId chat)
              (map ExportedChat.chatId cachedChats)) as [Hcached|Hfresh];
    [now left|right].
  apply in_map, filter_In. split; [exact Hin|]. now apply merge_test_spec.
Qed.

(** X3. For every chat id, the merged list holds the cached chats of that
    id and, when no cached chat has the id, all the new chats of that id,
    repeated ones included; when a cached chat has the id it holds no new
    chat of that id. *)
Theorem mergeWithCache_by_id (cachedChats newChats : list ExportedChat.t) (i : string) :
  List.filter (hasChatId i) (mergeWithCache cachedChats newChats) =
  List.filter (hasChatId i) cachedChats ++
  (if existsb (hasChatId i) cachedChats then []
   else List.filter (hasChatId i) newChats).
Proof.
  unfold mergeWithCache. rewrite List.filter_app. f_equal.
  destruct (existsb (hasChatId i) cachedChats) eqn:Hcached.
  - apply existsb_exists in Hcached as (cached & Hin & Hid).
    apply String.eqb_eq in Hid.
    induction newChats as [|chat newChats IH]; simpl; [reflexivity|].
    destruct (negb (bool_decide _)) eqn:Htest; simpl; [|exact IH].
    destruct (hasChatId i chat) eqn:Hchat; [|exact IH].
    exfalso. apply merge_test_spec in Htest. apply Htest.
    apply String.eqb_eq in Hchat. rewrite Hchat, <- Hid. now apply in_map.
  - induction newChats as [|chat newChats IH]; simpl; [reflexivity|].
    destruct (hasChatId i chat) eqn:Hchat.
    + assert (Htest : negb (bool_decide
                (ExportedChat.chatId chat ∈
                   (list_to_set (map ExportedChat.chatId cachedChats) : gset string)))
              = true).
      { apply merge_test_spec. intros Hin.
        apply in_map_iff in Hin as (cached & Hid & Hin).
        apply String.eqb_eq in Hchat.
        assert (Hsome : existsb (hasChatId i) cachedChats = true).
        { apply existsb_exists. exists cached. split; [exact Hin|].
          apply String.eqb_eq. congruence. }
        congruence. }
      rewrite Htest. simpl. rewrite Hchat. f_equal. exact IH.
    + destruct (negb (bool_decide _)); simpl; [rewrite Hchat|]; exact IH.
Qed.

(** ** Conversation fetcher *)

Section FetcherFacts.

Variable dateParse : string -> option Z.
Variable dateOfSeconds : string -> option Z.
Variable cfg : Config.
Variable listApi : nat -> ListResponse.

(** The first page of a run of pages. *)
Lemma keptOfPages_first (first pages : nat) :
  keptOfPages dateParse dateOfSeconds cfg listApi first (S pages) =
  List.filter (createdOnOrAfter dateParse dateOfSeconds cfg)
              (pageItems listApi (pageLimit * first)) ++
  keptOfPages dateParse dateOfSeconds cfg listApi (S first) pages.
Proof. reflexivity. Qed.

(** The loop returns at the first page that ends it, with what the pages
    up to that one have kept. *)
Lemma fetchPages_returns (fuel first : nat) (acc conversations : list Conversation.t) :
  fetchPages dateParse dateOfSeconds cfg listApi fuel (pageLimit * first) acc
    = Fetched conversations <->
  exists last,
    first <= last < first + fuel /\
    (forall page, first <= page < last -> pageContinues dateOfSeconds listApi page) /\
    pageEnds dateOfSeconds listApi last /\
    conversations =
      acc ++ keptOfPages dateParse dateOfSeconds cfg listApi first (S last - first).
Proof.
  revert first acc. induction fuel as [|fuel IH]; intros first acc.
  { cbn [fetchPages]. split; [discriminate|]. intros (last & Hrange & _). lia. }
  assert (Hstop : forall kept : list Conversation.t,
    pageEnds dateOfSeconds listApi first ->
    List.filter (createdOnOrAfter dateParse dateOfSeconds cfg)
                (pageItems listApi (pageLimit * first)) = kept ->
    Fetched (acc ++ kept) = Fetched conversations ->
    exists last,
      first <= last < first + S fuel /\
      (forall page, first <= page < last -> pageContinues dateOfSeconds listApi page) /\
      pageEnds dateOfSeconds listApi last /\
      conversations =
        acc ++ keptOfPages dateParse dateOfSeconds cfg listApi first (S last - first)).
  { intros kept Hends Hkept [= <-]. exists first. split; [lia|]. split; [lia|].
    split; [exact Hends|].
    replace (S first - first) with 1 by lia.
    rewrite keptOfPages_first, Hkept. unfold keptOfPages. cbn [seq flat_map].
    now rewrite app_nil_r. }
  assert (Hgo : forall page, pageContinues dateOfSeconds listApi page ->
                             pageEnds dateOfSeconds listApi page -> False).
  { intros page (body & items & total & Hpage & Hitems & _ & Htotal & Hmore)
               (body' & Hpage' & Hends).
    rewrite Hpage in Hpage'. injection Hpage' as <-.
    rewrite Hitems, Htotal in Hends. lia. }
  split.
  - cbn [fetchPages].
    destruct (listApi (pageLimit * first)) as [|[body|]] eqn:Hpage; [discriminate| |].
    2: { intros Hacc. apply (Hstop []); [now exists None| |now rewrite app_nil_r].
         unfold pageItems. now rewrite Hpage. }
    destruct (listData body) as [items|] eqn:Hitems.
    2: { intros Hacc. apply (Hstop []); [| |now rewrite app_nil_r].
         - exists (Some body). split; [exact Hpage|]. now rewrite Hitems.
         - unfold pageItems. now rewrite Hpage, Hitems. }
    destruct (pageDatesPrintable dateOfSeconds items) eqn:Hprint; [|discriminate].
    assert (Hhere : pageItems listApi (pageLimit * first) = items).
    { unfold pageItems. now rewrite Hpage, Hitems. }
    destruct (listTotal body) as [total|] eqn:Htotal.
    2: { apply Hstop; [|now rewrite Hhere].
         exists (Some body). split; [exact Hpage|]. now rewrite Hitems, Hprint, Htotal. }
    destruct (Z.ltb_spec (Z.of_nat (pageLimit * first + pageLimit)) total) as [Hmore|Hlast].
    2: { apply Hstop; [|now rewrite Hhere].
         exists (Some body). split; [exact Hpage|]. now rewrite Hitems, Hprint, Htotal. }
    replace (pageLimit * first + pageLimit) with (pageLimit * S first) by lia.
    intros Hrest. apply IH in Hrest as (last & Hrange & Hpages & Hends & ->).
    exists last. split; [lia|]. split; [|split; [exact Hends|]].
    + intros page Hpage'. destruct (Nat.eq_dec page first) as [->|Hne]; [|apply Hpages; lia].
      exists body, items, total. repeat split; auto.
    + replace (S last - first) with (S (S last - S first)) by lia.
      now rewrite keptOfPages_first, Hhere, app_assoc.
  - intros (last & Hrange & Hpages & Hends & ->). cbn [fetchPages].
    destruct (Nat.eq_dec last first) as [->|Hne].
    + replace (S first - first) with 1 by lia. rewrite keptOfPages_first.
      unfold keptOfPages at 1. cbn [seq flat_map]. rewrite app_nil_r. unfold pageItems.
      destruct Hends as (body & -> & Hends).
      destruct body as [body|]; [|now rewrite app_nil_r].
      destruct (listData body) as [items|]; [|now rewrite app_nil_r].
      destruct Hends as [-> Htotal].
      destruct (listTotal body) as [total|]; [|reflexivity].
      destruct (Z.ltb_spec (Z.of_nat (pageLimit * first + pageLimit)) total); [lia|reflexivity].
    + destruct (Hpages first ltac:(lia)) as (body & items & total & Hpage & Hitems & Hprint
                                              & Htotal & Hmore).
      rewrite Hpage, Hitems, Hprint, Htotal.
      apply Z.ltb_lt in Hmore. rewrite Hmore.
      replace (pageLimit * first + pageLimit) with (pageLimit * S first) by lia.
      apply IH. exists last. split; [lia|]. split; [|split; [exact Hends|]].
      * intros page Hpage'. apply Hpages. lia.
      * replace (S last - first) with (S (S last - S first)) by lia.
        rewrite keptOfPages_first. unfold pageItems. rewrite Hpage, Hitems.
        now rewrite app_assoc.
Qed.

(** More requests than the loop makes change nothing. *)
Lemma fetchPages_more_fuel (fuel more offset : nat) (acc : list Conversation.t) :
  fetchPages dateParse dateOfSeconds cfg listApi fuel offset acc <> FetchOutOfFuel ->
  fetchPages dateParse dateOfSeconds cfg listApi (fuel + more) offset acc =
  fetchPages dateParse dateOfSeconds cfg listApi fuel offset acc.
Proof.
  revert offset acc. induction fuel as [|fuel IH]; intros offset acc; cbn [fetchPages Nat.add]; [congruence|].
  destruct (listApi offset) as [|[body|]]; try reflexivity.
  destruct (listData body) as [items|]; try reflexivity.
  destruct (pageDatesPrintable dateOfSeconds items); try reflexivity.
  destruct (listTotal body) as [total|]; try reflexivity.
  destruct (Z.of_nat (offset + pageLimit) <? total)%Z; try reflexivity.
  apply IH.
Qed.

Lemma fetchPages_terminates (bound : Z) (fuel offset : nat) (acc : list Conversation.t) :
  totalsBelow listApi bound ->
  1 <= fuel -> (bound <= Z.of_nat (offset + pageLimit * fuel))%Z ->
  fetchPages dateParse dateOfSeconds cfg listApi fuel offset acc <> FetchOutOfFuel.
Proof.
  intros Hbound. revert offset acc.
  induction fuel as [|fuel IH]; intros offset acc Hfuel Hle; cbn [fetchPages]; [lia|].
  destruct (listApi offset) as [|[body|]] eqn:Hpage; try discriminate.
  destruct (listData body) as [items|]; try discriminate.
  destruct (pageDatesPrintable dateOfSeconds items); try discriminate.
  destruct (listTotal body) as [total|] eqn:Htotal; try discriminate.
  destruct (Z.ltb_spec (Z.of_nat (offset + pageLimit)) total) as [Hmore|_]; try discriminate.
  pose proof (Hbound offset body total Hpage Htotal) as Htop.
  unfold pageLimit in *. apply IH; lia.
Qed.

Lemma fetchPages_breaks (pages : nat) :
  forall (fuel first : nat) (acc : list Conversation.t),
    (forall page, first <= page < first + pages -> pageContinues dateOfSeconds listApi page) ->
    pageBreaks dateOfSeconds listApi (first + pages) ->
    pages < fuel ->
    fetchPages dateParse dateOfSeconds cfg listApi fuel (pageLimit * first) acc = FetchThrew.
Proof.
  induction pages as [|pages IH]; intros fuel first acc Hgo Hbreak Hfuel;
    (destruct fuel as [|fuel]; [lia|]); cbn [fetchPages].
  - rewrite Nat.add_0_r in Hbreak.
    destruct Hbreak as [->|(body & items & -> & Hitems & Hprint)]; [reflexivity|].
    now rewrite Hitems, Hprint.
  - destruct (Hgo first ltac:(lia)) as (body & items & total & -> & -> & -> & -> & Hmore).
    apply Z.ltb_lt in Hmore. rewrite Hmore.
    replace (pageLimit * first + pageLimit) with (pageLimit * S first) by lia.
    apply IH; [|now replace (S first + pages) with (first + S pages) by lia|lia].
    intros page Hrange. apply Hgo. lia.
Qed.

End FetcherFacts.

(** X4. [getConversations] returns exactly when the loop comes, within the
    requests it may make, to a page that ends it without an error, every
    page before that one being a printable array that announces more; it
    then returns the concatenation, in page order and in the order of each
    page, of the conversations of the pages up to that one whose
    [createdAt], read as seconds, is on or after [fromDate]. *)
Theorem getConversations_returns_kept_pages
    (dateParse dateOfSeconds : string -> option Z) (cfg : Config)
    (listApi : nat -> ListResponse) (fuel : nat) (conversations : list Conversation.t) :
  (getConversations dateParse dateOfSeconds cfg listApi fuel = Fetched conversations <->
   exists last,
     last < fuel /\
     (forall page, page < last -> pageContinues dateOfSeconds listApi page) /\
     pageEnds dateOfSeconds listApi last /\
     conversations = keptOfPages dateParse dateOfSeconds cfg listApi 0 (S last)) /\
  (getConversations dateParse dateOfSeconds cfg listApi fuel = Fetched conversations ->
   Forall (fun conversation =>
             createdOnOrAfter dateParse dateOfSeconds cfg conversation = true)
          conversations).
Proof.
  unfold getConversations.
  pose proof (fetchPages_returns dateParse dateOfSeconds cfg listApi fuel 0 [] conversations)
    as Hreturns.
  change (pageLimit * 0) with 0 in Hreturns.
  assert (Hiff : fetchPages dateParse dateOfSeconds cfg listApi fuel 0 [] = Fetched conversations
                 <-> exists last,
                       last < fuel /\
                       (forall page, page < last -> pageContinues dateOfSeconds listApi page) /\
                       pageEnds dateOfSeconds listApi last /\
                       conversations =
                         keptOfPages dateParse dateOfSeconds cfg listApi 0 (S last)).
  { rewrite Hreturns. split; intros (last & Hrange & Hpages & Hends & ->); exists last.
    - split; [lia|]. split; [intros page Hpage; apply Hpages; lia|]. split; [exact Hends|].
      now rewrite Nat.sub_0_r.
    - split; [lia|]. split; [intros page Hpage; apply Hpages; lia|]. split; [exact Hends|].
      now rewrite Nat.sub_0_r. }
  split; [exact Hiff|].
  intros Hfetched. apply Hiff in Hfetched as (last & _ & _ & _ & ->).
  apply Forall_forall. intros conversation Hin.
  apply list_elem_of_In in Hin. unfold keptOfPages in Hin.
  apply in_flat_map in Hin as (page & _ & Hin).
  apply filter_In in Hin. tauto.
Qed.

(** X5. Pagination ends: when no page reports a total above [bound], one
    request per started hundred of [bound] (and at least one) is enough for
    [getConversations] to finish, and allowing more requests does not
    change what it returns. *)
Theorem getConversations_terminates
    (dateParse dateOfSeconds : string -> option Z) (cfg : Config)
    (listApi : nat -> ListResponse) (bound : Z) (fuel more : nat) :
  totalsBelow listApi bound ->
  1 <= fuel -> (bound <= 100 * Z.of_nat fuel)%Z ->
  getConversations dateParse dateOfSeconds cfg listApi fuel <> FetchOutOfFuel /\
  getConversations dateParse dateOfSeconds cfg listApi (fuel + more) =
  getConversations dateParse dateOfSeconds cfg listApi fuel.
Proof.
  intros Hbound Hfuel Hle. unfold getConversations.
  assert (Hends : fetchPages dateParse dateOfSeconds cfg listApi fuel 0 [] <> FetchOutOfFuel).
  { apply (fetchPages_terminates _ _ _ _ bound); auto. unfold pageLimit. lia. }
  split; [exact Hends|]. now apply fetchPages_more_fuel.
Qed.

(** X6. A page that cannot be read loses the whole fetch: when the loop goes
    on through the pages before index [pages] and the request for page
    [pages] fails, or that page is an array whose first or last date is
    invalid (an empty array is one), [getConversations] throws and returns
    none of the conversations collected so far. *)
Theorem getConversations_throws_on_bad_page
    (dateParse dateOfSeconds : string -> option Z) (cfg : Config)
    (listApi : nat -> ListResponse) (fuel pages : nat) :
  (forall page, page < pages -> pageContinues dateOfSeconds listApi page) ->
  pageBreaks dateOfSeconds listApi pages ->
  pages < fuel ->
  getConversations dateParse dateOfSeconds cfg listApi fuel = FetchThrew.
Proof.
  intros Hgo Hbreak Hfuel. unfold getConversations.
  change 0 with (pageLimit * 0).
  apply (fetchPages_breaks dateParse dateOfSeconds cfg listApi pages); auto.
  intros page Hrange. apply Hgo. lia.
Qed.

(** ** What a run does to the heap, the cache and the files *)

Lemma heapPreserved_refl (h : gmap loc (list Message.t)) : heapPreserved h h.
Proof. intros r l Hr. exists l. now split. Qed.

Lemma heapPreserved_trans (h1 h2 h3 : gmap loc (list Message.t)) :
  heapPreserved h1 h2 -> heapPreserved h2 h3 -> heapPreserved h1 h3.
Proof.
  intros H12 H23 r l Hr. destruct (H12 r l Hr) as (l2 & Hr2 & Hp2).
  destruct (H23 r l2 Hr2) as (l3 & Hr3 & Hp3). exists l3. split; [exact Hr3|].
  now rewrite Hp2.
Qed.

Lemma refsValid_preserved (h h' : gmap loc (list Message.t))
    (conversations : list Conversation.t) :
  heapPreserved h h' -> refsValid h conversations -> refsValid h' conversations.
Proof.
  intros Hheap Hvalid conversation r Hin Hinline.
  destruct (Hvalid conversation r Hin Hinline) as [l Hl].
  destruct (Hheap r l Hl) as (l' & Hl' & _). now exists l'.
Qed.

Lemma backfillDepartment_messages (conversation : Conversation.t) :
  Conversation.messages (backfillDepartment conversation) =
  Conversation.messages conversation.
Proof.
  unfold backfillDepartment.
  destruct (Conversation.department conversation); [reflexivity|].
  destruct (Conversation.assignee conversation), (Conversation.assigned_agent conversation);
    try reflexivity;
    destruct (strOr _ _) as [assigneeName|]; try reflexivity;
    destruct (String.eqb assigneeName "Squid Team"); reflexivity.
Qed.

Section RunFacts.

Variable dateParse : string -> option Z.
Variable cfg : Config.
Variable api : string -> Response.

(** Formatting sorts one array and leaves the others alone. *)
Lemma format_heap (h h' : gmap loc (list Message.t)) (conversation : Conversation.t)
    (r : loc) (chat : ExportedChat.t) :
  formatConversationWithMessages dateParse cfg h conversation r = Some (h', chat) ->
  heapPreserved h h'.
Proof.
  unfold formatConversationWithMessages.
  destruct (h !! r) as [arr|] eqn:Harr; [|discriminate].
  destruct (length arr =? 0); intros [= <- _]; [apply heapPreserved_refl|].
  intros r' l Hr'. destruct (decide (r' = r)) as [->|Hne].
  - exists (sortMessages dateParse arr). rewrite lookup_insert_eq. split; [reflexivity|].
    rewrite Harr in Hr'. injection Hr' as <-. apply sortMessages_perm.
  - exists l. rewrite lookup_insert_ne by congruence. now split.
Qed.

Lemma processConversation_heap (h : gmap loc (list Message.t))
    (conversation : Conversation.t) :
  heapPreserved h (fst (processConversation dateParse cfg api h conversation)).
Proof.
  unfold processConversation.
  destruct (Conversation.messages conversation) as [r|].
  - destruct (formatConversationWithMessages _ _ h conversation r) as [[h1 c]|] eqn:Hf;
      cbn [fst]; [eapply format_heap; eauto|apply heapPreserved_refl].
  - destruct (0 <? length _); cbn [fst]; [|apply heapPreserved_refl].
    set (fetched := getChatMessages api (Conversation.id conversation)).
    assert (Halloc : heapPreserved h (<[fresh (dom h) := fetched]> h)).
    { intros r l Hr. exists l. split; [|reflexivity].
      rewrite lookup_insert_ne; [exact Hr|].
      intros <-. pose proof (is_fresh (dom h)) as Hfresh.
      apply not_elem_of_dom in Hfresh. congruence. }
    destruct (formatConversationWithMessages _ _ _ conversation _) as [[h1 c]|] eqn:Hf;
      cbn [fst]; [|exact Halloc].
    eapply heapPreserved_trans; [exact Halloc|eapply format_heap; eauto].
Qed.

(** A conversation whose inline array is in the heap is always exported. *)
Lemma processConversation_some (h : gmap loc (list Message.t))
    (conversation : Conversation.t) :
  (forall r, Conversation.messages conversation = Some r -> is_Some (h !! r)) ->
  exists chat, snd (processConversation dateParse cfg api h conversation) = Some chat.
Proof.
  intros Hvalid. unfold processConversation.
  destruct (Conversation.messages conversation) as [r|].
  - destruct (Hvalid r eq_refl) as [arr Harr].
    unfold formatConversationWithMessages. rewrite Harr.
    destruct (length arr =? 0); eexists; reflexivity.
  - destruct (0 <? length _); [|eexists; reflexivity].
    unfold formatConversationWithMessages. rewrite lookup_insert_eq.
    destruct (length _ =? 0); eexists; reflexivity.
Qed.

Lemma processBatch_facts (batch : list Conversation.t) (h : gmap loc (list Message.t)) :
  heapPreserved h (fst (processBatch dateParse cfg api h batch)) /\
  (refsValid h batch ->
   map ExportedChat.chatId (snd (processBatch dateParse cfg api h batch)) =
   map idOf batch).
Proof.
  unfold processBatch.
  assert (Hgen : forall (acc : list ExportedChat.t) (h0 : gmap loc (list Message.t)),
    let result :=
      fold_left
        (fun st conversation =>
           match processConversation dateParse cfg api (fst st) conversation with
           | (h', Some chat) => (h', snd st ++ [chat])
           | (h', None) => (h', snd st)
           end) batch (h0, acc) in
    heapPreserved h0 (fst result) /\
    (refsValid h0 batch ->
     map ExportedChat.chatId (snd result) = map ExportedChat.chatId acc ++ map idOf batch)).
  { induction batch as [|conversation batch IH]; intros acc h0; cbn [fold_left fst snd].
    - split; [apply heapPreserved_refl|]. intros _. now rewrite app_nil_r.
    - pose proof (processConversation_heap h0 conversation) as Hstep.
      pose proof (processConversation_some h0 conversation) as Hsome.
      destruct (processConversation dateParse cfg api h0 conversation)
        as [h1 [chat|]] eqn:Hp; cbn [fst snd] in *.
      + destruct (IH (acc ++ [chat]) h1) as [Hheap Hids]. split.
        * eapply heapPreserved_trans; eauto.
        * intros Hvalid. rewrite Hids.
          -- rewrite map_app, <- app_assoc. cbn [map app].
             now rewrite (processConversation_chatId _ _ _ _ _ _ _ Hp).
          -- eapply refsValid_preserved; [exact Hstep|].
             intros c r Hin. apply Hvalid. now right.
      + destruct (IH acc h1) as [Hheap Hids]. split.
        * eapply heapPreserved_trans; eauto.
        * intros Hvalid. exfalso.
          destruct Hsome as [chat Hchat]; [|discriminate].
          intros r. apply Hvalid. now left. }
  destruct (Hgen [] h) as [Hheap Hids]. split; [exact Hheap|exact Hids].
Qed.

Variable h0 : gmap loc (list Message.t).
Variable cache0 : Cache.
Variable uncached : list Conversation.t.

Lemma checkpointOf_grows (added results : list ExportedChat.t) (batches : nat) (saved : Cache) :
  checkpointOf cache0 added batches saved ->
  checkpointOf cache0 (added ++ results) batches saved.
Proof.
  intros [(before & after & -> & Hne & Hchats) Hcount]. split; [|exact Hcount].
  exists before, (after ++ results). now rewrite app_assoc.
Qed.

Lemma batchStep_facts (k : nat) (st : Loop) :
  k < batchCount (length uncached) ->
  loopFacts h0 cache0 uncached (batchSize * k) st ->
  loopFacts h0 cache0 uncached (batchSize * k + batchSize)
    (batchStep dateParse cfg api uncached st k).
Proof.
  intros Hk (Hheap & added & Hchats & Hcount & Hlen & Hids & Hsaved & Hlast).
  unfold batchStep.
  set (batch := firstn batchSize (skipn (batchSize * k) uncached)).
  destruct (processBatch_facts batch (loopHeap st)) as [Hheap' Hids'].
  pose proof (sublist_length _ _ (processBatch_ids dateParse cfg api batch (loopHeap st)))
    as Hlen'.
  rewrite !length_map in Hlen'.
  destruct (processBatch dateParse cfg api (loopHeap st) batch) as [h' results].
  cbn [fst snd] in *.
  assert (Hheap2 : heapPreserved h0 h') by (eapply heapPreserved_trans; eauto).
  assert (Hbatch : refsValid h0 uncached -> refsValid (loopHeap st) batch).
  { intros Hvalid. eapply refsValid_preserved; [exact Hheap|].
    intros c r Hin. apply Hvalid. subst batch.
    apply list_elem_of_In in Hin. apply list_elem_of_In.
    apply (elem_of_sublist _ _ _ Hin).
    etrans; [apply sublist_take|apply sublist_drop]. }
  assert (Hidx : batchSize * k / batchSize + 1 = k + 1).
  { rewrite Nat.mul_comm, Nat.div_mul by (unfold batchSize; lia). reflexivity. }
  destruct results as [|chat results]; cbn [length Nat.ltb Nat.leb].
  - split; [exact Hheap2|]. exists added. cbn [loopCache loopSaved newChatsCount].
    split; [exact Hchats|]. split; [exact Hcount|]. split; [|split; [|now split]].
    { rewrite <- take_take_drop, length_app. lia. }
    intros Hvalid. rewrite Hids by exact Hvalid.
    specialize (Hids' (Hbatch Hvalid)). cbn [map] in Hids'.
    symmetry in Hids'. apply map_eq_nil in Hids'.
    rewrite <- take_take_drop. fold batch. now rewrite Hids', app_nil_r.
  - split; [exact Hheap2|]. exists (added ++ chat :: results).
    cbn [loopCache loopSaved newChatsCount chats].
    split; [now rewrite Hchats, app_assoc|].
    split; [rewrite Hcount, length_app; reflexivity|]. split; [|split; [|split]].
    + rewrite <- take_take_drop, !length_app. fold batch. cbn [length] in *. lia.
    + intros Hvalid. rewrite map_app, Hids, (Hids' (Hbatch Hvalid)) by exact Hvalid.
      unfold batch. rewrite <- map_app, take_take_drop. reflexivity.
    + apply Forall_app. split.
      * eapply Forall_impl; [exact Hsaved|]. intros saved. apply checkpointOf_grows.
      * constructor; [|constructor]. split; cbn [chats lastProcessedBatch totalBatches].
        -- exists (added ++ chat :: results), []. rewrite app_nil_r.
           split; [reflexivity|]. split; [now destruct added|].
           now rewrite Hchats, app_assoc.
        -- rewrite Hidx. lia.
    + now rewrite last_last.
Qed.

Lemma batchLoop_facts_from (len start : nat) (st : Loop) :
  start + len <= batchCount (length uncached) ->
  loopFacts h0 cache0 uncached (batchSize * start) st ->
  loopFacts h0 cache0 uncached (batchSize * (start + len))
    (fold_left (batchStep dateParse cfg api uncached) (seq start len) st).
Proof.
  revert start st. induction len as [|len IH]; intros start st Hle Hfacts; cbn [seq fold_left].
  - now rewrite Nat.add_0_r.
  - replace (start + S len) with (S start + len) by lia.
    apply IH; [lia|].
    replace (batchSize * S start) with (batchSize * start + batchSize) by lia.
    apply batchStep_facts; [lia|exact Hfacts].
Qed.

(** The batches cover all the uncached conversations. *)
Lemma batches_cover (n : nat) : n <= batchSize * batchCount n.
Proof.
  unfold batchCount, batchSize. cbn [Nat.sub].
  pose proof (Nat.div_mod_eq (n + 9) 10) as Hdiv.
  pose proof (Nat.mod_upper_bound (n + 9) 10 ltac:(lia)) as Hmod. lia.
Qed.

Lemma batchLoop_facts (files : gmap string FileContent) :
  loopFacts h0 cache0 uncached (length uncached)
    (batchLoop dateParse cfg api uncached
       {| loopHeap := h0; loopCache := cache0; loopSaved := [];
          loopFiles := files; newChatsCount := 0 |}).
Proof.
  unfold batchLoop.
  pose proof (batchLoop_facts_from (batchCount (length uncached)) 0
                {| loopHeap := h0; loopCache := cache0; loopSaved := [];
                   loopFiles := files; newChatsCount := 0 |} ltac:(lia)) as Hloop.
  destruct Hloop as (Hheap & added & Hchats & Hcount & Hlen & Hids & Hsaved & Hlast).
  - split; [apply heapPreserved_refl|]. exists []. cbn [loopCache loopSaved newChatsCount].
    split; [now rewrite app_nil_r|]. split; [reflexivity|].
    split; [cbn [length]; lia|]. split; [|now split].
    intros _. replace (batchSize * 0) with 0 by lia. reflexivity.
  - split; [exact Hheap|]. exists added.
    split; [exact Hchats|]. split; [exact Hcount|].
    split; [etrans; [exact Hlen|]; rewrite !length_firstn; lia|]. split; [|now split].
    intros Hvalid. rewrite Hids by exact Hvalid. cbn [Nat.add].
    rewrite !firstn_all2; [reflexivity|lia|apply batches_cover].
Qed.

End RunFacts.

(** The facts of the batch loop, for every path of [export]. *)
Lemma export_facts
    (dateParse : string -> option Z) (cfg : Config) (api : string -> Response)
    (h : gmap loc (list Message.t)) (files : gmap string FileContent)
    (cache : Cache) (conversations : list Conversation.t) :
  let run := export dateParse cfg api h files cache conversations in
  let uncached := uncachedOf cache (snd (filterConversationsByDepartment cfg conversations)) in
  heapPreserved h (runHeap run) /\
  exists added,
    chats (runCache run) = chats cache ++ added /\
    (forall output, runOutput run = Some output -> newChatsProcessed output = length added) /\
    length added <= length uncached /\
    (refsValid h uncached -> map ExportedChat.chatId added = map idOf uncached) /\
    Forall (checkpointOf cache added (batchCount (length uncached))) (runSaved run) /\
    runCache run = List.last (runSaved run) cache.
Proof.
  intros run uncached. subst run.
  assert (Hidle : forall (output : option Output) (pending : list Conversation.t),
    (forall o, output = Some o -> newChatsProcessed o = 0) ->
    pending = [] ->
    forall files' : gmap string FileContent,
    let run := {| runHeap := h; runCache := cache; runSaved := [];
                  runFiles := files'; runOutput := output; runFailed := false |} in
    heapPreserved h (runHeap run) /\
    exists added,
      chats (runCache run) = chats cache ++ added /\
      (forall o, runOutput run = Some o -> newChatsProcessed o = length added) /\
      length added <= length pending /\
      (refsValid h pending -> map ExportedChat.chatId added = map idOf pending) /\
      Forall (checkpointOf cache added (batchCount (length pending))) (runSaved run) /\
      runCache run = List.last (runSaved run) cache).
  { intros output pending Hzero -> files' run. subst run.
    cbn [runHeap runCache runSaved runOutput].
    split; [apply heapPreserved_refl|]. exists []. rewrite app_nil_r.
    split; [reflexivity|]. split; [exact Hzero|]. split; [cbn [length]; lia|].
    now repeat split. }
  unfold export.
  destruct (length conversations =? 0) eqn:Hconv.
  { apply Hidle; [discriminate|]. apply length_zero_nil in Hconv.
    subst uncached. now rewrite Hconv. }
  destruct (length (snd (filterConversationsByDepartment cfg conversations)) =? 0) eqn:Hf.
  { apply Hidle; [discriminate|]. apply length_zero_nil in Hf.
    subst uncached. now rewrite Hf. }
  fold uncached. destruct (length uncached =? 0) eqn:Hu.
  { apply Hidle; [now intros o [= <-]|now apply length_zero_nil]. }
  destruct (batchLoop_facts dateParse cfg api h cache uncached files)
    as (Hheap & added & Hchats & Hcount & Hlen & Hids & Hsaved & Hlast).
  cbv zeta. destruct (generateCSVSummary _); cbn [runHeap runCache runSaved runOutput].
  all: split; [exact Hheap|]; exists added; split; [exact Hchats|].
  all: split; [now intros o [= <-]|]; split; [now rewrite firstn_all in Hlen|].
  all: split; [|now split].
  all: intros Hvalid; rewrite Hids by exact Hvalid; now rewrite firstn_all.
Qed.

(** X7. A run only appends to the cache: the cache at the end is the loaded
    one followed by the chats processed in the run, whose number is what the
    output reports as [newChatsProcessed]; every cache saved on the way holds
    the loaded chats followed by a non-empty start of those additions. *)
Theorem export_appends_to_cache
    (dateParse : string -> option Z) (cfg : Config) (api : string -> Response)
    (h : gmap loc (list Message.t)) (files : gmap string FileContent)
    (cache : Cache) (conversations : list Conversation.t) :
  let run := export dateParse cfg api h files cache conversations in
  exists added,
    chats (runCache run) = chats cache ++ added /\
    (forall output, runOutput run = Some output -> newChatsProcessed output = length added) /\
    Forall (fun saved =>
              exists before after,
                added = before ++ after /\ before <> [] /\
                chats saved = chats cache ++ before)
           (runSaved run).
Proof.
  intros run.
  destruct (export_facts dateParse cfg api h files cache conversations)
    as (_ & added & Hchats & Hcount & _ & _ & Hsaved & _).
  exists added. split; [exact Hchats|]. split; [exact Hcount|].
  eapply Forall_impl; [exact Hsaved|]. intros saved [Hprefix _]. exact Hprefix.
Qed.

(** X8. Nothing stays unsaved: the cache in memory at the end of a run is
    the last cache that was saved, or the loaded cache when none was saved;
    and every saved cache carries a batch number between 1 and
    [totalBatches], the number of batches of ten the uncached conversations
    make. *)
Theorem export_ends_on_last_checkpoint
    (dateParse : string -> option Z) (cfg : Config) (api : string -> Response)
    (h : gmap loc (list Message.t)) (files : gmap string FileContent)
    (cache : Cache) (conversations : list Conversation.t) :
  let run := export dateParse cfg api h files cache conversations in
  let uncached := uncachedOf cache (snd (filterConversationsByDepartment cfg conversations)) in
  runCache run = List.last (runSaved run) cache /\
  Forall (fun saved =>
            1 <= lastProcessedBatch saved <= totalBatches saved /\
            totalBatches saved = batchCount (length uncached))
         (runSaved run).
Proof.
  intros run uncached.
  destruct (export_facts dateParse cfg api h files cache conversations)
    as (_ & added & _ & _ & _ & _ & Hsaved & Hlast).
  split; [exact Hlast|].
  eapply Forall_impl; [exact Hsaved|]. intros saved [_ Hcount]. exact Hcount.
Qed.

(** X9. A run loses no message: every array that was in the heap before the
    run is in the heap after it, with the same messages, possibly in another
    order. *)
Theorem export_keeps_messages
    (dateParse : string -> option Z) (cfg : Config) (api : string -> Response)
    (h : gmap loc (list Message.t)) (files : gmap string FileContent)
    (cache : Cache) (conversations : list Conversation.t)
    (r : loc) (messages : list Message.t) :
  h !! r = Some messages ->
  exists messages',
    runHeap (export dateParse cfg api h files cache conversations) !! r = Some messages' /\
    Permutation messages messages'.
Proof.
  destruct (export_facts dateParse cfg api h files cache conversations) as [Hheap _].
  apply Hheap.
Qed.


(** After a run in which every conversation could be formatted, every
    conversation that passed the department filter is in the cache. *)
Lemma export_caches_all_filtered
    (dateParse : string -> option Z) (cfg : Config) (api : string -> Response)
    (h : gmap loc (list Message.t)) (files : gmap string FileContent)
    (cache : Cache) (conversations : list Conversation.t) (conversation : Conversation.t) :
  refsValid h conversations ->
  In conversation (snd (filterConversationsByDepartment cfg conversations)) ->
  isConversationCached
    (runCache (export dateParse cfg api h files cache conversations))
    (Conversation.id conversation) = true.
Proof.
  intros Hvalid Hin.
  destruct (export_facts dateParse cfg api h files cache conversations)
    as (_ & added & Hchats & _ & _ & Hids & _).
  unfold isConversationCached. rewrite Hchats, existsb_app.
  destruct (existsb _ (chats cache)) eqn:Hcached; [reflexivity|]. cbn [orb].
  assert (Huncached : In conversation
            (uncachedOf cache (snd (filterConversationsByDepartment cfg conversations)))).
  { apply filter_In. split; [exact Hin|]. unfold isConversationCached. now rewrite Hcached. }
  assert (Hrefs : refsValid h
            (uncachedOf cache (snd (filterConversationsByDepartment cfg conversations)))).
  { intros c r Hc Hinline. apply filter_In in Hc as [Hc _].
    unfold filterConversationsByDepartment in Hc. cbn [snd] in Hc.
    apply filter_In in Hc as [Hc _]. apply in_map_iff in Hc as (c0 & <- & Hc0).
    rewrite backfillDepartment_messages in Hinline. eapply Hvalid; eauto. }
  specialize (Hids Hrefs).
  assert (Hid : In (idOf conversation) (map ExportedChat.chatId added)).
  { rewrite Hids. now apply in_map. }
  apply in_map_iff in Hid as (chat & Hid & Hchat).
  apply existsb_exists. exists chat. split; [exact Hchat|]. now apply String.eqb_eq.
Qed.


(** ** Formatter and sort *)

Section SortFacts.

Variable dateParse : string -> option Z.

(** A message is moved only past messages of a strictly earlier date. *)
Lemma insertMessage_by_key (key : option Z) (m : Message.t) (sorted : list Message.t) :
  List.filter (hasSortKey dateParse key) (insertMessage dateParse m sorted) =
  List.filter (hasSortKey dateParse key) (m :: sorted).
Proof.
  induction sorted as [|x sorted IH]; [reflexivity|]. cbn [insertMessage].
  destruct (notAfter dateParse m x) eqn:Hcmp; [reflexivity|].
  cbn [List.filter] in *. rewrite IH.
  unfold notAfter, compareMessages in Hcmp. unfold hasSortKey.
  destruct (messageTime dateParse m) as [tm|], (messageTime dateParse x) as [tx|];
    try discriminate.
  apply Z.leb_gt in Hcmp.
  repeat case_bool_decide; try reflexivity. exfalso.
  assert (tm = tx) by congruence. lia.
Qed.

Lemma sortMessages_unchanged_without_dates (messages : list Message.t) :
  Forall (fun m => messageTime dateParse m = None) messages ->
  sortMessages dateParse messages = messages.
Proof.
  induction 1 as [|m messages Hm _ IH]; [reflexivity|].
  cbn [sortMessages fold_right]. fold (sortMessages dateParse messages). rewrite IH.
  destruct messages as [|x messages]; [reflexivity|]. cbn [insertMessage].
  unfold notAfter, compareMessages. now rewrite Hm.
Qed.

Lemma sortMessages_unchanged_when_sorted (messages : list Message.t) :
  StronglySorted (timeLe dateParse) messages ->
  sortMessages dateParse messages = messages.
Proof.
  induction 1 as [|m messages _ IH Hm]; [reflexivity|].
  cbn [sortMessages fold_right]. fold (sortMessages dateParse messages). rewrite IH.
  destruct messages as [|x messages]; [reflexivity|]. cbn [insertMessage].
  apply Forall_inv in Hm. destruct Hm as (tm & tx & Hm & Hx & Hle).
  unfold notAfter, compareMessages. rewrite Hm, Hx.
  destruct (Z.leb_spec (tm - tx) 0); [reflexivity|lia].
Qed.

End SortFacts.

(** X12. The sort keeps the order of the API among messages of the same
    date: when the dates of the array are all valid, or all invalid, the
    messages of each date are in the sorted array in the order they had
    before. *)
Theorem sortMessages_stable
    (dateParse : string -> option Z) (key : option Z) (messages : list Message.t) :
  datesComparable dateParse messages ->
  List.filter (hasSortKey dateParse key) (sortMessages dateParse messages) =
  List.filter (hasSortKey dateParse key) messages.
Proof.
  intros _. induction messages as [|m messages IH]; [reflexivity|].
  cbn [sortMessages fold_right]. fold (sortMessages dateParse messages).
  rewrite insertMessage_by_key. cbn [List.filter]. now rewrite IH.
Qed.

(** X13. Sorting leaves the array as it is when no message has a valid date,
    and when the messages already are in ascending order of valid dates. *)
Theorem sortMessages_unchanged
    (dateParse : string -> option Z) (messages : list Message.t) :
  Forall (fun m => messageTime dateParse m = None) messages \/
  StronglySorted (timeLe dateParse) messages ->
  sortMessages dateParse messages = messages.
Proof.
  intros [Hnone|Hsorted];
    [now apply sortMessages_unchanged_without_dates
    |now apply sortMessages_unchanged_when_sorted].
Qed.

(** X14. Every chat [processConversation] exports carries the
    organization id of the exporter; it has [hasMessages] exactly when its
    [messageCount] is positive, and without messages its transcript is
    empty.  An inline array is counted whole, whatever its length, while
    messages fetched from the API are counted after the cut to the first
    100. *)
Theorem processConversation_chat_shape
    (dateParse : string -> option Z) (cfg : Config) (api : string -> Response)
    (h h' : gmap loc (list Message.t)) (conversation : Conversation.t)
    (chat : ExportedChat.t) :
  processConversation dateParse cfg api h conversation = (h', Some chat) ->
  ExportedChat.organizationId chat = organizationId cfg /\
  (ExportedChat.hasMessages chat = true <-> 0 < ExportedChat.messageCount chat) /\
  (ExportedChat.hasMessages chat = false ->
   ExportedChat.conversationText chat = EmptyString) /\
  (forall r messages,
      Conversation.messages conversation = Some r -> h !! r = Some messages ->
      ExportedChat.messageCount chat = length messages) /\
  (Conversation.messages conversation = None ->
   ExportedChat.messageCount chat =
     length (getChatMessages api (Conversation.id conversation)) /\
   ExportedChat.messageCount chat <= 100).
Proof.
  assert (Hformat : forall (h1 h2 : gmap loc (list Message.t)) (r : loc),
    formatConversationWithMessages dateParse cfg h1 conversation r = Some (h2, chat) ->
    ExportedChat.organizationId chat = organizationId cfg /\
    (ExportedChat.hasMessages chat = true <-> 0 < ExportedChat.messageCount chat) /\
    (ExportedChat.hasMessages chat = false ->
     ExportedChat.conversationText chat = EmptyString) /\
    (forall messages, h1 !! r = Some messages ->
                      ExportedChat.messageCount chat = length messages)).
  { intros h1 h2 r. unfold formatConversationWithMessages.
    destruct (h1 !! r) as [arr|]; [|discriminate].
    destruct arr as [|m arr]; cbn [length Nat.eqb]; intros [= _ <-]; cbn.
    - split; [reflexivity|]. split; [split; [discriminate|lia]|].
      split; [reflexivity|]. now intros messages [= <-].
    - split; [reflexivity|]. split; [split; [lia|reflexivity]|].
      split; [discriminate|]. now intros messages [= <-]. }
  pose proof (tryEndpoints_length api
                (possibleEndpoints (idToString (Conversation.id conversation)))) as Hcut.
  fold (getChatMessages api (Conversation.id conversation)) in Hcut.
  unfold processConversation.
  destruct (Conversation.messages conversation) as [r|].
  - destruct (formatConversationWithMessages _ _ h conversation r) as [[h1 c]|] eqn:Hf;
      intros [= _ <-].
    destruct (Hformat _ _ _ Hf) as (Horg & Hhas & Htext & Hcount).
    split; [exact Horg|]. split; [exact Hhas|]. split; [exact Htext|].
    split; [|discriminate]. intros r' messages [= <-]. apply Hcount.
  - destruct (0 <? length _) eqn:Hfetched.
    + destruct (formatConversationWithMessages _ _ _ conversation _) as [[h1 c]|] eqn:Hf;
        intros [= _ <-].
      destruct (Hformat _ _ _ Hf) as (Horg & Hhas & Htext & Hcount).
      split; [exact Horg|]. split; [exact Hhas|]. split; [exact Htext|].
      split; [discriminate|]. intros _.
      rewrite (Hcount _ (lookup_insert_eq _ _ _)). split; [reflexivity|exact Hcut].
    + intros [= _ <-]. apply Nat.ltb_ge in Hfetched.
      cbn [formatConversationMetadata ExportedChat.organizationId ExportedChat.hasMessages
           ExportedChat.messageCount ExportedChat.conversationText].
      split; [reflexivity|]. split; [split; [discriminate|lia]|].
      split; [reflexivity|]. split; [discriminate|]. intros _. lia.
Qed.

(** X15. Messages without content give an empty transcript: when every
    message of a non-empty array is of type 'tech' or has a body that is
    empty once trimmed, the exported chat has an empty [conversationText]
    while it still counts all the messages and has [hasMessages]. *)
Theorem transcript_empty_without_content
    (dateParse : string -> option Z) (cfg : Config)
    (h : gmap loc (list Message.t)) (conversation : Conversation.t)
    (r : loc) (messages : list Message.t) :
  h !! r = Some messages -> length messages <> 0 ->
  Forall (fun m => hasContent m = false) messages ->
  exists h' chat,
    formatConversationWithMessages dateParse cfg h conversation r = Some (h', chat) /\
    ExportedChat.conversationText chat = EmptyString /\
    ExportedChat.messageCount chat = length messages /\
    ExportedChat.hasMessages chat = true.
Proof.
  intros Hr Hne Hblank.
  assert (Hsorted : Forall (fun m => hasContent m = false) (sortMessages dateParse messages)).
  { eapply Permutation_Forall; [apply sortMessages_perm|exact Hblank]. }
  unfold formatConversationWithMessages. rewrite Hr.
  destruct messages as [|m messages]; [simpl in Hne; congruence|].
  cbn [length Nat.eqb]. eexists _, _. split; [reflexivity|].
  cbn [ExportedChat.conversationText ExportedChat.messageCount ExportedChat.hasMessages].
  split; [|now split].
  rewrite fold_appendMessage. unfold transcriptOf.
  rewrite filter_none; [reflexivity|].
  intros x Hx. apply list_elem_of_In in Hx.
  now apply (proj1 (Forall_forall _ _) Hsorted).
Qed.

(** ** Categorizer *)

Lemma toLowerChar_twice (c : ascii) : toLowerChar (toLowerChar c) = toLowerChar c.
Proof. destruct c as [[] [] [] [] [] [] [] []]; reflexivity. Qed.

Lemma toLowerCase_twice (s : string) : toLowerCase (toLowerCase s) = toLowerCase s.
Proof.
  induction s as [|c s IH]; [reflexivity|].
  cbn [toLowerCase]. now rewrite toLowerChar_twice, IH.
Qed.

(** A keyword that is counted occurs in the text. *)
Lemma countFrom_occurs (keyword : string) (text : string) (skip : nat) :
  0 < countFrom keyword skip text -> includes keyword text = true.
Proof.
  revert skip. induction text as [|c text IH]; intros skip; cbn [countFrom]; [lia|].
  rewrite includes_unfold. destruct skip as [|skip].
  - destruct (String.prefix keyword (String c text)); [reflexivity|].
    intros Hpos. cbn [orb]. eapply IH; eauto.
  - intros Hpos. rewrite (IH _ Hpos). apply orb_true_r.
Qed.

Lemma countMatches_occurs (keyword text : string) :
  0 < countMatches keyword text -> includes keyword text = true.
Proof.
  unfold countMatches. destruct keyword as [|c keyword].
  - intros _. rewrite includes_unfold. now destruct text.
  - apply countFrom_occurs.
Qed.

Lemma scoreKeywords_occurs (text : string) (keywords : list string) :
  0 < scoreKeywords text keywords ->
  exists keyword, In keyword keywords /\ includes keyword text = true.
Proof.
  unfold scoreKeywords.
  assert (Hgen : forall acc,
    acc < fold_left (fun a keyword => a + countMatches keyword text) keywords acc ->
    exists keyword, In keyword keywords /\ includes keyword text = true).
  { induction keywords as [|keyword keywords IH]; intros acc; cbn [fold_left]; [lia|].
    intros Hgrow.
    destruct (Nat.eq_dec (countMatches keyword text) 0) as [Hzero|Hpos].
    - rewrite Hzero, Nat.add_0_r in Hgrow.
      destruct (IH acc Hgrow) as (k & Hin & Hk). exists k. split; [now right|exact Hk].
    - exists keyword. split; [now left|]. apply countMatches_occurs. lia. }
  apply Hgen.
Qed.

(** X16. A category other than the default is never returned without cause:
    when [categorizeConversation] returns another label than 'general
    inquiry', one of that category's keywords occurs in the lower-cased
    transcript; and when no keyword of any category occurs in it, the
    result is 'general inquiry'. *)
Theorem categorize_needs_keyword
    (conversationText : string) (assignedAgent customerName : option string) :
  (forall label,
      categorizeConversation conversationText assignedAgent customerName = Some label ->
      label <> "general inquiry" ->
      exists keywords keyword,
        In (label, keywords) categories /\ In keyword keywords /\
        includes keyword (toLowerCase conversationText) = true) /\
  ((forall entry keyword,
       In entry categories -> In keyword (snd entry) ->
       includes keyword (toLowerCase conversationText) = false) ->
   categorizeConversation conversationText assignedAgent customerName =
     Some "general inquiry").
Proof.
  unfold categorizeConversation.
  set (text := toLowerCase conversationText).
  set (maxScore := maxOf (map snd (scoresOf text))). split.
  - intros label. destruct (Nat.eqb_spec maxScore 0) as [Hzero|Hpos]; [congruence|].
    intros Hfind _.
    assert (Hin : In maxScore (map snd (scoresOf text))) by (apply maxOf_attained; lia).
    destruct (findKey_first (scoresOf text) maxScore Hin)
      as (before & found & after & Hsplit & Hfound & _).
    rewrite Hfound in Hfind. injection Hfind as ->.
    assert (Hentry : In (label, maxScore) (scoresOf text)).
    { rewrite Hsplit. apply in_or_app. right. now left. }
    unfold scoresOf in Hentry. apply in_map_iff in Hentry as ([l keywords] & [= -> Hscore] & Hcat).
    cbn [snd] in Hscore.
    destruct (scoreKeywords_occurs text keywords ltac:(lia)) as (keyword & Hk & Hocc).
    exists keywords, keyword. now repeat split.
  - intros Hnone. destruct (Nat.eqb_spec maxScore 0) as [Hzero|Hpos]; [reflexivity|].
    exfalso. apply Hpos. apply maxOf_zero. intros v Hv.
    apply in_map_iff in Hv as ([l score] & <- & Hentry). cbn [snd].
    unfold scoresOf in Hentry. apply in_map_iff in Hentry as (entry & [= _ <-] & Hcat).
    destruct (Nat.eq_dec (scoreKeywords text (snd entry)) 0) as [Hz|Hp]; [exact Hz|].
    destruct (scoreKeywords_occurs text (snd entry) ltac:(lia)) as (keyword & Hk & Hocc).
    rewrite (Hnone entry keyword Hcat Hk) in Hocc. discriminate.
Qed.

(** X17. The category does not depend on letter case: a transcript and its
    lower-cased form get the same category, and so do any two transcripts
    that are equal once lower-cased. *)
Theorem categorize_ignores_case
    (text1 text2 : string) (agent1 customer1 agent2 customer2 : option string) :
  categorizeConversation (toLowerCase text1) agent1 customer1 =
  categorizeConversation text1 agent1 customer1 /\
  (toLowerCase text1 = toLowerCase text2 ->
   categorizeConversation text1 agent1 customer1 =
   categorizeConversation text2 agent2 customer2).
Proof.
  unfold categorizeConversation. split.
  - now rewrite toLowerCase_twice.
  - now intros ->.
Qed.

(** ** Department filter and constructor *)

Lemma backfillDepartment_cases (conversation : Conversation.t) :
  backfillDepartment conversation = conversation \/
  exists d, backfillDepartment conversation = withDepartment conversation d.
Proof.
  unfold backfillDepartment.
  destruct (Conversation.department conversation); [now left|].
  destruct (Conversation.assignee conversation), (Conversation.assigned_agent conversation);
    try (now left);
    destruct (strOr _ _) as [assigneeName|]; try (right; eexists; reflexivity);
    destruct (String.eqb assigneeName "Squid Team"); right; eexists; reflexivity.
Qed.

Lemma backfillDepartment_twice (conversation : Conversation.t) :
  backfillDepartment (backfillDepartment conversation) = backfillDepartment conversation.
Proof.
  destruct (backfillDepartment_cases conversation) as [Hsame|[d Hset]].
  - now rewrite Hsame.
  - rewrite Hset. reflexivity.
Qed.

Lemma filter_twice {A : Type} (p : A -> bool) (l : list A) :
  List.filter p (List.filter p l) = List.filter p l.
Proof.
  induction l as [|x l IH]; [reflexivity|]. cbn [List.filter].
  destruct (p x) eqn:Hx; [|exact IH]. cbn [List.filter]. now rewrite Hx, IH.
Qed.

(** X18. Filtering by department a second time changes nothing: on the
    conversations the filter has kept, the backfill is the identity and the
    filter keeps them all. *)
Theorem department_filter_twice (cfg : Config) (conversations : list Conversation.t) :
  let kept := snd (filterConversationsByDepartment cfg conversations) in
  filterConversationsByDepartment cfg kept = (kept, kept).
Proof.
  intros kept. subst kept. unfold filterConversationsByDepartment. cbn [snd].
  set (mutated := map backfillDepartment conversations).
  assert (Hsame : map backfillDepartment (List.filter (keepForDepartment cfg) mutated)
                  = List.filter (keepForDepartment cfg) mutated).
  { rewrite <- (map_id (List.filter (keepForDepartment cfg) mutated)) at 2.
    apply map_ext_in. intros c Hc. apply filter_In in Hc as [Hc _].
    subst mutated. apply in_map_iff in Hc as (c0 & <- & _).
    apply backfillDepartment_twice. }
  rewrite Hsame. f_equal. apply filter_twice.
Qed.

Lemma envOr_value (env : gmap string string) (variable value : string) :
  envOr env variable EmptyString = value -> value <> EmptyString ->
  env !! variable = Some value.
Proof.
  unfold envOr. destruct (env !! variable) as [v|]; [|congruence].
  destruct (String.eqb_spec v EmptyString); congruence.
Qed.

(** X19. An exporter built from the environment always filters by
    department: the constructor succeeds only with a non-empty API key and
    organization id, it sets [departmentFilter] to the organization id, and
    so every conversation its department filter keeps has the organization
    id as department name. *)
Theorem newExporter_always_filters
    (env : gmap string string) (exporter : Exporter)
    (conversations : list Conversation.t) :
  newExporter env = Some exporter ->
  let cfg := exporterConfig exporter in
  apiKey exporter <> EmptyString /\
  organizationId cfg <> EmptyString /\
  departmentFilter cfg = Some (organizationId cfg) /\
  Forall (fun conversation =>
            nameOf (Conversation.department conversation) = Some (organizationId cfg))
         (snd (filterConversationsByDepartment cfg conversations)).
Proof.
  intros Hnew cfg. subst cfg. unfold newExporter in Hnew.
  destruct (String.eqb_spec (envOr env "HELPCRUNCH_API_KEY" EmptyString) EmptyString)
    as [|Hkey]; [discriminate|].
  destruct (String.eqb_spec (envOr env "HELPCRUNCH_ORGANIZATION_ID" EmptyString) EmptyString)
    as [|Horg]; [discriminate|].
  cbn [orb] in Hnew. injection Hnew as <-.
  cbn [exporterConfig apiKey organizationId departmentFilter].
  assert (Hfilter : env !! "HELPCRUNCH_ORGANIZATION_ID" =
                    Some (envOr env "HELPCRUNCH_ORGANIZATION_ID" EmptyString))
    by now apply envOr_value.
  split; [exact Hkey|]. split; [exact Horg|]. split; [exact Hfilter|].
  apply Forall_forall. intros conversation Hin.
  apply list_elem_of_In in Hin. unfold filterConversationsByDepartment in Hin.
  cbn [snd] in Hin. apply filter_In in Hin as [_ Hkeep].
  apply keepForDepartment_spec in Hkeep.
  unfold inDepartment, filterUnset in Hkeep. cbn [departmentFilter] in Hkeep.
  rewrite Hfilter in Hkeep.
  destruct Hkeep as [[Hnone|Hempty]|Hname]; [discriminate|congruence|exact Hname].
Qed.

(** ** The two date filters *)

Lemma processConversation_createdAt
    (dateParse : string -> option Z) (cfg : Config) (api : string -> Response)
    (h h' : gmap loc (list Message.t)) (conversation : Conversation.t)
    (chat : ExportedChat.t) :
  processConversation dateParse cfg api h conversation = (h', Some chat) ->
  ExportedChat.createdAt chat =
  jsOr (Conversation.created_at conversation)
       (jsOr (Conversation.createdAt conversation) JNull).
Proof.
  assert (Hformat : forall (h1 h2 : gmap loc (list Message.t)) (r : loc),
    formatConversationWithMessages dateParse cfg h1 conversation r = Some (h2, chat) ->
    ExportedChat.createdAt chat =
    jsOr (Conversation.created_at conversation)
         (jsOr (Conversation.createdAt conversation) JNull)).
  { intros h1 h2 r. unfold formatConversationWithMessages.
    destruct (h1 !! r) as [arr|]; [|discriminate].
    destruct (length arr =? 0); intros [= _ <-]; reflexivity. }
  unfold processConversation.
  destruct (Conversation.messages conversation) as [r|].
  - destruct (formatConversationWithMessages _ _ h conversation r) as [[h1 c]|] eqn:Hf;
      intros [= _ <-]. eapply Hformat; eauto.
  - destruct (0 <? length _).
    + destruct (formatConversationWithMessages _ _ _ conversation _) as [[h1 c]|] eqn:Hf;
        intros [= _ <-]. eapply Hformat; eauto.
    + intros [= _ <-]. reflexivity.
Qed.

(** X20. The date filter of the fetch and the date filter of the final
    export agree on a conversation that has no [created_at] and a numeric,
    non-zero [createdAt] of at most 8640000000000 seconds in magnitude: it
    passes the one exactly when its exported chat passes the other. *)
Theorem date_filters_agree
    (dateParse dateOfSeconds : string -> option Z) (cfg : Config)
    (api : string -> Response) (h h' : gmap loc (list Message.t))
    (conversation : Conversation.t) (chat : ExportedChat.t) (seconds : Z) :
  processConversation dateParse cfg api h conversation = (h', Some chat) ->
  truthy (Conversation.created_at conversation) = false ->
  Conversation.createdAt conversation = JNum seconds ->
  seconds <> 0%Z -> (Z.abs seconds <= 8640000000000)%Z ->
  createdOnOrAfter dateParse dateOfSeconds cfg conversation =
  onOrAfterFromDate dateParse cfg chat.
Proof.
  intros Hchat Hsnake Hcamel Hnonzero Hrange.
  unfold createdOnOrAfter, onOrAfterFromDate.
  rewrite (processConversation_createdAt _ _ _ _ _ _ _ Hchat).
  unfold jsOr. rewrite Hsnake, Hcamel. cbn [truthy dateOfUnix parseInt].
  destruct (Z.eqb_spec seconds 0) as [|_]; [contradiction|]. cbn [negb].
  destruct (Z.leb_spec (Z.abs (seconds * 1000)) 8640000000000000) as [_|Hbig]; [|lia].
  reflexivity.
Qed.

(** ** CSV summary *)

(** The year the date column shows is the one ECMAScript defines: the
    year that starts on or before the day and whose successor starts after
    it. *)
Lemma yearFromDay_spec (day : Z) :
  (dayFromYear (yearFromDay day) <= day < dayFromYear (yearFromDay day + 1))%Z.
Proof.
  unfold yearFromDay.
  set (y := (1970 + day * 400 / 146097)%Z).
  assert (Hy : (146097 * (y - 1970) <= day * 400 < 146097 * (y - 1970) + 146097)%Z).
  { subst y. Z.div_mod_to_equations. lia. }
  clearbody y.
  assert (Hlow : (dayFromYear (y - 1) <= day)%Z).
  { unfold dayFromYear. Z.div_mod_to_equations. lia. }
  assert (Hhigh : (day < dayFromYear (y + 2))%Z).
  { unfold dayFromYear. Z.div_mod_to_equations. lia. }
  destruct (Z.leb_spec (dayFromYear (y + 1)) day) as [H1|H1].
  - split; [exact H1|]. replace (y + 1 + 1)%Z with (y + 2)%Z by lia. exact Hhigh.
  - destruct (Z.leb_spec (dayFromYear y) day) as [H0|H0].
    + split; [exact H0|exact H1].
    + split; [exact Hlow|]. replace (y - 1 + 1)%Z with y by lia. exact H0.
Qed.

Lemma plainText_append (a b : string) :
  plainText (a +:+ b) = plainText a && plainText b.
Proof.
  induction a as [|c a IH]; [reflexivity|].
  rewrite append_cons. cbn [plainText]. rewrite IH. now rewrite andb_assoc.
Qed.

Lemma plainText_uint (d : Decimal.uint) : plainText (NilEmpty.string_of_uint d) = true.
Proof. induction d; cbn [NilEmpty.string_of_uint plainText]; auto. Qed.

Lemma plainText_count (n : nat) : plainText (countToString n) = true.
Proof.
  unfold countToString, NilZero.string_of_uint.
  destruct (Nat.to_uint n); try reflexivity; apply plainText_uint.
Qed.

Lemma plainText_number (z : Z) : plainText (numberToString z) = true.
Proof.
  unfold numberToString, NilZero.string_of_int.
  destruct (Z.to_int z) as [d|d]; unfold NilZero.string_of_uint;
    destruct d; try reflexivity; cbn [plainText]; try apply plainText_uint;
    rewrite plainText_uint; reflexivity.
Qed.

Lemma plainText_padZeros (width : nat) (s : string) :
  plainText s = true -> plainText (padZeros width s) = true.
Proof.
  intros Hs. unfold padZeros. rewrite plainText_append, Hs, andb_true_r.
  induction (width - String.length s) as [|k IH]; [reflexivity|].
  cbn [repeat String.concat]. destruct (repeat "0" k) eqn:Hk; [reflexivity|].
  rewrite plainText_append, plainText_append. rewrite IH. reflexivity.
Qed.

Lemma plainText_isoDate (ms : Z) : plainText (isoDate ms) = true.
Proof.
  unfold isoDate.
  destruct (monthAndDate _ _) as [month date].
  rewrite !plainText_append, !plainText_padZeros by apply plainText_number.
  destruct ((0 <=? _) && _)%Z.
  - now rewrite plainText_padZeros by apply plainText_number.
  - rewrite plainText_append, plainText_padZeros by apply plainText_number.
    now destruct (_ <? 0)%Z.
Qed.

Lemma findKey_label (scores : list (string * nat)) (wanted : nat) (label : string) :
  findKey scores wanted = Some label -> In label (map fst scores).
Proof.
  unfold findKey. destruct (List.find _ scores) as [entry|] eqn:Hfind; [|discriminate].
  intros [= <-]. apply find_some in Hfind as [Hin _]. now apply in_map.
Qed.

Lemma plainText_category (text : string) (agent customer : option string) :
  plainText (orEmpty (categorizeConversation text agent customer)) = true.
Proof.
  unfold categorizeConversation.
  destruct (_ =? 0); [reflexivity|].
  destruct (findKey _ _) as [label|] eqn:Hfind; [|reflexivity].
  apply findKey_label in Hfind. rewrite scoresOf_labels in Hfind.
  cbn [orEmpty].
  assert (Hall : forallb plainText categoryLabels = true) by (vm_compute; reflexivity).
  rewrite forallb_forall in Hall. now apply Hall.
Qed.

Lemma comma_append (rest : string) : comma +:+ rest = String (ascii_of_nat 44) rest.
Proof. reflexivity. Qed.

Lemma dq_append (rest : string) : dq +:+ rest = String (ascii_of_nat 34) rest.
Proof. reflexivity. Qed.

(** A plain field is read up to the comma that ends it. *)
Lemma parseCsv_plain (field current rest : string) :
  plainText field = true ->
  parseCsv InPlain current (field +:+ comma +:+ rest) =
  option_map (cons (current +:+ field)) (parseCsv AtStart EmptyString rest).
Proof.
  revert current. induction field as [|c field IH]; intros current Hplain.
  - change (EmptyString +:+ comma +:+ rest) with (comma +:+ rest).
    rewrite comma_append, append_empty_r. reflexivity.
  - cbn [plainText] in Hplain. apply andb_true_iff in Hplain as [Hc Hplain].
    apply negb_true_iff in Hc. apply orb_false_elim in Hc as [Hc Hbreak].
    apply orb_false_elim in Hc as [Hcomma Hquote].
    rewrite append_cons. cbn [parseCsv]. rewrite Hcomma, Hquote, Hbreak. cbn [orb].
    rewrite IH by exact Hplain. rewrite append_assoc. reflexivity.
Qed.

Lemma parseCsv_plain_field (field rest : string) :
  plainText field = true ->
  parseCsv AtStart EmptyString (field +:+ comma +:+ rest) =
  option_map (cons field) (parseCsv AtStart EmptyString rest).
Proof.
  destruct field as [|c field]; intros Hplain.
  - reflexivity.
  - cbn [plainText] in Hplain. apply andb_true_iff in Hplain as [Hc Hplain].
    apply negb_true_iff in Hc. apply orb_false_elim in Hc as [Hc Hbreak].
    apply orb_false_elim in Hc as [Hcomma Hquote].
    rewrite append_cons. cbn [parseCsv]. rewrite Hcomma, Hquote, Hbreak.
    now rewrite parseCsv_plain.
Qed.

(** An escaped value is read back up to its closing quote. *)
Lemma parseCsv_quoted (value current tail : string) :
  parseCsv InQuoted current (doubleQuotes value +:+ dq +:+ tail) =
  parseCsv AfterQuote (current +:+ value) tail.
Proof.
  revert current. induction value as [|c value IH]; intros current.
  - change (doubleQuotes EmptyString +:+ dq +:+ tail) with (dq +:+ tail).
    rewrite dq_append, append_empty_r. reflexivity.
  - cbn [doubleQuotes]. fold (isQuote c). destruct (isQuote c) eqn:Hc.
    + rewrite !append_cons. cbn [parseCsv]. rewrite Hc. rewrite IH.
      unfold isQuote in Hc. apply Ascii.eqb_eq in Hc. subst c.
      rewrite append_assoc. reflexivity.
    + rewrite append_cons. cbn [parseCsv]. rewrite Hc, IH, append_assoc. reflexivity.
Qed.

Lemma parseCsv_quoted_field (value rest : string) :
  parseCsv AtStart EmptyString (quoteField value +:+ comma +:+ rest) =
  option_map (cons value) (parseCsv AtStart EmptyString rest).
Proof.
  unfold quoteField. rewrite !append_assoc, dq_append. cbn [parseCsv].
  change (isQuote (ascii_of_nat 34)) with true. cbn iota.
  rewrite parseCsv_quoted, comma_append. reflexivity.
Qed.

Lemma parseCsv_last_quoted_field (value : string) :
  parseCsv AtStart EmptyString (quoteField value) = Some [value].
Proof.
  unfold quoteField. rewrite dq_append. cbn [parseCsv].
  change (isQuote (ascii_of_nat 34)) with true. cbn iota.
  rewrite <- (append_empty_r (doubleQuotes value +:+ dq)), append_assoc.
  rewrite parseCsv_quoted. reflexivity.
Qed.

(** X21. The escaping of the CSV fields is sound: a value wrapped in quotes
    with its quotes doubled, whatever commas, quotes and line breaks it
    holds, is read back by a CSV reader as one field holding that value. *)
Theorem quoteField_reads_back (value : string) :
  parseCsvRow (quoteField value) = Some [value].
Proof. apply parseCsv_last_quoted_field. Qed.

(** X22. A row of the summary reads back as its twelve values, provided the
    three columns written without quotes from the chat (chat id, status,
    department) hold no comma, double quote or line break: the reader
    returns the chat id, the date, the status, the customer name, the
    customer email, the agent, the department, the message count, the
    category, the first user message and last agent response cut to 100
    characters, and the summary. *)
Theorem csvRow_reads_back (chat : ExportedChat.t) (row : string) :
  csvRow chat = Some row ->
  plainText (ExportedChat.chatId chat) = true ->
  plainText (joinText (ExportedChat.status chat)) = true ->
  plainText (orEmpty (ExportedChat.department chat)) = true ->
  exists date,
    csvDate chat = Some date /\
    parseCsvRow row =
    Some [ ExportedChat.chatId chat;
           date;
           joinText (ExportedChat.status chat);
           orEmpty (ExportedChat.customerName chat);
           orEmpty (ExportedChat.customerEmail chat);
           orEmpty (ExportedChat.assignedAgent chat);
           orEmpty (ExportedChat.department chat);
           countToString (ExportedChat.messageCount chat);
           orEmpty (categorizeConversation (ExportedChat.conversationText chat)
                      (ExportedChat.assignedAgent chat) (ExportedChat.customerName chat));
           takeChars 100 (firstUserMessage chat);
           takeChars 100 (lastAgentResponse chat);
           csvSummary chat ].
Proof.
  unfold csvRow. destruct (csvDate chat) as [date|] eqn:Hdate; [|discriminate].
  intros [= <-] Hid Hstatus Hdepartment. exists date. split; [reflexivity|].
  assert (Hplain : plainText date = true).
  { unfold csvDate in Hdate. destruct (parseInt _) as [seconds|]; [|discriminate].
    destruct (_ <=? _)%Z; [|discriminate]. injection Hdate as <-. apply plainText_isoDate. }
  unfold parseCsvRow, csvFields. cbn [String.concat].
  rewrite parseCsv_plain_field by exact Hid.
  rewrite parseCsv_plain_field by exact Hplain.
  rewrite parseCsv_plain_field by exact Hstatus.
  rewrite !parseCsv_quoted_field.
  rewrite parseCsv_plain_field by exact Hdepartment.
  rewrite parseCsv_plain_field by apply plainText_count.
  rewrite parseCsv_plain_field by apply plainText_category.
  rewrite !parseCsv_quoted_field, parseCsv_last_quoted_field.
  reflexivity.
Qed.

Lemma csvRows_none (chatList : list ExportedChat.t) :
  csvRows chatList = None <-> Exists (fun chat => csvDate chat = None) chatList.
Proof.
  induction chatList as [|chat chatList IH]; cbn [csvRows].
  - split; [discriminate|]. intros H. inversion H.
  - unfold csvRow. destruct (csvDate chat) as [date|] eqn:Hdate.
    + destruct (csvRows chatList) as [rows|].
      * split; [discriminate|]. intros H. apply Exists_cons in H as [H|H]; [congruence|].
        now apply IH in H.
      * split; [|reflexivity]. intros _. apply Exists_cons. right. now apply IH.
    + split; [|reflexivity]. intros _. apply Exists_cons. now left.
Qed.

(** X23. On chats whose numeric [createdAt] are safe integers,
    [generateCSVSummary] throws exactly when some chat has a [createdAt]
    that [parseInt] does not read as a number, or reads as more than
    8640000000000 seconds in magnitude; otherwise it returns the header
    followed by one row per chat. *)
Theorem generateCSVSummary_throws_on_bad_date (exportData : Output) :
  Forall (fun chat => safeNumber (ExportedChat.createdAt chat)) (outputChats exportData) ->
  (generateCSVSummary exportData = None <->
   Exists (fun chat =>
             forall seconds,
               parseInt (ExportedChat.createdAt chat) = Some seconds ->
               (8640000000000 < Z.abs seconds)%Z)
          (outputChats exportData)) /\
  (forall text,
      generateCSVSummary exportData = Some text ->
      exists rows,
        text = String.concat nl (csvHeader :: rows) /\
        Forall2 (fun chat row => csvRow chat = Some row) (outputChats exportData) rows).
Proof.
  intros _. unfold generateCSVSummary. split.
  - destruct (csvRows (outputChats exportData)) as [rows|] eqn:Hrows.
    + split; [discriminate|]. intros Hbad. exfalso.
      assert (Hnone : csvRows (outputChats exportData) = None).
      { apply csvRows_none. eapply Exists_impl; [exact Hbad|].
        intros chat Hchat. cbn beta in Hchat. unfold csvDate.
        destruct (parseInt _) as [seconds|]; [|reflexivity].
        specialize (Hchat seconds eq_refl).
        destruct (Z.leb_spec (Z.abs (seconds * 1000)) 8640000000000000); [lia|reflexivity]. }
      congruence.
    + split; [|reflexivity]. intros _. apply csvRows_none in Hrows.
      eapply Exists_impl; [exact Hrows|]. intros chat Hchat seconds Hparse. cbn beta in Hchat.
      unfold csvDate in Hchat. rewrite Hparse in Hchat.
      destruct (Z.leb_spec (Z.abs (seconds * 1000)) 8640000000000000); [discriminate|lia].
  - intros text. destruct (csvRows (outputChats exportData)) as [rows|] eqn:Hrows;
      [|discriminate].
    intros [= <-]. exists rows. split; [reflexivity|].
    revert rows Hrows. induction (outputChats exportData) as [|chat chatList IH];
      intros rows; cbn [csvRows].
    + intros [= <-]. constructor.
    + destruct (csvRow chat) as [row|] eqn:Hrow; [|discriminate].
      destruct (csvRows chatList) as [rest|]; [|discriminate].
      intros [= <-]. constructor; [exact Hrow|]. now apply IH.
Qed.

(** X24. The date filter of the export protects the CSV summary from chats
    without a date: for the output a run through the batches writes, every
    chat has a [createdAt] that [parseInt] reads as a number, so
    [generateCSVSummary] returns on it whenever none of these numbers
    exceeds 8640000000000 seconds in magnitude. *)
Theorem generateCSVSummary_returns_on_export_output
    (dateParse : string -> option Z) (cfg : Config) (api : string -> Response)
    (h : gmap loc (list Message.t)) (files : gmap string FileContent)
    (cache : Cache) (conversations : list Conversation.t) (output : Output) :
  uncachedOf cache (snd (filterConversationsByDepartment cfg conversations)) <> [] ->
  runOutput (export dateParse cfg api h files cache conversations) = Some output ->
  Forall (fun chat => exists seconds, parseInt (ExportedChat.createdAt chat) = Some seconds)
         (outputChats output) /\
  ((forall chat seconds,
       In chat (outputChats output) ->
       parseInt (ExportedChat.createdAt chat) = Some seconds ->
       (Z.abs seconds <= 8640000000000)%Z) ->
   exists text, generateCSVSummary output = Some text).
Proof.
  intros Hnew Houtput.
  pose proof (export_batches_date_filtered dateParse cfg api h files cache conversations
                output Hnew Houtput) as Hfiltered.
  assert (Hparsed : Forall (fun chat =>
            exists seconds, parseInt (ExportedChat.createdAt chat) = Some seconds)
            (outputChats output)).
  { eapply Forall_impl; [exact Hfiltered|]. intros chat Hchat. cbn beta in Hchat.
    unfold onOrAfterFromDate in Hchat.
    destruct (parseInt _) as [seconds|]; [now exists seconds|discriminate]. }
  split; [exact Hparsed|]. intros Hrange.
  destruct (generateCSVSummary output) as [text|] eqn:Hcsv; [now exists text|].
  exfalso. unfold generateCSVSummary in Hcsv.
  destruct (csvRows (outputChats output)) eqn:Hrows; [discriminate|].
  apply csvRows_none, Exists_exists in Hrows as (chat & Hin & Hdate).
  apply list_elem_of_In in Hin.
  destruct (proj1 (Forall_forall _ _) Hparsed chat ltac:(now apply list_elem_of_In))
    as [seconds Hseconds].
  unfold csvDate in Hdate. rewrite Hseconds in Hdate.
  specialize (Hrange chat seconds Hin Hseconds).
  destruct (Z.leb_spec (Z.abs (seconds * 1000)) 8640000000000000); [discriminate|lia].
Qed.


(** ** From the messages to the CSV columns *)

Lemma trimEnd_twice (s : string) : trimEnd (trimEnd s) = trimEnd s.
Proof.
  induction s as [|c s IH]; [reflexivity|]. cbn [trimEnd].
  destruct (trimEnd s) as [|d t] eqn:Hs.
  - destruct (isWhite c) eqn:Hc; [reflexivity|]. cbn [trimEnd]. now rewrite Hc.
  - cbn [trimEnd]. cbn [trimEnd] in IH. rewrite IH. reflexivity.
Qed.

Lemma trimEnd_append (a b : string) :
  trimEnd b <> EmptyString -> trimEnd (a +:+ b) = a +:+ trimEnd b.
Proof.
  intros Hb. induction a as [|c a IH]; [reflexivity|].
  rewrite !append_cons. cbn [trimEnd]. rewrite IH.
  destruct (a +:+ trimEnd b) eqn:Hab; [|reflexivity].
  destruct a as [|d a].
  - change (EmptyString +:+ trimEnd b) with (trimEnd b) in Hab. congruence.
  - rewrite append_cons in Hab. discriminate.
Qed.

Lemma trimEnd_append_white (a w : string) :
  trimEnd w = EmptyString -> trimEnd (a +:+ w) = trimEnd a.
Proof.
  intros Hw. induction a as [|c a IH]; [exact Hw|].
  rewrite append_cons. cbn [trimEnd]. now rewrite IH.
Qed.

Lemma trimEnd_head (c : ascii) (s : string) :
  isWhite c = false -> exists t, trimEnd (String c s) = String c t.
Proof.
  intros Hc. cbn [trimEnd]. destruct (trimEnd s) as [|d t].
  - rewrite Hc. now exists EmptyString.
  - now exists (String d t).
Qed.

Lemma trim_twice (s : string) : trim (trim s) = trim s.
Proof.
  unfold trim.
  assert (Hstart : forall t, match t with
                             | EmptyString => True
                             | String c _ => isWhite c = false
                             end -> trimStart (trimEnd t) = trimEnd t).
  { intros [|c t] Hc; [reflexivity|].
    destruct (trimEnd_head c t Hc) as [t' ->]. cbn [trimStart]. now rewrite Hc. }
  rewrite Hstart, trimEnd_twice; [reflexivity|].
  induction s as [|c s IH]; [exact I|]. cbn [trimStart].
  destruct (isWhite c) eqn:Hc; [exact IH|exact Hc].
Qed.

Lemma trim_after_space (s : string) : trim (" " +:+ trim s) = trim s.
Proof.
  change (" " +:+ trim s) with (String " " (trim s)).
  unfold trim at 1. cbn [trimStart]. change (isWhite " ") with true. cbn iota.
  fold (trim (trim s)). apply trim_twice.
Qed.

Lemma trimEnd_trim (s : string) : trimEnd (trim s) = trim s.
Proof. unfold trim. apply trimEnd_twice. Qed.

(** A line ends where its body ends. *)
Lemma lineText_clean (m : Message.t) :
  hasContent m = true -> trimEnd (lineText m) = lineText m /\ lineText m <> EmptyString.
Proof.
  intros Hm. unfold hasContent in Hm. apply andb_true_iff in Hm as [_ Hbody].
  apply negb_true_iff in Hbody. apply String.eqb_neq in Hbody.
  split.
  - unfold lineText. rewrite <- !append_assoc.
    rewrite trimEnd_append; rewrite trimEnd_trim; [reflexivity|exact Hbody].
  - unfold lineText. rewrite append_cons. discriminate.
Qed.

Lemma taggedLine_lineText (m : Message.t) : taggedLine m = lineText m +:+ nl.
Proof. unfold taggedLine, lineText. now rewrite !append_assoc. Qed.

(** The trimmed transcript is the lines joined by newlines. *)
Lemma transcript_joined (spoken : list Message.t) :
  Forall (fun m => hasContent m = true) spoken ->
  trimEnd (fold_right (fun m rest => taggedLine m +:+ rest) EmptyString spoken) =
  String.concat nl (map lineText spoken).
Proof.
  induction 1 as [|m spoken Hm Hall IH]; [reflexivity|].
  cbn [fold_right map]. rewrite taggedLine_lineText, append_assoc.
  destruct (lineText_clean m Hm) as [Hclean Hne].
  destruct spoken as [|m2 spoken].
  - cbn [fold_right map String.concat].
    rewrite <- append_assoc, append_empty_r.
    rewrite trimEnd_append_white by reflexivity. exact Hclean.
  - assert (Hrest : String.concat nl (map lineText (m2 :: spoken)) <> EmptyString).
    { cbn [map String.concat]. destruct (map lineText spoken); cbn; discriminate. }
    rewrite trimEnd_append.
    + rewrite trimEnd_append by (rewrite IH; exact Hrest). rewrite IH. reflexivity.
    + rewrite trimEnd_append by (rewrite IH; exact Hrest). rewrite IH.
      unfold nl. discriminate.
Qed.

Lemma splitLines_line (line rest : string) :
  noLineFeed line = true ->
  splitLines (line +:+ nl +:+ rest) = line :: splitLines rest.
Proof.
  induction line as [|c line IH]; intros Hline; [reflexivity|].
  cbn [noLineFeed] in Hline. apply andb_true_iff in Hline as [Hc Hline].
  apply negb_true_iff in Hc.
  rewrite append_cons. cbn [splitLines]. rewrite Hc, IH by exact Hline. reflexivity.
Qed.

Lemma splitLines_last (line : string) :
  noLineFeed line = true -> splitLines line = [line].
Proof.
  induction line as [|c line IH]; intros Hline; [reflexivity|].
  cbn [noLineFeed] in Hline. apply andb_true_iff in Hline as [Hc Hline].
  apply negb_true_iff in Hc. cbn [splitLines]. rewrite Hc, IH by exact Hline. reflexivity.
Qed.

Lemma splitLines_joined (lines : list string) :
  lines <> [] -> Forall (fun line => noLineFeed line = true) lines ->
  splitLines (String.concat nl lines) = lines.
Proof.
  intros Hne Hall. induction Hall as [|line lines Hline Hall IH]; [congruence|].
  destruct lines as [|line2 lines].
  - cbn [String.concat]. now apply splitLines_last.
  - change (String.concat nl (line :: line2 :: lines))
      with (line +:+ nl +:+ String.concat nl (line2 :: lines)).
    rewrite splitLines_line by exact Hline. f_equal. apply IH. discriminate.
Qed.

Lemma noLineFeed_append (a b : string) :
  noLineFeed (a +:+ b) = noLineFeed a && noLineFeed b.
Proof.
  induction a as [|c a IH]; [reflexivity|].
  rewrite append_cons. cbn [noLineFeed]. rewrite IH. now rewrite andb_assoc.
Qed.

Lemma lineText_noLineFeed (m : Message.t) :
  noLineFeed (trim (messageContent m)) = true -> noLineFeed (lineText m) = true.
Proof.
  intros Hbody. unfold lineText, tagOf. rewrite !noLineFeed_append, Hbody.
  now case_decide.
Qed.

Lemma lineText_not_blank (m : Message.t) :
  negb (String.eqb (trim (lineText m)) EmptyString) = true.
Proof.
  unfold lineText. rewrite append_cons.
  set (rest := EmptyString +:+ tagOf m +:+ "] " +:+ trim (messageContent m)).
  unfold trim. cbn [trimStart]. change (isWhite "[") with false. cbn iota.
  destruct (trimEnd_head "[" rest eq_refl) as [t Ht]. rewrite Ht. reflexivity.
Qed.

Lemma lineText_user (m : Message.t) :
  String.prefix "[USER]" (lineText m) = negb (isAgentMessage m) /\
  String.prefix "[AGENT]" (lineText m) = isAgentMessage m.
Proof.
  unfold lineText, tagOf, isAgentMessage.
  destruct (decide (Message.from m = Some "agent")) as [Hfrom|Hfrom].
  - rewrite (bool_decide_eq_true_2 _ Hfrom). split; reflexivity.
  - rewrite (bool_decide_eq_false_2 _ Hfrom). split; reflexivity.
Qed.

Lemma lineText_body (m : Message.t) :
  (isAgentMessage m = false ->
   trim (replaceFirst "[USER]" EmptyString (lineText m)) = trim (messageContent m)) /\
  (isAgentMessage m = true ->
   trim (replaceFirst "[AGENT]" EmptyString (lineText m)) = trim (messageContent m)).
Proof.
  unfold lineText, tagOf, isAgentMessage.
  destruct (decide (Message.from m = Some "agent")) as [Hfrom|Hfrom].
  - rewrite (bool_decide_eq_true_2 _ Hfrom). split; [discriminate|].
    intros _. apply trim_after_space.
  - rewrite (bool_decide_eq_false_2 _ Hfrom). split; [|discriminate].
    intros _. apply trim_after_space.
Qed.

Lemma find_map_lines {A B : Type} (f : A -> B) (p : B -> bool) (l : list A) :
  List.find p (map f l) = option_map f (List.find (fun x => p (f x)) l).
Proof.
  induction l as [|x l IH]; [reflexivity|]. cbn [map List.find].
  destruct (p (f x)); [reflexivity|exact IH].
Qed.

Lemma find_ext_lines {A : Type} (p q : A -> bool) (l : list A) :
  (forall x, p x = q x) -> List.find p l = List.find q l.
Proof.
  intros Hpq. induction l as [|x l IH]; [reflexivity|]. cbn [List.find].
  now rewrite Hpq, IH.
Qed.

Lemma filter_map_lines {A B : Type} (f : A -> B) (p : B -> bool) (l : list A) :
  List.filter p (map f l) = map f (List.filter (fun x => p (f x)) l).
Proof.
  induction l as [|x l IH]; [reflexivity|]. cbn [map List.filter].
  destruct (p (f x)); cbn [map]; now rewrite IH.
Qed.

Lemma last_in_lines {A : Type} (l : list A) (d : A) : In (List.last l d) (d :: l).
Proof.
  destruct l as [|x l]; [now left|]. right.
  induction l as [|y l IH] in x |- *; [now left|].
  right. exact (IH y).
Qed.

Lemma last_map_lines {A B : Type} (f : A -> B) (l : list A) (d : A) :
  List.last (map f l) (f d) = f (List.last l d).
Proof.
  induction l as [|x l IH]; [reflexivity|]. cbn [map].
  destruct l as [|y l]; [reflexivity|]. exact IH.
Qed.

(** X26. The CSV columns come from the messages: for a chat formatted from
    messages whose trimmed bodies hold no line feed, the First User Message
    column (before its cut to 100 characters) is the trimmed body of the
    first message, in the order the sort has left the array in, that has
    content and is not from the agent, and the Last Agent Response column
    is the trimmed body of the last one that has content and is from the
    agent; each is empty when there is no such message. *)
Theorem csv_columns_from_messages
    (dateParse : string -> option Z) (cfg : Config)
    (h : gmap loc (list Message.t)) (conversation : Conversation.t)
    (r : loc) (messages : list Message.t) :
  h !! r = Some messages -> length messages <> 0 ->
  Forall (fun m => hasContent m = true -> noLineFeed (trim (messageContent m)) = true)
         messages ->
  exists h' chat sorted,
    formatConversationWithMessages dateParse cfg h conversation r = Some (h', chat) /\
    h' !! r = Some sorted /\
    Permutation messages sorted /\
    (datesComparable dateParse messages -> sorted = sortMessages dateParse messages) /\
    firstUserMessage chat =
      match List.find (fun m => negb (isAgentMessage m)) (List.filter hasContent sorted) with
      | Some m => trim (messageContent m)
      | None => EmptyString
      end /\
    lastAgentResponse chat =
      match List.filter isAgentMessage (List.filter hasContent sorted) with
      | [] => EmptyString
      | m :: ms => trim (messageContent (List.last ms m))
      end.
Proof.
  intros Hr Hne Hbodies.
  destruct (format_nonempty dateParse cfg h conversation r messages Hr Hne)
    as (chat & Hformat & _ & _ & Htext).
  exists (<[r := sortMessages dateParse messages]> h), chat, (sortMessages dateParse messages).
  split; [exact Hformat|]. split; [apply lookup_insert_eq|].
  split; [apply sortMessages_perm|]. split; [reflexivity|].
  set (spoken := List.filter hasContent (sortMessages dateParse messages)).
  assert (Hcontent : Forall (fun m => hasContent m = true) spoken).
  { apply Forall_forall. intros m Hm. apply list_elem_of_In in Hm.
    subst spoken. apply filter_In in Hm. tauto. }
  assert (Hlines : Forall (fun m => noLineFeed (trim (messageContent m)) = true) spoken).
  { apply Forall_forall. intros m Hm. apply list_elem_of_In in Hm.
    subst spoken. apply filter_In in Hm as [Hm Hhas].
    apply (Permutation_in _ (Permutation_sym (sortMessages_perm dateParse messages))) in Hm.
    apply (proj1 (Forall_forall _ _) Hbodies m); [now apply list_elem_of_In|exact Hhas]. }
  assert (Hmessages : csvMessages chat = map lineText spoken).
  { unfold csvMessages. rewrite Htext, fold_appendMessage.
    change (EmptyString +:+ transcriptOf (sortMessages dateParse messages))
      with (transcriptOf (sortMessages dateParse messages)).
    rewrite trim_no_leading_space by apply transcriptOf_start.
    unfold transcriptOf. fold spoken. rewrite transcript_joined by exact Hcontent.
    destruct spoken as [|m spoken0] eqn:Hspoken; [reflexivity|].
    rewrite <- Hspoken in *.
    rewrite splitLines_joined.
    - rewrite filter_map_lines.
      rewrite (filter_ext _ (fun _ => true)) by (intros m0; apply lineText_not_blank).
      f_equal. clear. induction spoken as [|x l IH]; [reflexivity|].
      cbn [List.filter]. now rewrite IH.
    - rewrite Hspoken. discriminate.
    - apply Forall_forall. intros line Hline.
      apply list_elem_of_In, in_map_iff in Hline as (m0 & <- & Hm0).
      apply lineText_noLineFeed.
      apply (proj1 (Forall_forall _ _) Hlines). now apply list_elem_of_In. }
  split.
  - unfold firstUserMessage. rewrite Hmessages, find_map_lines.
    rewrite (find_ext_lines _ (fun m => negb (isAgentMessage m)))
      by (intros m; apply lineText_user).
    destruct (List.find _ spoken) as [m|] eqn:Hfind; [|reflexivity].
    cbn [option_map]. apply find_some in Hfind as [_ Huser].
    apply negb_true_iff in Huser. now apply lineText_body.
  - unfold lastAgentResponse. rewrite Hmessages, filter_map_lines.
    rewrite (filter_ext _ isAgentMessage) by (intros m; apply lineText_user).
    destruct (List.filter isAgentMessage spoken) as [|m ms] eqn:Hagents; [reflexivity|].
    cbn [map]. rewrite last_map_lines.
    assert (Hin : In (List.last ms m) (List.filter isAgentMessage spoken)).
    { rewrite Hagents. apply last_in_lines. }
    apply filter_In in Hin as [_ Hagent]. now apply lineText_body.
Qed.

(** X27. The counters of the output add up: [totalExportedChats] is the
    number of chats listed, [totalConversationsFound] the number fetched;
    the conversations after the department filter are at most those
    fetched, the new chats at most those after the filter, and the chats
    listed at most those in the cache. *)
Theorem export_output_counters
    (dateParse : string -> option Z) (cfg : Config) (api : string -> Response)
    (h : gmap loc (list Message.t)) (files : gmap string FileContent)
    (cache : Cache) (conversations : list Conversation.t) (output : Output) :
  let run := export dateParse cfg api h files cache conversations in
  runOutput run = Some output ->
  totalExportedChats output = length (outputChats output) /\
  totalConversationsFound output = length conversations /\
  totalConversationsAfterFiltering output <= totalConversationsFound output /\
  newChatsProcessed output <= totalConversationsAfterFiltering output /\
  length (outputChats output) <= length (chats (runCache run)).
Proof.
  intros run Houtput.
  destruct (export_facts dateParse cfg api h files cache conversations)
    as (_ & added & _ & Hcount & Hlen & _).
  specialize (Hcount output Houtput).
  assert (Hfiltered :
    length (snd (filterConversationsByDepartment cfg conversations)) <= length conversations).
  { unfold filterConversationsByDepartment. cbn [snd].
    etrans; [apply filter_length_le|]. now rewrite length_map. }
  assert (Hnew : newChatsProcessed output <=
                 length (snd (filterConversationsByDepartment cfg conversations))).
  { rewrite Hcount. etrans; [exact Hlen|]. apply filter_length_le. }
  clear Hcount Hlen. revert Houtput Hnew. subst run. unfold export.
  destruct (length conversations =? 0); [discriminate|].
  destruct (length (snd (filterConversationsByDepartment cfg conversations)) =? 0);
    [discriminate|].
  destruct (length (uncachedOf cache _) =? 0);
    [|cbv zeta; destruct (generateCSVSummary _)];
    cbn [runOutput runCache]; intros [= <-];
    cbn [totalExportedChats outputChats totalConversationsFound
         totalConversationsAfterFiltering newChatsProcessed]; intros Hnew.
  - repeat split; auto; lia.
  - repeat split; auto. apply filter_length_le.
  - repeat split; auto. apply filter_length_le.
Qed.

(** * Concrete runs of the further properties *)

(** A cached chat 1 merged with new chats 1 and 7. *)
Lemma mergeWithCache_distinct_witness :
  map ExportedChat.chatId
    (mergeWithCache [chatWith "1" 1600000000]
                    [chatWith "1" 1600000000; chatWith "7" 1710000000]) = ["1"; "7"] /\
  NoDup (map ExportedChat.chatId
           (mergeWithCache [chatWith "1" 1600000000]
                           [chatWith "1" 1600000000; chatWith "7" 1710000000])).
Proof.
  split; [vm_compute; reflexivity|].
  apply mergeWithCache_distinct.
  - apply (bool_decide_unpack _). vm_compute. exact I.
  - apply (bool_decide_unpack _). vm_compute. exact I.
Defined.

(** Two pages: the first announces more, the second ends the loop; the
    conversation of 2020 is dropped and the two of 2024 are returned in
    page order. *)
Lemma getConversations_returns_kept_pages_witness :
  getConversations exampleDates noSeconds exampleConfig twoPages 5 =
    Fetched [conversationWith 7 1710000000 None; conversationWith 8 1710000100 None] /\
  Forall (fun conversation =>
            createdOnOrAfter exampleDates noSeconds exampleConfig conversation = true)
         [conversationWith 7 1710000000 None; conversationWith 8 1710000100 None].
Proof.
  destruct (getConversations_returns_kept_pages exampleDates noSeconds exampleConfig
              twoPages 5
              [conversationWith 7 1710000000 None; conversationWith 8 1710000100 None])
    as [[_ Hreturns] Hkept].
  assert (Hfetched :
    getConversations exampleDates noSeconds exampleConfig twoPages 5 =
      Fetched [conversationWith 7 1710000000 None; conversationWith 8 1710000100 None]).
  { apply Hreturns. exists 1. split; [lia|]. split; [|split].
    - intros page Hpage. assert (page = 0) as -> by lia.
      exists {| listData := Some [conversationWith 1 1600000000 None;
                                  conversationWith 7 1710000000 None];
                listTotal := Some 150%Z |},
             [conversationWith 1 1600000000 None; conversationWith 7 1710000000 None],
             150%Z.
      repeat split; reflexivity.
    - exists (Some {| listData := Some [conversationWith 8 1710000100 None];
                      listTotal := Some 150%Z |}).
      split; [reflexivity|]. cbn. split; [reflexivity|]. unfold pageLimit. lia.
    - reflexivity. }
  split; [exact Hfetched|apply Hkept; exact Hfetched].
Defined.

(** With totals of 150, two requests are enough. *)
Lemma getConversations_terminates_witness :
  getConversations exampleDates noSeconds exampleConfig twoPages 2 <> FetchOutOfFuel /\
  getConversations exampleDates noSeconds exampleConfig twoPages (2 + 3) =
  getConversations exampleDates noSeconds exampleConfig twoPages 2.
Proof.
  apply (getConversations_terminates exampleDates noSeconds exampleConfig twoPages 150 2 3).
  - intros offset body total Hpage Htotal. unfold twoPages in Hpage.
    destruct (offset =? 0); [injection Hpage as <-; injection Htotal as <-; lia|].
    destruct (offset =? 100); [injection Hpage as <-; injection Htotal as <-; lia|].
    discriminate.
  - lia.
  - lia.
Defined.

(** The first page goes on and the second request fails; and a first page
    that is an empty array. *)
Lemma getConversations_throws_on_bad_page_witness :
  getConversations exampleDates noSeconds exampleConfig secondPageFails 5 = FetchThrew /\
  getConversations exampleDates noSeconds exampleConfig emptyList 5 = FetchThrew.
Proof.
  split.
  - apply (getConversations_throws_on_bad_page exampleDates noSeconds exampleConfig
             secondPageFails 5 1).
    + intros page Hpage. assert (page = 0) as -> by lia.
      exists {| listData := Some [conversationWith 7 1710000000 None];
                listTotal := Some 150%Z |},
             [conversationWith 7 1710000000 None], 150%Z.
      repeat split; reflexivity.
    + left. reflexivity.
    + lia.
  - apply (getConversations_throws_on_bad_page exampleDates noSeconds exampleConfig
             emptyList 5 0).
    + intros page Hpage. lia.
    + right. exists {| listData := Some []; listTotal := Some 0%Z |}, [].
      repeat split; reflexivity.
    + lia.
Defined.

(** The inline array of conversation 7 after a run. *)
Lemma export_keeps_messages_witness :
  exists messages',
    runHeap (export exampleDates exampleConfig apiDown exampleHeap ∅ emptyCache
               [conversationWith 7 1710000000 (Some 0)]) !! (0 : loc) = Some messages' /\
    Permutation unsortedMessages messages'.
Proof.
  apply (export_keeps_messages exampleDates exampleConfig apiDown exampleHeap ∅ emptyCache
           [conversationWith 7 1710000000 (Some 0)] 0 unsortedMessages).
  reflexivity.
Defined.


(** Three messages with valid dates, two of them of the same date: the
    two stay in their order. *)
Lemma sortMessages_stable_witness :
  List.filter (hasSortKey exampleDates (Some 10%Z))
    (sortMessages exampleDates
       [ textMessage "agent" "later" (JNum 20);
         textMessage "customer" "first" (JNum 10);
         textMessage "customer" "second" (JNum 10) ]) =
  [ textMessage "customer" "first" (JNum 10); textMessage "customer" "second" (JNum 10) ].
Proof.
  rewrite sortMessages_stable; [reflexivity|].
  left. repeat constructor; discriminate.
Defined.

(** The two messages of the tagging example carry no date. *)
Lemma sortMessages_unchanged_witness :
  sortMessages exampleDates hiHello = hiHello.
Proof.
  apply sortMessages_unchanged. left. repeat constructor.
Defined.

(** Conversation 7 with its inline array of three messages, with one
    message fetched from the second candidate endpoint, and without
    messages. *)
Lemma processConversation_chat_shape_witness :
  (exists h' chat,
      processConversation exampleDates exampleConfig apiDown exampleHeap
        (conversationWith 7 1710000000 (Some 0)) = (h', Some chat) /\
      ExportedChat.messageCount chat = 3 /\ ExportedChat.hasMessages chat = true) /\
  (exists h' chat,
      processConversation exampleDates exampleConfig apiSecondAnswers exampleHeap
        (conversationWith 7 1710000000 None) = (h', Some chat) /\
      ExportedChat.messageCount chat = 1 /\ ExportedChat.hasMessages chat = true) /\
  (exists h' chat,
      processConversation exampleDates exampleConfig apiDown exampleHeap
        (conversationWith 7 1710000000 None) = (h', Some chat) /\
      ExportedChat.messageCount chat = 0 /\
      ExportedChat.conversationText chat = EmptyString).
Proof.
  split; [|split].
  - destruct (processConversation exampleDates exampleConfig apiDown exampleHeap
                (conversationWith 7 1710000000 (Some 0))) as [h' [chat|]] eqn:Hprocess;
      [|vm_compute in Hprocess; discriminate].
    destruct (processConversation_chat_shape _ _ _ _ _ _ _ Hprocess)
      as (_ & Hhas & _ & Hinline & _).
    assert (Hcount : ExportedChat.messageCount chat = 3)
      by (apply (Hinline 0 unsortedMessages); reflexivity).
    exists h', chat. split; [reflexivity|]. split; [exact Hcount|].
    apply Hhas. rewrite Hcount. lia.
  - destruct (processConversation exampleDates exampleConfig apiSecondAnswers exampleHeap
                (conversationWith 7 1710000000 None)) as [h' [chat|]] eqn:Hprocess;
      [|vm_compute in Hprocess; discriminate].
    destruct (processConversation_chat_shape _ _ _ _ _ _ _ Hprocess)
      as (_ & Hhas & _ & _ & Hfetched).
    destruct (Hfetched eq_refl) as [Hcount _].
    change (length (getChatMessages apiSecondAnswers
                      (Conversation.id (conversationWith 7 1710000000 None)))) with 1
      in Hcount.
    exists h', chat. split; [reflexivity|]. split; [exact Hcount|].
    apply Hhas. rewrite Hcount. lia.
  - destruct (processConversation exampleDates exampleConfig apiDown exampleHeap
                (conversationWith 7 1710000000 None)) as [h' [chat|]] eqn:Hprocess;
      [|vm_compute in Hprocess; discriminate].
    destruct (processConversation_chat_shape _ _ _ _ _ _ _ Hprocess)
      as (_ & Hhas & Htext & _ & Hfetched).
    destruct (Hfetched eq_refl) as [Hcount _].
    change (length (getChatMessages apiDown
                      (Conversation.id (conversationWith 7 1710000000 None)))) with 0
      in Hcount.
    exists h', chat. split; [reflexivity|]. split; [exact Hcount|].
    apply Htext. apply not_true_is_false. intros Hflag. apply Hhas in Hflag. lia.
Defined.

(** An array with one technical message. *)
Lemma transcript_empty_without_content_witness :
  exists h' chat,
    formatConversationWithMessages exampleDates exampleConfig techOnlyHeap
      (conversationWith 7 1710000000 (Some 0)) 0 = Some (h', chat) /\
    ExportedChat.conversationText chat = EmptyString /\
    ExportedChat.messageCount chat = 1 /\
    ExportedChat.hasMessages chat = true.
Proof.
  apply (transcript_empty_without_content exampleDates exampleConfig techOnlyHeap
           (conversationWith 7 1710000000 (Some 0)) 0
           [techMessage "resolution_time" (JNum 5)]).
  - reflexivity.
  - simpl. lia.
  - repeat constructor.
Defined.

(** The exporter of an environment with organization OSL keeps the
    conversation of OSL and drops the unassigned one. *)
Lemma newExporter_always_filters_witness :
  exists exporter,
    newExporter exampleEnv = Some exporter /\
    departmentFilter (exporterConfig exporter) = Some "OSL" /\
    Forall (fun conversation =>
              nameOf (Conversation.department conversation) = Some "OSL")
           (snd (filterConversationsByDepartment (exporterConfig exporter)
                   [conversationWith 7 1710000000 None; unassigned])).
Proof.
  destruct (newExporter exampleEnv) as [exporter|] eqn:Hnew;
    [|vm_compute in Hnew; discriminate].
  exists exporter. split; [reflexivity|].
  destruct (newExporter_always_filters exampleEnv exporter
              [conversationWith 7 1710000000 None; unassigned] Hnew)
    as (_ & _ & Hfilter & Hkept).
  assert (Horg : organizationId (exporterConfig exporter) = "OSL").
  { vm_compute in Hnew. injection Hnew as <-. reflexivity. }
  rewrite Horg in Hfilter, Hkept. split; [exact Hfilter|exact Hkept].
Defined.

(** Conversation 7, created in March 2024, passes both filters. *)
Lemma date_filters_agree_witness :
  createdOnOrAfter exampleDates noSeconds exampleConfig (conversationWith 7 1710000000 None) =
  onOrAfterFromDate exampleDates exampleConfig
    (formatConversationMetadata exampleConfig (conversationWith 7 1710000000 None)).
Proof.
  apply (date_filters_agree exampleDates noSeconds exampleConfig apiDown
           exampleHeap exampleHeap (conversationWith 7 1710000000 None)
           (formatConversationMetadata exampleConfig (conversationWith 7 1710000000 None))
           1710000000).
  - reflexivity.
  - reflexivity.
  - reflexivity.
  - lia.
  - lia.
Defined.

(** The row of a chat whose customer name holds quotes and a comma. *)
Lemma csvRow_reads_back_witness :
  exists row,
    csvRow quotedChat = Some row /\
    parseCsvRow row =
    Some [ "7"; "2024-03-09"; "2";
           "Bo " +:+ dq +:+ "B" +:+ dq +:+ ", Jr"; "bo@example.org"; EmptyString;
           "OSL"; "2"; "swaps"; "hi, my swap"; "hello";
           "hi, my swap" +:+ nl +:+ " hello" ].
Proof.
  destruct (csvRow quotedChat) as [row|] eqn:Hrow; [|vm_compute in Hrow; discriminate].
  exists row. split; [reflexivity|].
  destruct (csvRow_reads_back quotedChat row Hrow) as (date & Hdate & Hread);
    [reflexivity|reflexivity|reflexivity|].
  rewrite Hread. vm_compute in Hdate. injection Hdate as <-.
  vm_compute. reflexivity.
Defined.

(** The output of a run that processes conversation 7. *)
Lemma generateCSVSummary_returns_on_export_output_witness :
  exists output text,
    runOutput (export exampleDates exampleConfig apiDown ∅ ∅ emptyCache
                 [conversationWith 7 1710000000 None]) = Some output /\
    generateCSVSummary output = Some text.
Proof.
  destruct (runOutput (export exampleDates exampleConfig apiDown ∅ ∅ emptyCache
                         [conversationWith 7 1710000000 None]))
    as [output|] eqn:Houtput; [|vm_compute in Houtput; discriminate].
  destruct (generateCSVSummary_returns_on_export_output exampleDates exampleConfig apiDown
              ∅ ∅ emptyCache [conversationWith 7 1710000000 None] output)
    as [_ Hreturns]; [discriminate|exact Houtput|].
  destruct Hreturns as [text Htext].
  - vm_compute in Houtput. injection Houtput as <-.
    intros chat seconds [<-|[]] [= <-]. lia.
  - exists output, text. split; [reflexivity|exact Htext].
Defined.


(** The array stored out of order: the first user message is 'hi', the
    last agent response 'hello'. *)
Lemma csv_columns_from_messages_witness :
  exists h' chat,
    formatConversationWithMessages exampleDates exampleConfig exampleHeap
      (conversationWith 7 1710000000 (Some 0)) 0 = Some (h', chat) /\
    firstUserMessage chat = "hi" /\
    lastAgentResponse chat = "hello".
Proof.
  destruct (csv_columns_from_messages exampleDates exampleConfig exampleHeap
              (conversationWith 7 1710000000 (Some 0)) 0 unsortedMessages)
    as (h' & chat & sorted & Hformat & _ & _ & Horder & Hfirst & Hlast).
  - reflexivity.
  - simpl. lia.
  - repeat constructor.
  - rewrite Horder in Hfirst, Hlast by (left; repeat constructor; discriminate).
    exists h', chat. split; [exact Hformat|]. split; [exact Hfirst|exact Hlast].
Defined.

(** The output of a run over conversations 7 and 8, one of them new. *)
Lemma export_output_counters_witness :
  exists output,
    runOutput (export exampleDates exampleConfig apiDown ∅ ∅ staleCache
                 [conversationWith 7 1710000000 None; conversationWith 8 1710000100 None])
      = Some output /\
    totalConversationsFound output = 2 /\
    newChatsProcessed output <= totalConversationsAfterFiltering output.
Proof.
  destruct (runOutput (export exampleDates exampleConfig apiDown ∅ ∅ staleCache
                         [conversationWith 7 1710000000 None;
                          conversationWith 8 1710000100 None]))
    as [output|] eqn:Houtput; [|vm_compute in Houtput; discriminate].
  exists output. split; [reflexivity|].
  destruct (export_output_counters exampleDates exampleConfig apiDown ∅ ∅ staleCache
              [conversationWith 7 1710000000 None; conversationWith 8 1710000100 None]
              output Houtput) as (_ & Hfound & _ & Hnew & _).
  split; [exact Hfound|exact Hnew].
Defined.


(** A run over conversations 7 and 8 from a cache that holds chats 1 and 7:
    chat 8 is the one addition, and the output reports one new chat. *)
Lemma export_appends_to_cache_witness :
  let run := export exampleDates exampleConfig apiDown ∅ ∅ staleCache
               [conversationWith 7 1710000000 None; conversationWith 8 1710000100 None] in
  exists added output,
    chats (runCache run) = chats staleCache ++ added /\
    runOutput run = Some output /\
    newChatsProcessed output = length added.
Proof.
  intros run.
  destruct (export_appends_to_cache exampleDates exampleConfig apiDown ∅ ∅ staleCache
              [conversationWith 7 1710000000 None; conversationWith 8 1710000100 None])
    as (added & Hchats & Hcount & _).
  destruct (runOutput (export exampleDates exampleConfig apiDown ∅ ∅ staleCache
                         [conversationWith 7 1710000000 None;
                          conversationWith 8 1710000100 None]))
    as [output|] eqn:Houtput; [|vm_compute in Houtput; discriminate].
  exists added, output. split; [exact Hchats|]. split; [exact Houtput|].
  apply Hcount. reflexivity.
Defined.


(** A transcript that is put under 'swaps' holds a keyword of 'swaps'. *)
Lemma categorize_needs_keyword_witness :
  exists keywords keyword,
    In ("swaps", keywords) categories /\ In keyword keywords /\
    includes keyword (toLowerCase "My SWAP failed") = true.
Proof.
  destruct (categorize_needs_keyword "My SWAP failed" None None) as [Hcause _].
  apply Hcause.
  - vm_compute. reflexivity.
  - discriminate.
Defined.

(** Two spellings of one transcript, with different agents. *)
Lemma categorize_ignores_case_witness :
  categorizeConversation "My SWAP failed" None None =
  categorizeConversation "my swap FAILED" (Some "Ann") None.
Proof.
  destruct (categorize_ignores_case "My SWAP failed" "my swap FAILED"
              None None (Some "Ann") None) as [_ Hsame].
  apply Hsame. vm_compute. reflexivity.
Defined.

(** An output that lists a chat whose [createdAt] is null. *)
Lemma generateCSVSummary_throws_on_bad_date_witness :
  generateCSVSummary
    {| totalConversationsFound := 2; totalConversationsAfterFiltering := 2;
       newChatsProcessed := 0; totalExportedChats := 2;
       outputChats := [quotedChat;
                       ExportedChat.mk "8" "OSL" JNull JNull (JNum 2)
                         None None None (Some "OSL") 0 EmptyString false] |} = None.
Proof.
  apply (generateCSVSummary_throws_on_bad_date
           {| totalConversationsFound := 2; totalConversationsAfterFiltering := 2;
              newChatsProcessed := 0; totalExportedChats := 2;
              outputChats := [quotedChat;
                              ExportedChat.mk "8" "OSL" JNull JNull (JNum 2)
                                None None None (Some "OSL") 0 EmptyString false] |}).
  - repeat constructor. cbn. unfold safeInteger. lia.
  - apply Exists_cons_tl, Exists_cons_hd.
    intros seconds Hseconds. vm_compute in Hseconds. discriminate.
Defined.
